(** * Verification of the FAI_python build script (SDK/FAI_python/x64/setup.py)

    A shallow embedding of the build-support classes of [setup.py]
    ([BuildSupport], [BuildSupportWindows], [BuildSupportLinux] and the
    [__main__] orchestration) together with the properties stated about
    them.

    Conventions of the embedding:
    - a Python [str] is a [list ascii]; a character is a code point below
      256, which covers everything the script's patterns can tell apart
      ([\d] and [str.strip] are given on that range);
    - a raised exception is a value of [exn]; a computation that can raise
      returns [result];
    - the file system is a tree of directories and files, and the
      functions that touch it thread it explicitly;
    - a subprocess is an oracle: its outcome is an input of the model. *)

From Stdlib Require Import List String Ascii ZArith NArith Lia Bool DecimalString.
From stdpp Require Import gmap strings list.
Import ListNotations.

Open Scope string_scope.
Open Scope list_scope.

(** String literals stand for their list of characters. *)
Coercion list_ascii_of_string : string >-> list.

Definition str := list ascii.

(** ** Python primitives *)

Module Py.

(** Exceptions the script raises or lets through.  [FileNotFoundError],
    [FileExistsError], [NotADirectoryError], [IsADirectoryError] and
    [shutil.SameFileError] are subclasses of [OSError]; [EnvironmentError]
    is an alias of [OSError] in Python 3.  [KeyErrorPair] is the [KeyError]
    of a dictionary whose keys are pairs. *)
Inductive exn :=
| OSError
| FileNotFoundError
| FileExistsError
| NotADirectoryError
| IsADirectoryError
| CalledProcessError
| RuntimeError
| KeyError (key : str)
| KeyErrorPair (key : str * Z)
| SameFileError
| ValueError
| NameError (name : str)
| AttributeError
| TypeError
| SystemExit (status : Z).

Definition is_OSError (e : exn) : bool :=
  match e with
  | OSError | FileNotFoundError | FileExistsError
  | NotADirectoryError | IsADirectoryError | SameFileError => true
  | _ => false
  end.

Inductive result (A : Type) :=
| Ok (a : A)
| Raise (e : exn).
Arguments Ok {A} a.
Arguments Raise {A} e.

Definition bind {A B} (m : result A) (k : A -> result B) : result B :=
  match m with
  | Ok a => k a
  | Raise e => Raise e
  end.

Definition code (c : ascii) : N := N_of_ascii c.

(** [\d] of a [str] pattern: a decimal digit.  Below code point 256 the
    only characters of category Nd are [0-9]. *)
Definition is_digit (c : ascii) : bool :=
  ((48 <=? code c) && (code c <=? 57))%N.

Definition is_lower (c : ascii) : bool :=
  ((97 <=? code c) && (code c <=? 122))%N.

Definition is_upper (c : ascii) : bool :=
  ((65 <=? code c) && (code c <=? 90))%N.

(** [str.isspace] for one character below 256: the characters removed by
    [str.strip()]. *)
Definition is_space (c : ascii) : bool :=
  (((9 <=? code c) && (code c <=? 13))
   || ((28 <=? code c) && (code c <=? 32))
   || (code c =? 133) || (code c =? 160))%N.

Fixpoint lstrip (s : str) : str :=
  match s with
  | c :: s' => if is_space c then lstrip s' else s
  | [] => []
  end.

Definition rstrip (s : str) : str := rev (lstrip (rev s)).

Definition strip (s : str) : str := rstrip (lstrip s).

(** [s.split(sep)] for a one-character separator. *)
Fixpoint split (sep : ascii) (s : str) : list str :=
  match s with
  | [] => [[]]
  | c :: s' =>
      if Ascii.eqb c sep then [] :: split sep s'
      else match split sep s' with
           | w :: ws => (c :: w) :: ws
           | [] => [[c]]
           end
  end.

(** [sep.join(parts)]. *)
Fixpoint join (sep : str) (parts : list str) : str :=
  match parts with
  | [] => []
  | [p] => p
  | p :: ps => p ++ sep ++ join sep ps
  end.

Definition digit_value (c : ascii) : N := code c - 48.

(** [int(s)] on the strings the script passes to it: the pieces of a
    [[\d\.]+] match cut at the dots, that is, runs of digits, possibly
    empty.  A run of digits is read in base ten; the empty string is a
    [ValueError], and so is a run of more digits than
    [sys.get_int_max_str_digits()], which is 4300 unless the interpreter
    (Python 3.11) is told otherwise.  Every digit counts, a leading zero
    as well. *)
Definition int_value (s : str) : N :=
  fold_left (fun acc c => acc * 10 + digit_value c)%N s 0%N.

Definition int_max_str_digits : N := 4300.

Definition int (s : str) : result N :=
  match s with
  | [] => Raise ValueError
  | _ =>
      if forallb is_digit s then
        if (N.of_nat (length s) <=? int_max_str_digits)%N
        then Ok (int_value s)
        else Raise ValueError
      else Raise ValueError
  end.

(** [map(int, parts)] forced by [tuple]: the first failure is raised. *)
Fixpoint map_int (parts : list str) : result (list N) :=
  match parts with
  | [] => Ok []
  | p :: ps =>
      bind (int p) (fun n => bind (map_int ps) (fun ns => Ok (n :: ns)))
  end.

(** Lexicographic [<] of tuples of integers. *)
Fixpoint tuple_lt (a b : list N) : bool :=
  match a, b with
  | [], [] => false
  | [], _ :: _ => true
  | _ :: _, [] => false
  | x :: a', y :: b' =>
      if (x <? y)%N then true
      else if (y <? x)%N then false
      else tuple_lt a' b'
  end.

Definition tuple_le (a b : list N) : bool := negb (tuple_lt b a).

(** ["%d" % n] for a non-negative integer. *)
Definition fmt_d (n : N) : str := NilEmpty.string_of_uint (N.to_uint n).

(** [x in xs] on strings. *)
Definition str_eqb (a b : str) : bool := bool_decide (a = b).

Definition contains (x : str) (xs : list str) : bool :=
  existsb (str_eqb x) xs.

End Py.

Import Py.

#[global] Instance result_ret : MRet result := fun A a => Ok a.
#[global] Instance result_bind : MBind result := fun A B k m => Py.bind m k.

(** ** Regular expressions: the fragment of [re] the script uses

    The matcher follows the backtracking order of [re]: alternatives,
    optional parts and repetitions are tried greedily, and the first
    complete match fixes the groups.  [matches n0 r s c] lists, in that
    order, every way [r] can match at the front of [s]: the groups after
    the match and the text that is left.  [n0] is the length of the whole
    subject, so that [^] can tell the start. *)

Module Re.

Inductive regex :=
| Eps
| Bol                              (* ^ *)
| Dollar                           (* $ *)
| Lit (a : ascii)                  (* one literal character *)
| Class (p : ascii -> bool)        (* \d, [...] *)
| Seq (r1 r2 : regex)
| Alt (r1 r2 : regex)              (* r1|r2 *)
| Opt (r : regex)                  (* r? *)
| Star (r : regex)                 (* r* *)
| Group (k : nat) (r : regex).     (* (r), the k-th capturing group *)

(** [r+] *)
Definition Plus (r : regex) : regex := Seq r (Star r).

(** A literal string. *)
Fixpoint Lits (s : str) : regex :=
  match s with
  | [] => Eps
  | a :: s' => Seq (Lit a) (Lits s')
  end.

(** [r{lo,hi}] with [lo <= hi]: [lo] mandatory copies, then up to
    [hi - lo] optional ones, each tried before it is left out. *)
Fixpoint UpTo (n : nat) (r : regex) : regex :=
  match n with
  | O => Eps
  | S n' => Opt (Seq r (UpTo n' r))
  end.

Fixpoint Times (n : nat) (r : regex) : regex :=
  match n with
  | O => Eps
  | S n' => Seq r (Times n' r)
  end.

Definition Range (lo hi : nat) (r : regex) : regex :=
  Seq (Times lo r) (UpTo (hi - lo) r).

Abbreviation caps := (gmap nat str).

Definition outcome : Type := caps * str.

(** Greedy iteration: one more round of [step] that consumes something,
    then the rest; or stop here. *)
Fixpoint star_iter (step : str -> caps -> list outcome)
    (fuel : nat) (s : str) (c : caps) : list outcome :=
  match fuel with
  | O => [(c, s)]
  | S fuel' =>
      flat_map
        (fun o : outcome =>
           if (length o.2 <? length s)%nat
           then star_iter step fuel' o.2 o.1 else [])
        (step s c)
      ++ [(c, s)]
  end.

Fixpoint matches (n0 : nat) (r : regex) (s : str) (c : caps)
    {struct r} : list outcome :=
  match r with
  | Eps => [(c, s)]
  | Bol => if (length s =? n0)%nat then [(c, s)] else []
  | Dollar =>
      (* the end, or just before a newline that ends the subject *)
      match s with
      | [] => [(c, s)]
      | [a] => if Ascii.eqb a "010"%char then [(c, s)] else []
      | _ => []
      end
  | Lit a =>
      match s with
      | x :: s' => if Ascii.eqb x a then [(c, s')] else []
      | [] => []
      end
  | Class p =>
      match s with
      | x :: s' => if p x then [(c, s')] else []
      | [] => []
      end
  | Seq r1 r2 =>
      flat_map (fun o : outcome => matches n0 r2 o.2 o.1) (matches n0 r1 s c)
  | Alt r1 r2 => matches n0 r1 s c ++ matches n0 r2 s c
  | Opt r1 => matches n0 r1 s c ++ [(c, s)]
  | Star r1 => star_iter (matches n0 r1) (length s) s c
  | Group k r1 =>
      map (fun o : outcome =>
             (<[k := firstn (length s - length o.2) s]> o.1, o.2))
          (matches n0 r1 s c)
  end.

(** A match object: the groups of the first complete match. *)
Definition first_match (n0 : nat) (r : regex) (s : str) : option caps :=
  match matches n0 r s ∅ with
  | o :: _ => Some o.1
  | [] => None
  end.

(** [re.match(r, s)]: match at the start of [s]. *)
Definition re_match (r : regex) (s : str) : option caps :=
  first_match (length s) r s.

(** [re.search(r, s)]: the leftmost position where [r] matches. *)
Fixpoint search_from (n0 : nat) (r : regex) (s : str) : option caps :=
  match first_match n0 r s with
  | Some c => Some c
  | None =>
      match s with
      | [] => None
      | _ :: s' => search_from n0 r s'
      end
  end.

Definition re_search (r : regex) (s : str) : option caps :=
  search_from (length s) r s.

(** [m.group(k)]: [None] when the group took no part in the match. *)
Definition group (m : caps) (k : nat) : option str := m !! k.

End Re.

Import Re.

(** ** The version resolver: [BuildSupport.get_git_version] *)

Module GitVersion.

Definition digit : regex := Class is_digit.

Definition alnum (c : ascii) : bool := is_lower c || is_upper c || is_digit c.

Definition alnum_dot (c : ascii) : bool := alnum c || Ascii.eqb c ".".

(** [[0-9a-f]] *)
Definition lower_hex (c : ascii) : bool :=
  is_digit c || ((97 <=? code c) && (code c <=? 102))%N.

(** The version proper, shared by the two patterns: one or more digits,
    two or three times a dot and digits, and optionally one of a, b, rc
    followed by digits (none allowed). *)
Definition dot_number : regex := Seq (Lit ".") (Plus digit).

Definition suffix_rx : regex :=
  Opt (Seq (Alt (Lit "a") (Alt (Lit "b") (Lits "rc"))) (Star digit)).

Definition version_core : regex :=
  Seq (Plus digit) (Seq (Range 2 3 dot_number) suffix_rx).

(** The pattern of [m_rel]: the version proper between [^] and [$]. *)
Definition rx_release : regex := Seq Bol (Seq version_core Dollar).

(** Third line of [rx_git_ver]: optionally a plus sign, one of
    [a-zA-Z0-9], any number of [a-zA-Z0-9.] and optionally one more of
    [a-zA-Z0-9]. *)
Definition local_part : regex :=
  Opt (Seq (Lit "+")
         (Seq (Class alnum) (Seq (Star (Class alnum_dot)) (Opt (Class alnum))))).

(** "(?:-(\d+)-g[0-9a-f]+)?" *)
Definition distance_part : regex :=
  Opt (Seq (Lit "-")
         (Seq (Group 2 (Plus digit))
            (Seq (Lits "-g") (Plus (Class lower_hex))))).

(** "(?:-dirty)?" *)
Definition dirty_part : regex := Opt (Lits "-dirty").

(** [rx_git_ver], written with [re.VERBOSE]: the blanks and line breaks of
    the pattern are not part of it. *)
Definition tail_rx : regex :=
  Seq local_part (Seq distance_part (Seq dirty_part Dollar)).

Definition rx_git_ver : regex :=
  Seq Bol (Seq (Group 1 version_core) tail_rx).

(** [datetime.datetime.now()]: the fields of a naive local time. *)
Record datetime := {
  year : N; month : N; day : N;
  hour : N; minute : N; second : N; microsecond : N
}.

(** A [datetime] value keeps its time fields in range. *)
Definition valid_time (t : datetime) : Prop :=
  (hour t < 24 /\ minute t < 60 /\ second t < 60 /\ microsecond t < 1000000)%N.

(** [(now - midnight).seconds], [midnight] being 0:00 of the day of [now]:
    the difference has no days, and [timedelta] keeps whole seconds apart
    from the microseconds. *)
Definition todays_seconds (now : datetime) : N :=
  ((hour now * 3600 + minute now * 60 + second now
    + microsecond now / 1000000) mod 86400)%N.

(** ["%d.%d.%d.dev%d" % (now.year, now.month, now.day, todays_seconds)] *)
Definition date_version (now : datetime) : str :=
  fmt_d (year now) ++ "." ++ fmt_d (month now) ++ "." ++ fmt_d (day now)
  ++ ".dev" ++ fmt_d (todays_seconds now).

(** ["%s" % x] for a group that may be [None]. *)
Definition fmt_s (x : option str) : str :=
  match x with
  | Some s => s
  | None => "None"
  end.

(** ["%s" % (g or 0)]: [None] and the empty string are false. *)
Definition fmt_s_or_0 (g : option str) : str :=
  match g with
  | Some [] | None => "0"
  | Some s => s
  end.

(** The [try] block.  [git] is how
    [subprocess.check_output(["git", "describe", "--tags", "--dirty"])]
    ended: its output, or the exception it raised. *)
Definition describe (git : result str) : result str :=
  out ← git;
  let git_version := strip out in
  let m_rel := re_match rx_release git_version in
  let m_dev := re_match rx_git_ver git_version in
  match m_rel with
  | Some _ => Ok git_version
  | None =>
      match m_dev with
      | Some m => Ok (fmt_s (group m 1) ++ ".dev" ++ fmt_s_or_0 (group m 2))
      | None => Raise OSError
      end
  end.

(** [except (OSError, subprocess.CalledProcessError)] *)
Definition caught (e : exn) : bool :=
  is_OSError e || match e with CalledProcessError => true | _ => false end.

Definition get_git_version (git : result str) (now : datetime) : result str :=
  match describe git with
  | Ok v => Ok v
  | Raise e => if caught e then Ok (date_version now) else Raise e
  end.

End GitVersion.

Import GitVersion.


(** ** The file system

    A tree of directories and regular files (no links, no permissions).
    The order of the entries of a directory is the order in which
    [os.listdir] reports them. *)

Module FS.

#[local] Unset Elimination Schemes.
Inductive node :=
| File (data : str)
| Dir (entries : list (str * node)).
#[local] Set Elimination Schemes.

Definition is_dir (t : node) : bool :=
  match t with Dir _ => true | File _ => false end.

Fixpoint assoc (n : str) (es : list (str * node)) : option node :=
  match es with
  | [] => None
  | e :: es' => if str_eqb e.1 n then Some e.2 else assoc n es'
  end.

(** The node at a path given by its components from the root. *)
Fixpoint lookup (t : node) (p : list str) : option node :=
  match p with
  | [] => Some t
  | n :: p' =>
      match t with
      | Dir es =>
          match assoc n es with
          | Some t' => lookup t' p'
          | None => None
          end
      | File _ => None
      end
  end.

(** Replace the entry called [n], or add it at the end. *)
Fixpoint set_entry (n : str) (x : node) (es : list (str * node))
    : list (str * node) :=
  match es with
  | [] => [(n, x)]
  | e :: es' =>
      if str_eqb e.1 n then (n, x) :: es' else e :: set_entry n x es'
  end.

Definition del_entry (n : str) (es : list (str * node)) : list (str * node) :=
  List.filter (fun e : str * node => negb (str_eqb e.1 n)) es.

(** Apply [f] to the node at path [p]; nothing happens when there is no
    such node. *)
Fixpoint alter_at (f : node -> node) (t : node) (p : list str) : node :=
  match p with
  | [] => f t
  | n :: p' =>
      match t with
      | Dir es =>
          match assoc n es with
          | Some t' => Dir (set_entry n (alter_at f t' p') es)
          | None => t
          end
      | File _ => t
      end
  end.

(** Unlink the entry at path [p] with everything below it. *)
Definition remove (t : node) (p : list str) : node :=
  match p with
  | [] => t
  | _ =>
      alter_at
        (fun d => match d with
                  | Dir es => Dir (del_entry (List.last p []) es)
                  | File _ => d
                  end)
        t (removelast p)
  end.

(** Put [x] at path [p], whose parent has to be a directory. *)
Definition put (t : node) (p : list str) (x : node) : result node :=
  match p with
  | [] => Raise IsADirectoryError
  | _ =>
      match lookup t (removelast p) with
      | Some (Dir _) =>
          Ok (alter_at
                (fun d => match d with
                          | Dir es => Dir (set_entry (List.last p []) x es)
                          | File _ => d
                          end)
                t (removelast p))
      | Some (File _) => Raise NotADirectoryError
      | None => Raise FileNotFoundError
      end
  end.

(** A chain of fresh directories, one inside the other. *)
Fixpoint chain (p : list str) : node :=
  match p with
  | [] => Dir []
  | n :: p' => Dir [(n, chain p')]
  end.

(** [os.makedirs(p)], without [exist_ok]: the missing directories on the
    way are made; it is an error if the last one is there already. *)
Fixpoint makedirs_at (t : node) (p : list str) : result node :=
  match p with
  | [] => Raise FileExistsError
  | n :: p' =>
      match t with
      | File _ => Raise NotADirectoryError
      | Dir es =>
          match assoc n es with
          | Some t' =>
              t'' ← makedirs_at t' p'; Ok (Dir (set_entry n t'' es))
          | None => Ok (Dir (set_entry n (chain p') es))
          end
      end
  end.

(** [shutil.rmtree(p, ignore_errors=True)]: a directory goes with all it
    holds; anything else is an error, which is ignored. *)
Definition rmtree_ignore_errors (t : node) (p : list str) : node :=
  match lookup t p with
  | Some (Dir _) => remove t p
  | _ => t
  end.

(** *** Path names *)

Definition starts_with_slash (p : str) : bool :=
  match p with
  | c :: _ => Ascii.eqb c "/"
  | [] => false
  end.

Definition ends_with_slash (p : str) : bool :=
  match rev p with
  | c :: _ => Ascii.eqb c "/"
  | [] => false
  end.

(** [posixpath.join(a, b)] *)
Definition path_join (a b : str) : str :=
  if starts_with_slash b then b
  else if str_eqb a [] || ends_with_slash a then a ++ b
  else a ++ "/" ++ b.

(** One component of a path read from the left, as [normpath] does it:
    empty components and [.] are dropped, [..] leaves the directory. *)
Definition norm_step (stack : list str) (comp : str) : list str :=
  if str_eqb comp [] || str_eqb comp "." then stack
  else if str_eqb comp ".." then removelast stack
  else stack ++ [comp].

(** The components of [os.path.abspath(p)], the process being in the
    directory [cwd]. *)
Definition resolve (cwd : list str) (p : str) : list str :=
  fold_left norm_step (split "/" p) (if starts_with_slash p then [] else cwd).

Fixpoint drop_slashes (s : str) : str :=
  match s with
  | c :: s' => if Ascii.eqb c "/" then drop_slashes s' else s
  | [] => []
  end.

(** [os.path.basename(p)] *)
Definition basename (p : str) : str := List.last (split "/" p) [].

(** [os.path.dirname(p)], the head of [posixpath.split]: what stands
    before the last slash, without its trailing slashes unless it is made
    of slashes only. *)
Definition dirname (p : str) : str :=
  let head := firstn (length p - length (basename p)) p in
  if forallb (fun c => Ascii.eqb c "/") head then head
  else rev (drop_slashes (rev head)).

End FS.

Import FS.

(** ** What the script hands to [setuptools] *)

Module Setuptools.

(** The keyword arguments of [Extension(...)] after its name and sources. *)
Record Extension := {
  ext_name : str;
  sources : list str;
  library_dirs : list str;
  libraries : list str;
  extra_compile_args : list str;
  extra_link_args : list str
}.

(** The keyword arguments of [setup(...)]. *)
Record setup_call := {
  name : str;
  version : str;
  author : str;
  description : str;
  ext_modules : list Extension;
  packages : list str;
  package_data : list (str * list str)
}.

End Setuptools.

Import Setuptools.

(** ** The host and the state of a run *)

Module Host.

(** What the script reads from its surroundings.  A child process is an
    oracle: from its command line and the file system it finds, how it
    ends (the text the script reads from it, or the exception raised in
    the script) and the file system it leaves. *)
Record host := {
  system : str;                       (* platform.system() *)
  maxsize : Z;                        (* sys.maxsize *)
  python_major : N;                   (* sys.version_info[0] *)
  environ : gmap str str;             (* os.environ *)
  cwd : list str;                     (* components of os.getcwd() *)
  which : str -> option str;          (* shutil.which *)
  child : list str -> node -> result str * node;
  msvc_cc : option str;               (* msvc.cc, if the compiler is found *)
  setuptools : setup_call -> node -> result unit * node;  (* setup(...) *)
  set_order : list str;               (* iteration order of RuntimeDefaultDeploy *)
  clock : datetime                    (* datetime.datetime.now() *)
}.

(** What a run changes: the file system, the child processes started so
    far and the calls of [setup] made so far. *)
Record state := {
  fs : node;
  spawned : list (list str);
  setups : list setup_call
}.

Definition M (A : Type) : Type := state -> result A * state.

Definition ret {A} (a : A) : M A := fun st => (Ok a, st).

Definition raise {A} (e : exn) : M A := fun st => (Raise e, st).

Definition bind {A B} (m : M A) (k : A -> M B) : M B :=
  fun st =>
    match m st with
    | (Ok a, st') => k a st'
    | (Raise e, st') => (Raise e, st')
    end.

(** [try: m except <those of handles>: h] *)
Definition try_except {A} (m : M A) (handles : exn -> bool) (h : M A) : M A :=
  fun st =>
    match m st with
    | (Raise e, st') => if handles e then h st' else (Raise e, st')
    | r => r
    end.

Definition lift {A} (r : result A) : M A := fun st => (r, st).

Definition get_fs : M node := fun st => (Ok (fs st), st).

Definition set_fs (t : node) : M unit :=
  fun st => (Ok tt, {| fs := t; spawned := spawned st; setups := setups st |}).

(** Start a child and wait for it. *)
Definition spawn (h : host) (argv : list str) : M str :=
  fun st =>
    let '(r, t) := child h argv (fs st) in
    (r, {| fs := t; spawned := spawned st ++ [argv]; setups := setups st |}).

(** [setup(...)] *)
Definition setup (h : host) (call : setup_call) : M unit :=
  fun st =>
    let '(r, t) := setuptools h call (fs st) in
    (r, {| fs := t; spawned := spawned st; setups := setups st ++ [call] |}).

Definition get_platform (h : host) : str := system h.

Definition get_machinewidth (h : host) : Z :=
  if (maxsize h >? 2147483647)%Z then 64%Z else 32%Z.

End Host.

Import Host.

#[global] Instance M_ret : MRet M := @Host.ret.
#[global] Instance M_bind : MBind M := fun A B k m => Host.bind m k.

(** ** The tool locator: [find_swig] and [is_supported_swig_version] *)

Module Swig.

(** "SWIG Version ([\d\.]+)" *)
Definition digit_or_dot (c : ascii) : bool := is_digit c || Ascii.eqb c ".".

Definition rx_swig_version : regex :=
  Seq (Lits "SWIG Version ") (Group 1 (Plus (Class digit_or_dot))).

Definition minimum_version : list N := [3; 0; 12]%N.

(** [except (subprocess.CalledProcessError, FileNotFoundError)] *)
Definition probe_failed (e : exn) : bool :=
  match e with
  | CalledProcessError | FileNotFoundError => true
  | _ => false
  end.

(** What follows the [try] statement, on the output of the child. *)
Definition version_ok (output : str) : result bool :=
  match re_search rx_swig_version output with
  | None => Ok false
  | Some res =>
      t ← map_int (split "." (fmt_s (group res 1)));
      if tuple_lt t minimum_version then Ok false else Ok true
  end.

Definition is_supported_swig_version (h : host) (swig_executable : option str)
    : M bool :=
  match swig_executable with
  | None => mret false
  | Some exe =>
      r ← try_except
            (output ← spawn h [exe; ("-version" : str)]; mret (Some output))
            probe_failed
            (mret None);
      match r with
      | None => mret false
      | Some output => lift (version_ok output)
      end
  end.

(** The loop of [BuildSupport.find_swig] over its candidates. *)
Fixpoint find_swig_in (h : host) (candidates : list str) : M (option str) :=
  match candidates with
  | [] => raise RuntimeError
  | candidate :: rest =>
      let swig_executable := which h candidate in
      ok ← is_supported_swig_version h swig_executable;
      if ok : bool then mret swig_executable else find_swig_in h rest
  end.

Definition find_swig (h : host) : M (option str) :=
  find_swig_in h ["swig4.0" : str; "swig" : str].

End Swig.

Import Swig.

(** ** The build-support classes

    One record stands for an instance together with the class attributes
    it reaches.  The lists the methods append to are attributes of the
    class, shared by all instances; a run creates one instance, so passing
    the record along is the same as updating the lists in place.
    [os.path] is [posixpath] throughout. *)

Module Build.

Inductive build_class := BuildSupportWindows | BuildSupportLinux.

Record BuildSupport := {
  class_of : build_class;
  RootDevDir : str;
  SwigExe : option str;
  SwigOptions : list str;
  LibraryDirs : list str;
  DefineMacros : list (str * option str);
  ExtraCompileArgs : list str;
  ExtraLinkArgs : list str;
  RuntimeFiles : gmap str (list (str * str));
  RuntimeFolders : gmap str (list (str * str));
  msvc_ver : list N
}.

(** *** Constants of [BuildSupport] *)

(** The dictionary literal in the definition of [BinPath]. *)
Definition BinPath_table : gmap (str * Z) str :=
  list_to_map
    [(("Windows" : str, 32%Z), "Win32" : str);
     (("Windows" : str, 64%Z), "x64" : str);
     (("Linux" : str, 32%Z), "lib" : str);
     (("Linux" : str, 64%Z), "lib64" : str);
     (("Darwin" : str, 64%Z), "lib64" : str)].

(** [BinPath], computed when the class body runs: the subscript raises
    [KeyError] for a pair that is not a key. *)
Definition BinPath (h : host) : result str :=
  let key := (get_platform h, get_machinewidth h) in
  match BinPath_table !! key with
  | Some dir => Ok dir
  | None => Raise (KeyErrorPair key)
  end.

Definition SwigVersions : list str := ["4.0.0" : str].

Definition SwigOptions0 : list str :=
  ["-Wextra" : str; "-Wall" : str; "-threads" : str].

Definition GeneratedDir : str := path_join "." "generated".

Definition PackageDir : str := path_join "." "FAI_python".

Definition RuntimeDefaultDeploy : gset str :=
  {[ "base" : str; "genicam" : str; "libpol" : str; "libDemosaic" : str ]}.

(** [BuildSupport.__init__]: what it leaves in [SwigOptions]. *)
Definition base_SwigOptions (h : host) : list str :=
  SwigOptions0 ++ (if (python_major h =? 3)%N then ["-py3" : str] else []).

(** *** Tables of [BuildSupportWindows] *)

Module Windows.

Definition RuntimeFiles : gmap str (list (str * str)) :=
  list_to_map
    [("base" : str,
      [("FAI_c.dll" : str, "" : str);
       ("facamera.dll" : str, "" : str);
       ("image.dll" : str, "" : str);
       ("libusbK.dll" : str, "" : str);
       ("opencv_world455.dll" : str, "" : str);
       ("lsc_calibrate.dll" : str, "" : str);
       ("libLSC.dll" : str, "" : str)]);
     ("genicam" : str,
      [("dll" : str, "" : str);
       ("dll" : str, "" : str);
       ("CLAllSerial_MD_*.dll" : str, "" : str);
       ("CLProtocol_MD_*.dll" : str, "" : str);
       ("FirmwareUpdate_MD_*.dll" : str, "" : str);
       ("GCBase_MD_*.dll" : str, "" : str);
       ("GenApiJava_MD_*.dll" : str, "" : str);
       ("GenApi_MD_*.dll" : str, "" : str);
       ("GenCP_MD_*.dll" : str, "" : str);
       ("GenTLJava_MD_*.dll" : str, "" : str);
       ("log4cpp_MD_*.dll" : str, "" : str);
       ("Log_MD_*.dll" : str, "" : str);
       ("MathParser_MD_*.dll" : str, "" : str);
       ("NodeMapData_MD_*.dll" : str, "" : str);
       ("XmlParser_MD_*.dll" : str, "" : str)]);
     ("libpol" : str, [("libpol.dll" : str, "" : str)]);
     ("libDemosaic" : str, [("libDemosaic.dll" : str, "" : str)])].

Definition DefineMacros : list (str * option str) :=
  [("UNICODE" : str, None);
   ("_UNICODE" : str, None);
   ("_MSC_VER" : str, None);
   ("CAMERA_EXPORTS" : str, None);
   ("FA_GENAPI_C_EXPORTS" : str, None)].

Definition ExtraCompileArgs : list str :=
  ["/Gy" : str; "/GL" : str; "/EHsc" : str].

Definition ExtraLinkArgs : list str :=
  ["/OPT:REF" : str; "/OPT:ICF" : str; "/LTCG" : str].

End Windows.

(** *** Tables of [BuildSupportLinux] *)

Module Linux.

Definition ExtraCompileArgs : list str :=
  ["-Wno-unknown-pragmas" : str; "-fPIC" : str; "-g0" : str;
   "-Wall" : str; "-O3" : str; "-Wno-switch" : str].

Definition ExtraLinkArgs : list str :=
  ["-g0" : str; "-Wl,--enable-new-dtags" : str; "-Wl,-rpath,$ORIGIN" : str].

Definition RuntimeFiles : gmap str (list (str * str)) :=
  list_to_map
    [("base" : str,
      [("libfacamera.so.*" : str, "" : str);
       ("libcamera_u3v.so.*" : str, "" : str);
       ("libfa_genapi_c.so.*" : str, "" : str);
       ("libimage.so.*" : str, "" : str);
       ("libfacamera_c.so.*" : str, "" : str)]);
     ("genicam" : str,
      [("libCLAllSerial_*.so" : str, "" : str);
       ("libGCBase_*.so" : str, "" : str);
       ("libLog_*.so" : str, "" : str);
       ("libXmlParser_*.so" : str, "" : str);
       ("libCLProtocol_*.so" : str, "" : str);
       ("libGenApi_*.so" : str, "" : str);
       ("libMathParser_*.so" : str, "" : str);
       ("libFirmwareUpdate_*.so" : str, "" : str);
       ("liblog4cpp_*.so" : str, "" : str);
       ("libNodeMapData_*.so" : str, "" : str)]);
     ("libpol" : str, [("liblibpol.so.2.0.0" : str, "" : str)])].

End Linux.

(** *** Construction *)

(** [BuildSupportWindows.find_swig]: the usual install places first, then
    the search of the base class. *)
Definition windows_candidates (h : host) : list str :=
  prg ← omap (fun n : str => environ h !! n)
        ["PROGRAMFILES" : str; "PROGRAMFILES(X86)" : str; "PROGRAMW6432" : str];
  swig_version ← SwigVersions;
  [path_join (path_join prg ("swigwin-" ++ swig_version)) "swig.exe"].

Fixpoint find_swig_windows_in (h : host) (candidates : list str)
    : M (option str) :=
  match candidates with
  | [] => find_swig h
  | candidate :: rest =>
      ok ← is_supported_swig_version h (Some candidate);
      if ok : bool then mret (Some candidate) else find_swig_windows_in h rest
  end.

Definition find_swig_windows (h : host) : M (option str) :=
  find_swig_windows_in h (windows_candidates h).

(** "\s+(\d+(?:\.\d+)+)\s+" *)
Definition rx_msvc_version : regex :=
  Seq (Plus (Class is_space))
    (Seq (Group 1 (Seq (Plus digit) (Plus (Seq (Lit ".") (Plus digit)))))
       (Plus (Class is_space))).

(** [except Exception] lets [SystemExit] through. *)
Definition is_Exception (e : exn) : bool :=
  match e with SystemExit _ => false | _ => true end.

(** [_detect_msvc_ver]: the banner the compiler writes when started
    without arguments; any failure leaves the banner empty. *)
Definition detect_msvc_ver (h : host) : M (list N) :=
  stderr ← match msvc_cc h with
           | Some cc => try_except (spawn h [cc]) is_Exception (mret [])
           | None => mret []
           end;
  match re_search rx_msvc_version stderr with
  | Some m => lift (map_int (split "." (fmt_s (group m 1))))
  | None => mret [16; 0]%N
  end.

(** The instance [BuildSupportWindows.__init__] leaves, once the code
    generator, the SDK root and the compiler version are known. *)
Definition windows_instance (h : host) (swig : option str) (root : str)
    (ver : list N) : BuildSupport :=
  {| class_of := BuildSupportWindows;
     RootDevDir := root;
     SwigExe := swig;
     SwigOptions :=
       base_SwigOptions h ++ ["-D_WIN32" : str]
       ++ (if (get_machinewidth h =? 32)%Z then [] else ["-D_WIN64" : str]);
     LibraryDirs := [path_join root "lib/x64"];
     DefineMacros := Windows.DefineMacros;
     ExtraCompileArgs :=
       (Windows.ExtraCompileArgs ++ ["/I" ++ path_join root "include"])
       ++ (if tuple_lt ver [19; 13]%N then [] else ["/permissive-" : str]);
     ExtraLinkArgs := Windows.ExtraLinkArgs;
     RuntimeFiles := Windows.RuntimeFiles;
     RuntimeFolders := ∅;
     msvc_ver := ver |}.

Definition BuildSupportWindows_init (h : host) : M BuildSupport :=
  swig ← find_swig_windows h;
  match environ h !! ("FAI_SDK_ROOT_PATH" : str) with
  | None | Some [] => raise OSError
  | Some root =>
      ver ← detect_msvc_ver h;
      mret (windows_instance h swig root ver)
  end.

(** The instance [BuildSupportLinux.__init__] leaves.  [RootDevDir] is
    read from the environment when the class body runs. *)
Definition linux_instance (h : host) (swig : option str) : BuildSupport :=
  let root := default (".." : str) (environ h !! ("FAI_SDK_ROOT_PATH" : str)) in
  {| class_of := BuildSupportLinux;
     RootDevDir := root;
     SwigExe := swig;
     SwigOptions :=
       base_SwigOptions h
       ++ ["-DSWIGWORDSIZE" ++ fmt_d (Z.to_N (get_machinewidth h))];
     LibraryDirs := [root; path_join root "lib/x64"];
     DefineMacros := [];
     ExtraCompileArgs :=
       Linux.ExtraCompileArgs
       ++ ["-I" ++ root; "-I" ++ path_join root "include"];
     ExtraLinkArgs :=
       Linux.ExtraLinkArgs
       ++ ["-L" ++ path_join root "lib/x64"; "-lrt" : str;
           "-lusb-1.0" : str; "-lfa_genapi_c" : str;
           "-lfacamera_c" : str; "-limage" : str;
           "-lGCBase_gcc48_v3_4" : str];
     RuntimeFiles := Linux.RuntimeFiles;
     RuntimeFolders := ∅;
     msvc_ver := [] |}.

Definition BuildSupportLinux_init (h : host) : M BuildSupport :=
  swig ← find_swig h; mret (linux_instance h swig).

(** [BuildSupport.make]: [error] is [logging.error], which writes a
    message and returns; the function then ends without a [return], so its
    value is [None]. *)
Definition make (h : host) : M (option BuildSupport) :=
  if str_eqb (get_platform h) "Windows" then
    bs ← BuildSupportWindows_init h; mret (Some bs)
  else if str_eqb (get_platform h) "Linux" then
    bs ← BuildSupportLinux_init h; mret (Some bs)
  else mret None.

End Build.

Import Build.

(** ** Library calls on the file system: [os], [glob], [shutil] *)

Module Lib.

Section WithHost.

Variable h : host.

(** [os.path.abspath(p)] *)
Definition abspath (p : str) : str := "/" ++ join "/" (resolve (cwd h) p).

Definition node_at (t : node) (p : str) : option node :=
  lookup t (resolve (cwd h) p).

(** [os.path.exists(p)].  A path that ends with a slash names a
    directory: where a regular file stands, nothing is found. *)
Definition exists_ (p : str) : M bool :=
  t ← get_fs;
  mret (match node_at t p with
        | Some (Dir _) => true
        | Some (File _) => negb (ends_with_slash p)
        | None => false
        end).

(** [os.path.isdir(p)] *)
Definition isdir (t : node) (p : str) : bool :=
  match node_at t p with
  | Some (Dir _) => true
  | _ => false
  end.

(** [os.makedirs(p)] *)
Definition makedirs (p : str) : M unit :=
  t ← get_fs;
  t' ← lift (makedirs_at t (resolve (cwd h) p));
  set_fs t'.

(** [shutil.rmtree(p, ignore_errors=True)] *)
Definition rmtree (p : str) : M unit :=
  t ← get_fs; set_fs (rmtree_ignore_errors t (resolve (cwd h) p)).

(** [os.listdir(p)] *)
Definition listdir (t : node) (p : str) : result (list str) :=
  match node_at t p with
  | Some (Dir es) => Ok (map fst es)
  | Some (File _) => Raise NotADirectoryError
  | None => Raise FileNotFoundError
  end.

(** [os.walk(top)], top down: for each directory its name, the
    directories in it and the files in it.  A [top] that is not a
    directory gives nothing. *)
Fixpoint walk_node (root : str) (t : node) : list (str * list str * list str) :=
  match t with
  | File _ => []
  | Dir es =>
      (root,
       map fst (List.filter (fun e : str * node => is_dir e.2) es),
       map fst (List.filter (fun e : str * node => negb (is_dir e.2)) es))
      :: (fix below (es : list (str * node)) :=
            match es with
            | [] => []
            | (n, t') :: es' => walk_node (path_join root n) t' ++ below es'
            end) es
  end.

Definition walk (t : node) (top : str) : list (str * list str * list str) :=
  match node_at t top with
  | Some d => walk_node top d
  | None => []
  end.

Fixpoint common_prefix_length (a b : list str) : nat :=
  match a, b with
  | x :: a', y :: b' =>
      if str_eqb x y then S (common_prefix_length a' b') else O
  | _, _ => O
  end.

(** [os.path.relpath(p, start)] *)
Definition relpath (p start : str) : str :=
  let start_list := resolve (cwd h) start in
  let path_list := resolve (cwd h) p in
  let i := common_prefix_length start_list path_list in
  match replicate (length start_list - i) (".." : str) ++ skipn i path_list with
  | [] => "."
  | rel_list => join "/" rel_list
  end.

(** *** [fnmatch] and [glob] *)

Inductive token :=
| TStar
| TAny
| TLit (c : ascii)
| TSet (negated : bool) (ranges : list (ascii * ascii)).

Fixpoint until_bracket (s : str) : option (str * str) :=
  match s with
  | [] => None
  | c :: s' =>
      if Ascii.eqb c "]" then Some ([], s')
      else match until_bracket s' with
           | Some (a, b) => Some (c :: a, b)
           | None => None
           end
  end.

(** The members of a bracket expression: [x-y] is a range, anything else
    stands for itself. *)
Fixpoint set_ranges (s : str) : list (ascii * ascii) :=
  match s with
  | [] => []
  | x :: tl =>
      match tl with
      | m :: y :: s' =>
          if Ascii.eqb m "-" then (x, y) :: set_ranges s'
          else (x, x) :: set_ranges tl
      | _ => (x, x) :: set_ranges tl
      end
  end.

(** The pattern as [fnmatch.translate] reads it. *)
Fixpoint tokens (fuel : nat) (pat : str) : list token :=
  match fuel, pat with
  | O, _ | _, [] => []
  | S fuel', c :: pat' =>
      if Ascii.eqb c "*" then TStar :: tokens fuel' pat'
      else if Ascii.eqb c "?" then TAny :: tokens fuel' pat'
      else if Ascii.eqb c "[" then
        let '(negated, q) :=
          match pat' with
          | x :: q => if Ascii.eqb x "!" then (true, q) else (false, pat')
          | [] => (false, pat')
          end in
        let '(first, q') :=
          match q with
          | x :: q' => if Ascii.eqb x "]" then ([x], q') else ([], q)
          | [] => ([], q)
          end in
        match until_bracket q' with
        | Some (stuff, rest) =>
            TSet negated (set_ranges (first ++ stuff)) :: tokens fuel' rest
        | None => TLit c :: tokens fuel' pat'
        end
      else TLit c :: tokens fuel' pat'
  end.

Definition in_ranges (x : ascii) (ranges : list (ascii * ascii)) : bool :=
  existsb (fun r : ascii * ascii => (code r.1 <=? code x)%N && (code x <=? code r.2)%N)
    ranges.

Fixpoint wild (pat : list token) (name : str) : bool :=
  match pat with
  | [] => match name with [] => true | _ => false end
  | TStar :: pat' =>
      (fix try (n : str) : bool :=
         wild pat' n || match n with [] => false | _ :: n' => try n' end) name
  | TAny :: pat' =>
      match name with _ :: n' => wild pat' n' | [] => false end
  | TLit c :: pat' =>
      match name with x :: n' => Ascii.eqb x c && wild pat' n' | [] => false end
  | TSet negated ranges :: pat' =>
      match name with
      | x :: n' => xorb negated (in_ranges x ranges) && wild pat' n'
      | [] => false
      end
  end.

(** [fnmatch.fnmatch(name, pat)] *)
Definition fnmatch (name pat : str) : bool :=
  wild (tokens (length pat) pat) name.

Definition has_magic (s : str) : bool :=
  existsb (fun c => Ascii.eqb c "*" || Ascii.eqb c "?" || Ascii.eqb c "[") s.

Definition is_hidden (s : str) : bool :=
  match s with c :: _ => Ascii.eqb c "." | [] => false end.

(** The names in directory [d] that match [pattern] ([glob._glob1] when
    the pattern has wildcards, [glob._glob0] when it has none). *)
Definition glob_in_dir (t : node) (d pattern : str) : list str :=
  if has_magic pattern then
    match node_at t d with
    | Some (Dir es) =>
        List.filter (fun n => fnmatch n pattern)
          (List.filter (fun n => is_hidden pattern || negb (is_hidden n))
             (map fst es))
    | _ => []
    end
  else if str_eqb pattern [] then
    (if isdir t d then [pattern] else [])
  else
    (if bool_decide (is_Some (node_at t (path_join d pattern)))
     then [pattern] else []).

(** [glob.glob(pathname)] for a path name with a directory part. *)
Fixpoint glob_fuel (fuel : nat) (t : node) (pathname : str) : list str :=
  match fuel with
  | O => []
  | S fuel' =>
      let d := dirname pathname in
      let b := basename pathname in
      if negb (has_magic pathname) then
        if str_eqb b [] then (if isdir t d then [pathname] else [])
        else if bool_decide (is_Some (node_at t pathname)) then [pathname]
        else []
      else
        let dirs :=
          if str_eqb d [] then [d]
          else if negb (str_eqb d pathname) && has_magic d
               then glob_fuel fuel' t d
               else [d] in
        d' ← dirs;
        name ← glob_in_dir t (if str_eqb d' [] then "." else d') b;
        [path_join d' name]
  end.

Definition glob (t : node) (pathname : str) : list str :=
  glob_fuel (S (length pathname)) t pathname.

(** [shutil.copy(src, dst)] *)
Definition copy (src dst : str) : M unit :=
  t ← get_fs;
  let dst := if isdir t dst then path_join dst (basename src) else dst in
  match node_at t src with
  | None => raise FileNotFoundError
  | Some (Dir _) => raise IsADirectoryError
  | Some (File data) =>
      if bool_decide (resolve (cwd h) src = resolve (cwd h) dst)
      then raise SameFileError
      else
        match node_at t dst with
        | Some (Dir _) => raise IsADirectoryError
        | _ =>
            t' ← lift (put t (resolve (cwd h) dst) (File data));
            set_fs t'
        end
  end.

(** [shutil.copytree(src, dst)] *)
Definition copytree (src dst : str) : M unit :=
  t ← get_fs;
  match node_at t src with
  | None => raise FileNotFoundError
  | Some (File _) => raise NotADirectoryError
  | Some (Dir es) =>
      _ ← makedirs dst;
      t' ← get_fs;
      set_fs (alter_at (fun _ => Dir es) t' (resolve (cwd h) dst))
  end.

(** [open(p, "a")] followed by a write of [text] and [close]. *)
Definition append_file (p : str) (text : str) : M unit :=
  t ← get_fs;
  match node_at t p with
  | Some (Dir _) => raise IsADirectoryError
  | Some (File data) =>
      t' ← lift (put t (resolve (cwd h) p) (File (data ++ text))); set_fs t'
  | None =>
      t' ← lift (put t (resolve (cwd h) p) (File text)); set_fs t'
  end.

End WithHost.

End Lib.

Import Lib.

(** ** Methods of the build-support classes *)

Module Methods.

Section WithHost.

Variable h : host.

(** [for x in xs: body(x)] *)
Fixpoint for_each {A} (xs : list A) (body : A -> M unit) : M unit :=
  match xs with
  | [] => mret tt
  | x :: xs' => _ ← body x; for_each xs' body
  end.

Definition starts_with (prefix s : str) : bool :=
  bool_decide (firstn (length prefix) s = prefix).

Definition get_swig_includes (bs : BuildSupport) : list str :=
  match class_of bs with
  | BuildSupportWindows => [path_join (RootDevDir bs) "include"]
  | BuildSupportLinux =>
      map (skipn 2) (List.filter (fun i : str => starts_with "-I" i) (ExtraCompileArgs bs))
  end.

(** [l.remove(x)] inside [try: ... except ValueError: pass]: the first
    [x] goes, if there is one. *)
Fixpoint remove_first (x : str) (l : list str) : list str :=
  match l with
  | [] => []
  | y :: l' => if str_eqb y x then l' else y :: remove_first x l'
  end.

Definition with_flags (bs : BuildSupport) (compile link : list str)
    : BuildSupport :=
  {| class_of := class_of bs;
     RootDevDir := RootDevDir bs;
     SwigExe := SwigExe bs;
     SwigOptions := SwigOptions bs;
     LibraryDirs := LibraryDirs bs;
     DefineMacros := DefineMacros bs;
     ExtraCompileArgs := compile;
     ExtraLinkArgs := link;
     RuntimeFiles := RuntimeFiles bs;
     RuntimeFolders := RuntimeFolders bs;
     msvc_ver := msvc_ver bs |}.

Definition use_debug_configuration (bs : BuildSupport) : BuildSupport :=
  match class_of bs with
  | BuildSupportWindows =>
      with_flags bs
        (ExtraCompileArgs bs ++ ["/Od" : str; "/Zi" : str])
        (ExtraLinkArgs bs ++ ["/DEBUG" : str])
  | BuildSupportLinux =>
      with_flags bs
        (remove_first "-g0" (remove_first "-O3" (ExtraCompileArgs bs))
         ++ ["-O0" : str; "-g3" : str])
        (remove_first "-g0" (ExtraLinkArgs bs) ++ ["-g3" : str])
  end.

(** [BuildSupport.clean] *)
Definition clean (mode : str) (additional_dirs : option (list str)) : M unit :=
  if str_eqb mode "skip" then mret tt
  else
    let clean_dirs :=
      [GeneratedDir; PackageDir] ++ default [] additional_dirs in
    _ ← for_each clean_dirs (fun cdir => rmtree h cdir);
    if str_eqb mode "keep" then
      _ ← makedirs h GeneratedDir; makedirs h PackageDir
    else mret tt.

(** [BuildSupport.get_package_data_files] *)
Definition files_below (t : node) (jentry : str) : list str :=
  '(root, _, fnames) ← walk h t jentry;
  fname ← fnames;
  [relpath h (path_join root fname) PackageDir].

Fixpoint data_files_of (t : node) (pdir : str) (entries : list str)
    : result (list str) :=
  match entries with
  | [] => Ok []
  | entry :: rest =>
      let jentry := path_join pdir entry in
      match node_at h t jentry with
      | None => Raise FileNotFoundError
      | Some n =>
          more ← data_files_of t pdir rest;
          Ok ((if is_dir n then files_below t jentry else []) ++ more)
      end
  end.

Definition package_globs : list str :=
  ["*.dll" : str; "*.zip" : str; "*.so" : str; "*.so.*" : str].

Definition get_package_data_files : M (list str) :=
  t ← get_fs;
  entries ← lift (listdir h t PackageDir);
  found ← lift (data_files_of t PackageDir entries);
  mret (package_globs ++ found).

(** The inner loop shared by the two [copy_runtime]: one entry of a
    manifest. *)
Definition copy_matching (src_pattern dst : str) : M unit :=
  present ← exists_ h dst;
  _ ← (if present : bool then mret tt else makedirs h dst);
  t ← get_fs;
  for_each (glob h t src_pattern) (fun f => copy h f dst).

Definition manifest_of (bs : BuildSupport) (package : str)
    : M (list (str * str)) :=
  match RuntimeFiles bs !! package with
  | Some entries => mret entries
  | None => raise (KeyError package)
  end.

(** [BuildSupport.copy_runtime] *)
Definition copy_runtime_base (bs : BuildSupport) : M unit :=
  let runtime_dir := path_join (RootDevDir bs) "lib/x64" in
  let package_dir := abspath h PackageDir in
  for_each (set_order h) (fun package =>
    entries ← manifest_of bs package;
    _ ← for_each entries (fun e : str * str =>
          copy_matching (path_join runtime_dir e.1) (path_join package_dir e.2));
    match RuntimeFolders bs !! package with
    | Some folders =>
        for_each folders (fun e : str * str =>
          let dst := path_join package_dir e.2 in
          let src := path_join runtime_dir e.1 in
          _ ← rmtree h dst; copytree h src dst)
    | None => mret tt
    end).

(** [BuildSupportLinux.copy_runtime] *)
Definition copy_runtime_linux (bs : BuildSupport) : M unit :=
  let runtime_dir := RootDevDir bs ++ "/lib" in
  for_each (set_order h) (fun package =>
    entries ← manifest_of bs package;
    for_each entries (fun e : str * str =>
      copy_matching (path_join runtime_dir e.1)
        (abspath h (path_join PackageDir e.2)))).

Definition environ_item (name : str) : M str :=
  match environ h !! name with
  | Some v => mret v
  | None => raise (KeyError name)
  end.

(** [BuildSupportWindows.copy_runtime] *)
Definition copy_runtime_windows (bs : BuildSupport) : M unit :=
  _ ← copy_runtime_base bs;
  arch ← environ_item "PROCESSOR_ARCHITECTURE";
  let os_bits : Z :=
    if str_eqb arch "x86" then
      match environ h !! ("PROCESSOR_ARCHITEW6432" : str) with
      | None | Some [] => 32%Z
      | Some _ => 64%Z
      end
    else 64%Z in
  let tgt_bits := get_machinewidth h in
  let runtime_dlls :=
    ["vcruntime140.dll" : str; "msvcp140.dll" : str]
    ++ (if (tgt_bits =? 64)%Z && negb (tuple_lt (msvc_ver bs) [19; 20]%N)
        then ["vcruntime140_1.dll" : str] else []) in
  let sysname : str :=
    if (tgt_bits =? 64)%Z || (os_bits =? 32)%Z then "System32" else "SysWOW64" in
  windir ← environ_item "windir";
  let sysdir := path_join windir sysname in
  for_each runtime_dlls (fun dll => copy h (path_join sysdir dll) PackageDir).

Definition copy_runtime (bs : BuildSupport) : M unit :=
  match class_of bs with
  | BuildSupportWindows => copy_runtime_windows bs
  | BuildSupportLinux => copy_runtime_linux bs
  end.

(** [BuildSupport.get_version] *)
Definition git_describe : list str :=
  ["git" : str; "describe" : str; "--tags" : str; "--dirty" : str].

Definition get_version : M str :=
  fun st =>
    let '(git, st') := spawn h git_describe st in
    (get_git_version git (clock h), st').

(** [os.path.splitext(p)[0]] *)
Fixpoint last_dot (s : str) : option nat :=
  match s with
  | [] => None
  | c :: s' =>
      match last_dot s' with
      | Some i => Some (S i)
      | None => if Ascii.eqb c "." then Some O else None
      end
  end.

Fixpoint leading_dots (s : str) : nat :=
  match s with
  | c :: s' => if Ascii.eqb c "." then S (leading_dots s') else O
  | [] => O
  end.

Definition splitext_root (p : str) : str :=
  let base := basename p in
  let lead := leading_dots base in
  match last_dot (skipn lead base) with
  | Some i => firstn (length p - length base + lead + i) p
  | None => p
  end.

Definition with_SwigOptions (bs : BuildSupport) (options : list str)
    : BuildSupport :=
  {| class_of := class_of bs;
     RootDevDir := RootDevDir bs;
     SwigExe := SwigExe bs;
     SwigOptions := options;
     LibraryDirs := LibraryDirs bs;
     DefineMacros := DefineMacros bs;
     ExtraCompileArgs := ExtraCompileArgs bs;
     ExtraLinkArgs := ExtraLinkArgs bs;
     RuntimeFiles := RuntimeFiles bs;
     RuntimeFolders := RuntimeFolders bs;
     msvc_ver := msvc_ver bs |}.

(** [BuildSupport.call_swig]: the name of the generated source, and the
    instance with the include options added. *)
Definition call_swig (bs : BuildSupport) (sourcedir source version : str)
    (skip : bool) : M (str * BuildSupport) :=
  let name := splitext_root source in
  let cpp_name := abspath h (path_join GeneratedDir (name ++ "_wrap.c")) in
  if skip then mret (cpp_name, bs)
  else
    let outdir := abspath h PackageDir in
    let bs' :=
      with_SwigOptions bs
        (SwigOptions bs ++ map (fun inc => "-I" ++ inc) (get_swig_includes bs)) in
    match SwigExe bs' with
    | None => raise TypeError
    | Some exe =>
        let call_args :=
          [exe; "-python" : str; "-outdir" : str; outdir; "-o" : str; cpp_name]
          ++ SwigOptions bs' ++ [source] in
        _ ← spawn h call_args;
        _ ← append_file h (path_join outdir (name ++ ".py"))
              ("
__version__ = '" ++ version ++ "'
");
        _ ← append_file h (path_join PackageDir "__init__.py") [];
        mret (cpp_name, bs')
    end.

End WithHost.

End Methods.

Import Methods.

(** ** The entry point: the body of [if __name__ == "__main__"] *)

Module Main.

(** The command line after [parser.parse_known_args()]: the options the
    script knows, and what is left for [setup]. *)
Record arguments := {
  pp_version : option str;        (* None: not given, the default holds *)
  pp_debug : bool;
  swig_only : bool;
  skip_swig : bool;
  rebuild_doxygen : bool;
  generate_python_doc : bool;
  remainder : list str
}.

Section WithHost.

Variable h : host.

(** [subprocess.call(cmd)]: the exit status is not looked at. *)
Definition call (cmd : str) : M unit :=
  try_except (_ ← spawn h [cmd]; mret tt)
    (fun e => match e with CalledProcessError => true | _ => false end)
    (mret tt).

Definition fai_python_ext (bs : BuildSupport) (fai_python_src : str)
    : Extension :=
  {| ext_name := "FAI_python._FAI_python";
     sources := [fai_python_src];
     library_dirs := LibraryDirs bs;
     libraries := ["FAI_c" : str];
     extra_compile_args := ExtraCompileArgs bs;
     extra_link_args := ExtraLinkArgs bs |}.

(** What follows the [clean] branch. *)
Definition build (a : arguments) (bs : BuildSupport) (version : str)
    (help_mode : bool) : M unit :=
  _ ← (if negb help_mode && rebuild_doxygen a
       then call "python scripts/builddoxy2swig/builddoxygen.py"
       else mret tt);
  if help_mode then
    (* [fai_python_src] was never assigned *)
    raise (NameError "fai_python_src")
  else
    _ ← clean h (if skip_swig a then "skip" else "keep") None;
    r ← call_swig h bs "." "FAI_python.i" version (skip_swig a);
    let fai_python_src := r.1 in
    let bs := r.2 in
    if swig_only a then raise (SystemExit 0)
    else
      _ ← copy_runtime h bs;
      let ext := fai_python_ext bs fai_python_src in
      package_data_files ← get_package_data_files h;
      _ ← setup h
            {| name := "FAI_python";
               version := version;
               author := [];
               description := "The python wrapper for the FA SDK.";
               ext_modules := [ext];
               packages := ["FAI_python" : str];
               package_data := [("FAI_python" : str, package_data_files)] |};
      if generate_python_doc a
      then call "python scripts/generatedoc/generatedoc.py"
      else mret tt.

(** From the instance on: the options, the debug switch, [clean]. *)
Definition run (a : arguments) (bs : BuildSupport) : M unit :=
  default_version ← get_version h;
  let help_mode :=
    contains "-h" (remainder a) || contains "--help" (remainder a) in
  let bs := if pp_debug a then use_debug_configuration bs else bs in
  let version :=
    default default_version (pp_version a)
    ++ (if pp_debug a then "_dbg" : str else []) in
  if contains "clean" (remainder a) then
    _ ← clean h "std"
          (Some ["build" : str; "FAI_python.egg-info" : str; "dist" : str]);
    raise (SystemExit 0)
  else build a bs version help_mode.

(** The whole script.  The class body of [BuildSupport] computes
    [BinPath] before anything else runs; [bs.dump()] on [None] is an
    [AttributeError]. *)
Definition main (a : arguments) : M unit :=
  _ ← lift (BinPath h);
  made ← make h;
  match made with
  | None => raise AttributeError
  | Some bs => run a bs
  end.

End WithHost.

End Main.

Import Main.

(** ** Vocabulary of the properties *)

(** *** A declarative reading of the patterns *)

Module ReSpec.

(** [Match n0 r s c c' s']: [r] can match at the front of [s], going from
    the groups [c] to [c'] and leaving [s']. *)
Inductive Match (n0 : nat) : regex -> str -> caps -> caps -> str -> Prop :=
| MEps s c : Match n0 Eps s c c s
| MBol s c : length s = n0 -> Match n0 Bol s c c s
| MDollarEnd c : Match n0 Dollar [] c c []
| MDollarNl c : Match n0 Dollar ["010"%char] c c ["010"%char]
| MLit a s c : Match n0 (Lit a) (a :: s) c c s
| MClass p x s c : p x = true -> Match n0 (Class p) (x :: s) c c s
| MSeq r1 r2 s c c1 s1 c2 s2 :
    Match n0 r1 s c c1 s1 -> Match n0 r2 s1 c1 c2 s2 ->
    Match n0 (Seq r1 r2) s c c2 s2
| MAltL r1 r2 s c c' s' : Match n0 r1 s c c' s' -> Match n0 (Alt r1 r2) s c c' s'
| MAltR r1 r2 s c c' s' : Match n0 r2 s c c' s' -> Match n0 (Alt r1 r2) s c c' s'
| MOptTake r s c c' s' : Match n0 r s c c' s' -> Match n0 (Opt r) s c c' s'
| MOptSkip r s c : Match n0 (Opt r) s c c s
| MStarStop r s c : Match n0 (Star r) s c c s
| MStarStep r s c c1 s1 c2 s2 :
    Match n0 r s c c1 s1 -> (length s1 < length s)%nat ->
    Match n0 (Star r) s1 c1 c2 s2 ->
    Match n0 (Star r) s c c2 s2
| MGroup k r s c c' s' :
    Match n0 r s c c' s' ->
    Match n0 (Group k r) s c (<[k := firstn (length s - length s') s]> c') s'.


(** The characters a pattern can consume. *)
Fixpoint chars_in (P : ascii -> Prop) (r : regex) : Prop :=
  match r with
  | Eps | Bol | Dollar => True
  | Lit a => P a
  | Class p => forall x, p x = true -> P x
  | Seq r1 r2 | Alt r1 r2 => chars_in P r1 /\ chars_in P r2
  | Opt r | Star r | Group _ r => chars_in P r
  end.

(** A pattern without groups. *)
Fixpoint group_free (r : regex) : Prop :=
  match r with
  | Eps | Bol | Dollar | Lit _ | Class _ => True
  | Seq r1 r2 | Alt r1 r2 => group_free r1 /\ group_free r2
  | Opt r | Star r => group_free r
  | Group _ _ => False
  end.

(** The first character of what is left, if any, is not one of [P]. *)
Definition stops (P : ascii -> Prop) (s : str) : Prop :=
  match s with
  | [] => True
  | x :: _ => ~ P x
  end.

End ReSpec.

(** *** Shapes of version strings *)

Module Shape.

Definition digit_run (s : str) : Prop := Forall (fun c => is_digit c = true) s.

(** One or more decimal digits. *)
Definition digits (s : str) : Prop := s <> [] /\ digit_run s.

(** No more characters than [int] reads. *)
Definition within_limit (s : str) : Prop :=
  (N.of_nat (length s) <= int_max_str_digits)%N.

(** One or more of [0-9a-f]. *)
Definition lower_hex_digits (s : str) : Prop :=
  s <> [] /\ Forall (fun c => lower_hex c = true) s.

(** White space, as [git] ends its output with a line break. *)
Definition blanks (s : str) : Prop := Forall (fun c => is_space c = true) s.

(** The pre-release suffix: none, or [a], [b] or [rc] and digits. *)
Inductive pre_release : str -> Prop :=
| pre_none : pre_release []
| pre_a ds : digit_run ds -> pre_release ("a" ++ ds)
| pre_b ds : digit_run ds -> pre_release ("b" ++ ds)
| pre_rc ds : digit_run ds -> pre_release ("rc" ++ ds).

(** An exact release tag: three or four numbers with dots between them,
    and maybe a pre-release suffix. *)
Inductive release_tag : str -> Prop :=
| release_3 a b c p :
    digits a -> digits b -> digits c -> pre_release p ->
    release_tag (a ++ "." ++ b ++ "." ++ c ++ p)
| release_4 a b c d p :
    digits a -> digits b -> digits c -> digits d -> pre_release p ->
    release_tag (a ++ "." ++ b ++ "." ++ c ++ "." ++ d ++ p).

(** The characters of the version proper. *)
Definition core_char (x : ascii) : bool :=
  is_digit x || Ascii.eqb x "." || Ascii.eqb x "a" || Ascii.eqb x "b"
  || Ascii.eqb x "r" || Ascii.eqb x "c".

End Shape.

(** *** Outcomes of the constructors *)

Module Outcome.

(** What [make] does with the outcome of a constructor. *)
Definition made (r : result BuildSupport * state)
    : result (option BuildSupport) * state :=
  match r with
  | (Ok bs, st) => (Ok (Some bs), st)
  | (Raise e, st) => (Raise e, st)
  end.

(** The state after one child has run. *)
Definition spawned_one (st : state) (argv : list str) (t : node) : state :=
  {| fs := t; spawned := spawned st ++ [argv]; setups := setups st |}.



(** A step that calls [setup] not at all. *)
Definition setups_kept {A} (m : M A) : Prop :=
  forall st, setups (m st).2 = setups st.

(** What a call of [setup] was given: this version, and extensions
    compiled and linked with these flags. *)
Definition built_with (version : str) (compile link : list str)
    (call : setup_call) : Prop :=
  Setuptools.version call = version
  /\ Forall (fun e => extra_compile_args e = compile /\ extra_link_args e = link)
       (ext_modules call).

(** The call of [setup] in the script, for this version, this extension
    and these data files. *)
Definition setup_of (version : str) (ext : Extension) (files : list str)
    : setup_call :=
  {| name := "FAI_python";
     version := version;
     author := [];
     description := "The python wrapper for the FA SDK.";
     ext_modules := [ext];
     packages := ["FAI_python" : str];
     package_data := [("FAI_python" : str, files)] |}.

(** The rebuild of the sources of the documentation, when asked for. *)
Definition rebuild (h : host) (a : arguments) : M unit :=
  if rebuild_doxygen a
  then call h "python scripts/builddoxy2swig/builddoxygen.py"
  else mret tt.

(** The steps of a build before [setup], each ending normally in the
    state in which the next one begins: the rebuild of the
    documentation, [clean], [call_swig], which gives the name of the
    generated source and the instance, [copy_runtime] and
    [get_package_data_files], which gives the data files. *)
Definition steps_to_setup (h : host) (a : arguments) (bs : BuildSupport)
    (version : str) (st : state) (r : str * BuildSupport) (files : list str)
    : Prop :=
  exists s1 s2 s3 s4 s5,
    rebuild h a st = (Ok tt, s1)
    /\ clean h (if skip_swig a then "skip" else "keep") None s1 = (Ok tt, s2)
    /\ call_swig h bs "." "FAI_python.i" version (skip_swig a) s2 = (Ok r, s3)
    /\ copy_runtime h r.2 s3 = (Ok tt, s4)
    /\ get_package_data_files h s4 = (Ok files, s5).

(** [-h] or [--help] is among the arguments left for [setup]. *)
Definition help_mode (a : arguments) : bool :=
  contains "-h" (remainder a) || contains "--help" (remainder a).

(** The version of a run whose query of the version gave [dv]. *)
Definition version_of (a : arguments) (dv : str) : str :=
  default dv (pp_version a) ++ (if pp_debug a then "_dbg" : str else []).

End Outcome.

(** *** States of the file system *)

Module Tree.

(** Take the entry [n] out of a directory. *)
Definition unlink (n : str) (d : node) : node :=
  match d with
  | Dir es => Dir (del_entry n es)
  | File _ => d
  end.

(** What [rmtree] with [ignore_errors] leaves of an entry: a directory
    goes, a regular file stays. *)
Definition cleared (x : option node) : option node :=
  match x with
  | Some (Dir _) => None
  | _ => x
  end.

Definition plain_file (x : option node) : Prop :=
  match x with
  | Some (File _) => True
  | _ => False
  end.

Definition with_fs (st : state) (t : node) : state :=
  {| fs := t; spawned := spawned st; setups := setups st |}.

(** A name a directory entry can have. *)
Definition legal_name (n : str) : Prop :=
  n <> [] /\ n <> "." /\ n <> ".." /\ ~ In "/"%char n.

(** A tree all of whose entries have such names. *)
Inductive legal : node -> Prop :=
| legal_file data : legal (File data)
| legal_dir es :
    (forall n t, In (n, t) es -> legal_name n) ->
    (forall n t, In (n, t) es -> legal t) ->
    legal (Dir es).

(** A path name that is not empty and does not end with a slash. *)
Definition plain (p : str) : Prop := p <> [] /\ ends_with_slash p = false.

(** The part of [os.walk] that goes into the sub-directories. *)
Fixpoint below (root : str) (es : list (str * node))
    (walk_node : str -> node -> list (str * list str * list str))
    : list (str * list str * list str) :=
  match es with
  | [] => []
  | e :: es' => walk_node (path_join root e.1) e.2 ++ below root es' walk_node
  end.

(** The paths the [clean] command removes. *)
Definition clean_paths : list str :=
  [GeneratedDir; PackageDir; "build" : str; "FAI_python.egg-info" : str;
   "dist" : str].

End Tree.

(** *** Concrete surroundings for the examples *)

Module Example.

Definition clock0 : datetime :=
  {| year := 2024; month := 3; day := 7;
     hour := 1; minute := 2; second := 3; microsecond := 999 |}.

(** A host on which no program is installed and every child fails to
    start. *)
Definition bare_host (sys : str) (maxsz : Z) (order : list str) : host :=
  {| system := sys;
     maxsize := maxsz;
     python_major := 3;
     environ := ∅;
     cwd := ["work" : str; "x64" : str];
     which := fun _ => None;
     child := fun _ t => (Raise FileNotFoundError, t);
     msvc_cc := None;
     setuptools := fun _ t => (Ok tt, t);
     set_order := order;
     clock := clock0 |}.

(** The line break that ends the output of a child. *)
Definition nl : str := ["010"%char].

Definition no_arguments : arguments :=
  {| pp_version := None; pp_debug := false; swig_only := false;
     skip_swig := false; rebuild_doxygen := false;
     generate_python_doc := false; remainder := [] |}.

Definition clean_arguments : arguments :=
  {| pp_version := None; pp_debug := false; swig_only := false;
     skip_swig := false; rebuild_doxygen := false;
     generate_python_doc := false; remainder := ["clean" : str] |}.

Definition linux64 : host := bare_host "Linux" 9223372036854775807 [].

(** A working directory [/work/x64] after a build. *)
Definition package_tree : node :=
  Dir [("__init__.py" : str, File []);
       ("FAI_python.py" : str, File "import _FAI_python");
       ("genicam" : str,
        Dir [("cache.xml" : str, File "<x/>");
             ("log" : str, Dir [("config.properties" : str, File "level=3")])])].

Definition tree0 : node :=
  Dir [("work" : str,
        Dir [("x64" : str,
              Dir [("setup.py" : str, File "#!/usr/bin/env python");
                   ("generated" : str,
                    Dir [("FAI_python_wrap.c" : str, File "/* swig */")]);
                   ("FAI_python" : str, package_tree);
                   ("build" : str, Dir [("lib" : str, Dir [])])])])].

(** A Windows host with the SDK and the C runtime in place. *)
Definition windows64 : host :=
  {| system := "Windows";
     maxsize := 9223372036854775807;
     python_major := 3;
     environ :=
       list_to_map
         [("FAI_SDK_ROOT_PATH" : str, "/sdk" : str);
          ("PROCESSOR_ARCHITECTURE" : str, "AMD64" : str);
          ("windir" : str, "/windows" : str)];
     cwd := ["work" : str; "x64" : str];
     which := fun _ => None;
     child := fun _ t => (Raise FileNotFoundError, t);
     msvc_cc := None;
     setuptools := fun _ t => (Ok tt, t);
     set_order := ["libpol" : str; "base" : str; "libDemosaic" : str; "genicam" : str];
     clock := clock0 |}.

Definition windows_tree : node :=
  Dir [("work" : str,
        Dir [("x64" : str,
              Dir [("generated" : str,
                    Dir [("FAI_python_wrap.c" : str, File "/* swig */")]);
                   ("FAI_python" : str, package_tree)])]);
       ("sdk" : str,
        Dir [("lib" : str,
              Dir [("x64" : str,
                    Dir [("FAI_c.dll" : str, File "MZ1");
                         ("GCBase_MD_VC141_v3_1.dll" : str, File "MZ2")])])]);
       ("windows" : str,
        Dir [("System32" : str,
              Dir [("vcruntime140.dll" : str, File "MZ3");
                   ("msvcp140.dll" : str, File "MZ4");
                   ("vcruntime140_1.dll" : str, File "MZ5")])])].

(** [--pp-version 1.0 --pp-debug --skip-swig build_ext] *)
Definition debug_arguments : arguments :=
  {| pp_version := Some ("1.0" : str); pp_debug := true; swig_only := false;
     skip_swig := true; rebuild_doxygen := false;
     generate_python_doc := false; remainder := ["build_ext" : str] |}.

(** The SDK next to the working directory, as the default [RootDevDir]
    [..] expects it. *)
Definition linux_tree : node :=
  Dir [("work" : str,
        Dir [("lib" : str,
              Dir [("libfacamera.so.1" : str, File "ELF1");
                   ("libfacamera.so.2" : str, File "ELF2");
                   ("libGCBase_gcc48_v3_4.so" : str, File "ELF3")]);
             ("x64" : str,
              Dir [("FAI_python" : str, Dir [("__init__.py" : str, File [])])])])].

(** Two of the orders in which the set [RuntimeDefaultDeploy] may be
    iterated. *)
Definition demosaic_first : list str :=
  ["libDemosaic" : str; "base" : str; "genicam" : str; "libpol" : str].

Definition demosaic_last : list str :=
  ["base" : str; "genicam" : str; "libpol" : str; "libDemosaic" : str].

Definition linux_profile (order : list str) : BuildSupport :=
  linux_instance (bare_host "Linux" 9223372036854775807 order)
    (Some ("/usr/bin/swig" : str)).

Definition windows_profile : BuildSupport :=
  windows_instance windows64 (Some ("swig.exe" : str)) "/sdk" [19; 29]%N.

Definition state_of (t : node) : state :=
  {| fs := t; spawned := []; setups := [] |}.

End Example.

(** ** Further definitions: the short version, example hosts and the vocabulary of the later theorems *)

(** *** Local version labels *)

Module Label.

(** A local version label: one of [a-zA-Z0-9], then any of [a-zA-Z0-9.]. *)
Definition local_label (l : str) : Prop :=
  match l with
  | x :: w => alnum x = true /\ Forall (fun c => alnum_dot c = true) w
  | [] => False
  end.

End Label.

(** *** [BuildSupport.get_short_version] *)

Module ShortVersion.

(** [BuildSupport.get_short_version]: [version.split('+')[0]].  [str.split]
    gives at least one piece, so the subscript cannot fail. *)
Definition get_short_version (version : str) : str :=
  match split "+" version with
  | short :: _ => short
  | [] => []
  end.

End ShortVersion.

(** *** Further surroundings for the examples *)

Module Cases.

Import Example.


(** What [swig -version] prints. *)
Definition swig_banner : str :=
  nl ++ "SWIG Version 4.0.2" ++ nl ++ nl
  ++ "Compiled with g++ [x86_64-pc-linux-gnu]" ++ nl.

(** A Linux host with [swig] on the path and no [git]. *)
Definition swig_host : host :=
  {| system := "Linux";
     maxsize := 9223372036854775807;
     python_major := 3;
     environ := ∅;
     cwd := ["work" : str; "x64" : str];
     which := fun name =>
       if str_eqb name "swig" then Some ("/usr/bin/swig" : str) else None;
     child := fun argv t =>
       if bool_decide (argv = ["/usr/bin/swig" : str; "-version" : str])
       then (Ok swig_banner, t) else (Raise FileNotFoundError, t);
     msvc_cc := None;
     setuptools := fun _ t => (Ok tt, t);
     set_order := demosaic_last;
     clock := clock0 |}.


(** A Windows host with the code generator in its install place. *)
Definition programfiles_host : host :=
  {| system := "Windows";
     maxsize := 9223372036854775807;
     python_major := 3;
     environ :=
       list_to_map
         [("FAI_SDK_ROOT_PATH" : str, "/sdk" : str);
          ("PROGRAMFILES" : str, "/pf" : str);
          ("PROCESSOR_ARCHITECTURE" : str, "AMD64" : str);
          ("windir" : str, "/windows" : str)];
     cwd := ["work" : str; "x64" : str];
     which := fun _ => None;
     child := fun argv t =>
       if bool_decide (argv = ["/pf/swigwin-4.0.0/swig.exe" : str; "-version" : str])
       then (Ok swig_banner, t) else (Raise FileNotFoundError, t);
     msvc_cc := None;
     setuptools := fun _ t => (Ok tt, t);
     set_order := ["libpol" : str; "base" : str; "libDemosaic" : str; "genicam" : str];
     clock := clock0 |}.

(** What [cl.exe] writes when started without arguments. *)
Definition msvc_banner : str :=
  "Microsoft (R) C/C++ Optimizing Compiler Version" ++ " "
  ++ join "." ["19" : str; "29" : str; "30133" : str]
  ++ " "%char :: ("for x64" ++ nl).

(** A Windows host with the code generator in its install place and the
    compiler of Visual Studio 2019. *)
Definition msvc_host : host :=
  {| system := "Windows";
     maxsize := 9223372036854775807;
     python_major := 3;
     environ :=
       list_to_map
         [("FAI_SDK_ROOT_PATH" : str, "/sdk" : str);
          ("PROGRAMFILES" : str, "/pf" : str);
          ("PROCESSOR_ARCHITECTURE" : str, "AMD64" : str);
          ("windir" : str, "/windows" : str)];
     cwd := ["work" : str; "x64" : str];
     which := fun _ => None;
     child := fun argv t =>
       if bool_decide (argv = ["/pf/swigwin-4.0.0/swig.exe" : str; "-version" : str])
       then (Ok swig_banner, t)
       else if bool_decide (argv = ["cl.exe" : str])
       then (Ok msvc_banner, t)
       else (Raise FileNotFoundError, t);
     msvc_cc := Some ("cl.exe" : str);
     setuptools := fun _ t => (Ok tt, t);
     set_order := ["libpol" : str; "base" : str; "libDemosaic" : str; "genicam" : str];
     clock := clock0 |}.

(** What the code generator writes: the module and the generated source. *)
Definition swig_writes (t : node) : node :=
  match put t ["work" : str; "x64" : str; "FAI_python" : str; "FAI_python.py" : str]
          (File "# swig") with
  | Ok t1 =>
      match put t1 ["work" : str; "x64" : str; "generated" : str;
                    "FAI_python_wrap.c" : str] (File "/* swig */") with
      | Ok t2 => t2
      | Raise _ => t1
      end
  | Raise _ => t
  end.

(** A Linux host with [swig] and [git] at work. *)
Definition build_host : host :=
  {| system := "Linux";
     maxsize := 9223372036854775807;
     python_major := 3;
     environ := ∅;
     cwd := ["work" : str; "x64" : str];
     which := fun name =>
       if str_eqb name "swig" then Some ("/usr/bin/swig" : str) else None;
     child := fun argv t =>
       if bool_decide (argv = ["/usr/bin/swig" : str; "-version" : str])
       then (Ok swig_banner, t)
       else if bool_decide (argv = git_describe)
       then (Ok ("1.2.3-4-gabcdef" ++ nl), t)
       else if bool_decide (head argv = Some ("/usr/bin/swig" : str))
       then (Ok [], swig_writes t)
       else (Raise FileNotFoundError, t);
     msvc_cc := None;
     setuptools := fun _ t => (Ok tt, t);
     set_order := demosaic_last;
     clock := clock0 |}.

Definition build_profile : BuildSupport :=
  linux_instance build_host (Some ("/usr/bin/swig" : str)).

(** A working directory in which [generated] is a regular file. *)
Definition blocked_tree : node :=
  Dir [("work" : str,
        Dir [("x64" : str,
              Dir [("setup.py" : str, File "#!/usr/bin/env python");
                   ("generated" : str, File "notes");
                   ("FAI_python" : str, package_tree)])])].

End Cases.

(** *** Children started during a step *)

Module Trace.

(** A step that only adds to the list of children started. *)
Definition spawns_grow {A} (m : M A) : Prop :=
  forall st, exists l, spawned (m st).2 = spawned st ++ l.

(** [m] starts no child. *)
Definition quiet {A} (m : M A) : Prop :=
  forall st, spawned (m st).2 = spawned st.

(** The two scripts the entry point may run. *)
Definition builddoxygen : list str :=
  ["python scripts/builddoxy2swig/builddoxygen.py" : str].

Definition generatedoc : list str :=
  ["python scripts/generatedoc/generatedoc.py" : str].

End Trace.

(** *** Install places of the code generator on Windows *)

Module Places.

(** Every install place of the list is started and turned down, each in
    the state the one before left. *)
Fixpoint places_rejected (h : host) (places : list str) (st : state) : Prop :=
  match places with
  | [] => True
  | place :: rest =>
      exists st', is_supported_swig_version h (Some place) st = (Ok false, st')
                  /\ places_rejected h rest st'
  end.

(** The state after all of them. *)
Fixpoint after_places (h : host) (places : list str) (st : state) : state :=
  match places with
  | [] => st
  | place :: rest =>
      after_places h rest (is_supported_swig_version h (Some place) st).2
  end.

(** [swigwin-<version>\swig.exe] under a program directory. *)
Definition install_place (prg : str) : str :=
  path_join (path_join prg "swigwin-4.0.0") "swig.exe".

End Places.

(** *** Numbers with dots *)

Module Dotted.

(** Pieces written one after the other, a dot before each. *)
Definition dotted (parts : list str) : str :=
  concat (map (fun p : str => "."%char :: p) parts).

End Dotted.

(** *** What the code generator is given and what is written after it *)

Module Generated.

(** The text of a file, nothing when there is no such file. *)
Definition contents (x : option node) : str :=
  match x with
  | Some (File data) => data
  | _ => []
  end.

(** The line [call_swig] appends to the generated module. *)
Definition version_line (version : str) : str :=
  Example.nl ++ "__version__ = '" ++ version ++ "'" ++ Example.nl.

(** The command line of the code generator. *)
Definition swig_command (h : host) (bs : BuildSupport) (exe source : str)
    : list str :=
  [exe; "-python" : str; "-outdir" : str; abspath h PackageDir; "-o" : str;
   abspath h (path_join GeneratedDir (splitext_root source ++ "_wrap.c"))]
  ++ (SwigOptions bs ++ map (fun inc => "-I" ++ inc) (get_swig_includes bs))
  ++ [source].

(** The entries of a directory, none when there is no such directory. *)
Definition entries (x : option node) : list (str * node) :=
  match x with
  | Some (Dir es) => es
  | _ => []
  end.

Definition not_a_directory (x : option node) : Prop :=
  match x with
  | Some (Dir _) => False
  | _ => True
  end.

End Generated.

(** *** Paths apart from each other *)

Module Frame.

(** Two paths that part at some point: neither is the other, and neither
    lies below the other. *)
Definition diverge (p q : list str) : Prop :=
  exists c k k' r r', p = c ++ k :: r /\ q = c ++ k' :: r' /\ k <> k'.

End Frame.

(** *** Directories without two entries of one name *)

Module Distinct.

(** A tree in which no directory has two entries of the same name. *)
Inductive distinct : node -> Prop :=
| distinct_file data : distinct (File data)
| distinct_dir es :
    List.NoDup (map fst es) ->
    (forall n t, In (n, t) es -> distinct t) ->
    distinct (Dir es).

End Distinct.

(** *** What [setup] is given *)

Module Handover.

(** The arguments of the one call of [setup]: the extension built from the
    generated source with the flags of the instance, and the package
    with its data files. *)
Definition setup_arguments (h : host) (bs : BuildSupport) (version : str)
    (found : list str) : setup_call :=
  {| name := "FAI_python";
     version := version;
     author := [];
     description := "The python wrapper for the FA SDK.";
     ext_modules :=
       [{| ext_name := "FAI_python._FAI_python";
           sources := [abspath h (path_join GeneratedDir "FAI_python_wrap.c")];
           library_dirs := LibraryDirs bs;
           libraries := ["FAI_c" : str];
           extra_compile_args := ExtraCompileArgs bs;
           extra_link_args := ExtraLinkArgs bs |}];
     packages := ["FAI_python" : str];
     package_data :=
       [("FAI_python" : str,
         ["*.dll" : str; "*.zip" : str; "*.so" : str; "*.so.*" : str] ++ found)] |}.

End Handover.

(** * Properties *)

(** ** Strings and the monad of a run *)

Module Basics.

Lemma str_eqb_true (a b : str) : a = b -> str_eqb a b = true.
Proof. intros ->. unfold str_eqb. apply bool_decide_eq_true_2. reflexivity. Qed.

Lemma str_eqb_false (a b : str) : a <> b -> str_eqb a b = false.
Proof. intros H. unfold str_eqb. now apply bool_decide_eq_false_2. Qed.

Lemma str_eqb_eq (a b : str) : str_eqb a b = true -> a = b.
Proof. unfold str_eqb. apply bool_decide_eq_true_1. Qed.

Lemma str_eqb_refl (a : str) : str_eqb a a = true.
Proof. now apply str_eqb_true. Qed.

Lemma str_eqb_sym (a b : str) : str_eqb a b = str_eqb b a.
Proof. unfold str_eqb. apply bool_decide_ext. split; congruence. Qed.

Ltac unfold_M :=
  unfold mbind, M_bind, Host.bind, mret, M_ret, Host.ret, Host.raise, Host.lift in *.

End Basics.

(** ** The matcher against a declarative reading of the patterns *)

Module ReFacts.

Import ReSpec.

#[local] Hint Constructors Match : core.


Section Iteration.

Variable step : str -> caps -> list outcome.

(** Enough fuel is as good as any other amount that is enough. *)
Lemma star_iter_fuel (fuel1 fuel2 : nat) (s : str) (c : caps) :
  (length s <= fuel1)%nat -> (length s <= fuel2)%nat ->
  star_iter step fuel1 s c = star_iter step fuel2 s c.
Proof.
  revert fuel2 s c.
  induction fuel1 as [|fuel1 IH]; intros fuel2 s c H1 H2.
  - destruct s; [|simpl in H1; lia].
    destruct fuel2; [reflexivity|]. simpl.
    replace (flat_map _ (step [] c)) with (@nil outcome); [reflexivity|].
    symmetry. induction (step [] c); simpl; auto.
  - destruct fuel2 as [|fuel2].
    + destruct s; [|simpl in H2; lia]. simpl.
      replace (flat_map _ (step [] c)) with (@nil outcome); [reflexivity|].
      symmetry. induction (step [] c); simpl; auto.
    + simpl. f_equal. apply flat_map_ext. intros o.
      destruct (length o.2 <? length s)%nat eqn:E; [|reflexivity].
      apply Nat.ltb_lt in E. apply IH; lia.
Qed.

Lemma in_star_iter_stop (fuel : nat) (s : str) (c : caps) :
  In (c, s) (star_iter step fuel s c).
Proof. destruct fuel; simpl; [auto|]. apply in_or_app. right. simpl. auto. Qed.

Lemma in_star_iter_step (fuel : nat) (s : str) (c : caps) (o1 o2 : outcome) :
  In o1 (step s c) -> (length o1.2 < length s)%nat ->
  In o2 (star_iter step fuel o1.2 o1.1) ->
  In o2 (star_iter step (S fuel) s c).
Proof.
  intros H1 Hlt H2. simpl. apply in_or_app. left.
  apply in_flat_map. exists o1. split; [assumption|].
  apply Nat.ltb_lt in Hlt. rewrite Hlt. assumption.
Qed.

Lemma in_star_iter_inv (fuel : nat) (s : str) (c : caps) (o2 : outcome) :
  In o2 (star_iter step fuel s c) ->
  o2 = (c, s) \/
  exists fuel' o1, fuel = S fuel' /\ In o1 (step s c) /\
    (length o1.2 < length s)%nat /\ In o2 (star_iter step fuel' o1.2 o1.1).
Proof.
  destruct fuel as [|fuel]; simpl.
  - intros [H|[]]. left. congruence.
  - intros H. apply in_app_or in H. destruct H as [H|[H|[]]].
    + apply in_flat_map in H. destruct H as (o1 & Ho1 & H).
      destruct (length o1.2 <? length s)%nat eqn:E; [|contradiction].
      apply Nat.ltb_lt in E. right. exists fuel, o1. auto.
    + left. congruence.
Qed.

End Iteration.

(** The list computed by [matches] holds exactly the matches. *)
Lemma matches_sound (n0 : nat) (r : regex) :
  forall s c c' s', In (c', s') (matches n0 r s c) -> Match n0 r s c c' s'.
Proof.
  induction r as [| | |a|p|r1 IH1 r2 IH2|r1 IH1 r2 IH2|r IH|r IH|k r IH];
    intros s c c' s'; simpl.
  - intros [H|[]]. inversion H; subst. constructor.
  - destruct (length s =? n0)%nat eqn:E; [|intros []].
    intros [H|[]]. inversion H; subst. constructor. now apply Nat.eqb_eq.
  - destruct s as [|a [|b s]]; simpl.
    + intros [H|[]]. inversion H; subst. constructor.
    + destruct (Ascii.eqb a "010") eqn:E; [|intros []].
      apply Ascii.eqb_eq in E. subst a.
      intros [H|[]]. inversion H; subst. constructor.
    + intros [].
  - destruct s as [|x s]; [intros []|].
    destruct (Ascii.eqb x a) eqn:E; [|intros []].
    apply Ascii.eqb_eq in E. subst x.
    intros [H|[]]. inversion H; subst. constructor.
  - destruct s as [|x s]; [intros []|].
    destruct (p x) eqn:E; [|intros []].
    intros [H|[]]. inversion H; subst. now constructor.
  - intros H. apply in_flat_map in H. destruct H as ([c1 s1] & H1 & H2).
    eapply MSeq; eauto.
  - intros H. apply in_app_or in H. destruct H; eauto.
  - intros H. apply in_app_or in H. destruct H as [H|[H|[]]]; eauto.
    inversion H; subst. apply MOptSkip.
  - generalize (length s) at 1. intros fuel. revert s c.
    induction fuel as [|fuel IHf]; intros s c H.
    + destruct H as [H|[]]. inversion H; subst. constructor.
    + apply in_star_iter_inv in H.
      destruct H as [H|(fuel' & [c1 s1] & Hf & H1 & Hlt & H2)].
      * inversion H; subst. constructor.
      * inversion Hf; subst fuel'. simpl in *. eapply MStarStep; eauto.
  - intros H. apply in_map_iff in H. destruct H as ([c1 s1] & Heq & H).
    simpl in Heq. inversion Heq; subst. constructor. auto.
Qed.

Lemma matches_complete (n0 : nat) (r : regex) (s : str) (c c' : caps) (s' : str) :
  Match n0 r s c c' s' -> In (c', s') (matches n0 r s c).
Proof.
  induction 1; simpl; auto.
  - apply Nat.eqb_eq in H. rewrite H. simpl. auto.
  - rewrite Ascii.eqb_refl. simpl. auto.
  - rewrite H. simpl. auto.
  - apply in_flat_map. exists (c1, s1). auto.
  - apply in_or_app. auto.
  - apply in_or_app. auto.
  - apply in_or_app. auto.
  - apply in_or_app. right. simpl. auto.
  - apply in_star_iter_stop.
  - destruct s as [|x s]; [simpl in H0; lia|].
    cbn [length]. eapply in_star_iter_step with (o1 := (c1, s1)); eauto.
    simpl. simpl in IHMatch2.
    erewrite star_iter_fuel; [exact IHMatch2| |]; simpl in *; lia.
  - apply in_map_iff. exists (c', s'). auto.
Qed.

Theorem matches_spec (n0 : nat) (r : regex) (s : str) (c c' : caps) (s' : str) :
  In (c', s') (matches n0 r s c) <-> Match n0 r s c c' s'.
Proof. split; [apply matches_sound | apply matches_complete]. Qed.

(** Inversion, constructor by constructor. *)
Lemma Match_Seq_inv (n0 : nat) (r1 r2 : regex) (s : str) (c c' : caps) (s' : str) :
  Match n0 (Seq r1 r2) s c c' s' ->
  exists c1 s1, Match n0 r1 s c c1 s1 /\ Match n0 r2 s1 c1 c' s'.
Proof. inversion 1; subst; eauto. Qed.

Lemma Match_Lit_inv (n0 : nat) (a : ascii) (s : str) (c c' : caps) (s' : str) :
  Match n0 (Lit a) s c c' s' -> s = a :: s' /\ c' = c.
Proof. inversion 1; subst; auto. Qed.

Lemma Match_Class_inv (n0 : nat) (p : ascii -> bool) (s : str) (c c' : caps) (s' : str) :
  Match n0 (Class p) s c c' s' -> exists x, s = x :: s' /\ p x = true /\ c' = c.
Proof. inversion 1; subst; eauto. Qed.

Lemma Match_Opt_inv (n0 : nat) (r : regex) (s : str) (c c' : caps) (s' : str) :
  Match n0 (Opt r) s c c' s' -> Match n0 r s c c' s' \/ (s' = s /\ c' = c).
Proof. inversion 1; subst; auto. Qed.

Lemma Match_Alt_inv (n0 : nat) (r1 r2 : regex) (s : str) (c c' : caps) (s' : str) :
  Match n0 (Alt r1 r2) s c c' s' ->
  Match n0 r1 s c c' s' \/ Match n0 r2 s c c' s'.
Proof. inversion 1; subst; auto. Qed.

Lemma Match_Bol_inv (n0 : nat) (s : str) (c c' : caps) (s' : str) :
  Match n0 Bol s c c' s' -> s' = s /\ c' = c.
Proof. inversion 1; subst; auto. Qed.

Lemma Match_Dollar_inv (n0 : nat) (s : str) (c c' : caps) (s' : str) :
  Match n0 Dollar s c c' s' ->
  s' = s /\ c' = c /\ (s = [] \/ s = ["010"%char]).
Proof. inversion 1; subst; auto. Qed.


Lemma Match_consumes (P : ascii -> Prop) (n0 : nat) (r : regex)
    (s : str) (c c' : caps) (s' : str) :
  chars_in P r -> Match n0 r s c c' s' ->
  exists w, s = w ++ s' /\ Forall P w.
Proof.
  intros HP HM. induction HM; simpl in HP;
    try (exists []; split; [reflexivity|constructor]; fail).
  - exists [a]. split; [reflexivity|]. repeat constructor. assumption.
  - exists [x]. split; [reflexivity|]. repeat constructor. auto.
  - destruct HP as [HP1 HP2].
    destruct (IHHM1 HP1) as (w1 & -> & Hw1).
    destruct (IHHM2 HP2) as (w2 & -> & Hw2).
    exists (w1 ++ w2). split; [now rewrite app_assoc|]. now apply Forall_app.
  - apply IHHM. tauto.
  - apply IHHM. tauto.
  - auto.
  - destruct (IHHM1 HP) as (w1 & -> & Hw1).
    destruct (IHHM2 HP) as (w2 & -> & Hw2).
    exists (w1 ++ w2). split; [now rewrite app_assoc|]. now apply Forall_app.
  - auto.
Qed.

Lemma Match_group_free (n0 : nat) (r : regex) (s : str) (c c' : caps) (s' : str) :
  group_free r -> Match n0 r s c c' s' -> c' = c.
Proof.
  intros HG HM. induction HM; simpl in HG; try reflexivity; try tauto.
  - destruct HG. rewrite IHHM2, IHHM1; auto.
  - rewrite IHHM2, IHHM1; auto.
Qed.

(** A run of characters of a class, under [Star] and [Plus]. *)
Lemma Match_Star_Class (n0 : nat) (p : ascii -> bool) (w rest : str) (c : caps) :
  Forall (fun x => p x = true) w ->
  Match n0 (Star (Class p)) (w ++ rest) c c rest.
Proof.
  induction 1 as [|x w Hx Hw IH]; simpl.
  - apply MStarStop.
  - eapply MStarStep; [apply MClass; exact Hx| |exact IH]. simpl. lia.
Qed.

Lemma Match_Plus_Class (n0 : nat) (p : ascii -> bool) (w rest : str) (c : caps) :
  w <> [] -> Forall (fun x => p x = true) w ->
  Match n0 (Plus (Class p)) (w ++ rest) c c rest.
Proof.
  intros Hne Hw. destruct w as [|x w]; [congruence|].
  inversion Hw; subst. simpl. eapply MSeq; [apply MClass; eassumption|].
  now apply Match_Star_Class.
Qed.

Lemma Match_Lits (n0 : nat) (l rest : str) (c : caps) :
  Match n0 (Lits l) (l ++ rest) c c rest.
Proof.
  induction l as [|a l IH]; simpl; [apply MEps|].
  eapply MSeq; [apply MLit|exact IH].
Qed.

Lemma Match_Lits_inv (n0 : nat) (l s : str) (c c' : caps) (s' : str) :
  Match n0 (Lits l) s c c' s' -> s = l ++ s' /\ c' = c.
Proof.
  revert s c. induction l as [|a l IH]; intros s c H; simpl in H.
  - inversion H; subst. auto.
  - apply Match_Seq_inv in H. destruct H as (c1 & s1 & H1 & H2).
    apply Match_Lit_inv in H1. destruct H1 as [-> ->].
    apply IH in H2. destruct H2 as [-> ->]. auto.
Qed.

Lemma firstn_consumed (w s' : str) :
  firstn (length (w ++ s') - length s') (w ++ s') = w.
Proof.
  rewrite length_app. replace (length w + length s' - length s')%nat
    with (length w) by lia.
  rewrite firstn_app, Nat.sub_diag, firstn_all. simpl. apply app_nil_r.
Qed.

(** What a capturing group records. *)
Lemma Match_Group_inv (n0 k : nat) (r : regex) (s : str) (c c' : caps) (s' : str) :
  Match n0 (Group k r) s c c' s' ->
  exists c1 w, Match n0 r s c c1 s' /\ s = w ++ s' /\ c' = <[k := w]> c1.
Proof.
  intros H. inversion H; subst.
  destruct (Match_consumes (fun _ => True) n0 r s c c'0 s') as (w & -> & _).
  - clear. induction r; simpl; auto.
  - assumption.
  - exists c'0, w. rewrite firstn_consumed. auto.
Qed.


(** A longest run of [P] at the front of a string is unique. *)
Lemma longest_run_unique (P : ascii -> Prop) (w1 w2 s1 s2 : str) :
  Forall P w1 -> Forall P w2 -> stops P s1 -> stops P s2 ->
  w1 ++ s1 = w2 ++ s2 -> w1 = w2 /\ s1 = s2.
Proof.
  intros H1. revert w2. induction H1 as [|x w1 Hx H1 IH]; intros w2 H2 Hs1 Hs2 Heq.
  - destruct H2 as [|y w2 Hy H2]; [auto|].
    simpl in Heq. subst s1. simpl in Hs1. contradiction.
  - destruct H2 as [|y w2 Hy H2].
    + simpl in Heq. subst s2. simpl in Hs2. contradiction.
    + simpl in Heq. inversion Heq; subst.
      destruct (IH w2 H2 Hs1 Hs2 H3) as [-> ->]. auto.
Qed.

Lemma Match_Star_Class_inv (n0 : nat) (p : ascii -> bool) (s : str) (c c' : caps) (s' : str) :
  Match n0 (Star (Class p)) s c c' s' ->
  exists w, Forall (fun x => p x = true) w /\ s = w ++ s' /\ c' = c.
Proof.
  intros H.
  assert (Hc : chars_in (fun x => p x = true) (Star (Class p)))
    by (simpl; auto).
  destruct (Match_consumes _ _ _ _ _ _ _ Hc H) as (w & -> & Hw).
  exists w. repeat split; auto.
  eapply Match_group_free; [|exact H]. exact I.
Qed.

Lemma Match_Plus_Class_inv (n0 : nat) (p : ascii -> bool) (s : str) (c c' : caps) (s' : str) :
  Match n0 (Plus (Class p)) s c c' s' ->
  exists w, w <> [] /\ Forall (fun x => p x = true) w /\ s = w ++ s' /\ c' = c.
Proof.
  intros H. apply Match_Seq_inv in H. destruct H as (c1 & s1 & H1 & H2).
  apply Match_Class_inv in H1. destruct H1 as (x & -> & Hx & ->).
  apply Match_Star_Class_inv in H2. destruct H2 as (w & Hw & -> & ->).
  exists (x :: w). repeat split; auto.
Qed.

Lemma first_match_None (n0 : nat) (r : regex) (s : str) :
  (forall c' s', ~ Match n0 r s ∅ c' s') -> first_match n0 r s = None.
Proof.
  intros H. unfold first_match.
  destruct (matches n0 r s ∅) as [|[c' s'] l] eqn:E; [reflexivity|].
  exfalso. apply (H c' s'). apply matches_sound. rewrite E. simpl. auto.
Qed.

Lemma first_match_Some (n0 : nat) (r : regex) (s : str) (c' : caps) (s' : str) :
  Match n0 r s ∅ c' s' ->
  exists m s'', first_match n0 r s = Some m /\ Match n0 r s ∅ m s''.
Proof.
  intros H. apply matches_complete in H. unfold first_match.
  destruct (matches n0 r s ∅) as [|[m s''] l] eqn:E; [destruct H|].
  exists m, s''. split; [reflexivity|].
  apply matches_sound. rewrite E. simpl. auto.
Qed.

End ReFacts.

(** ** The version resolver *)

Module GitFacts.

Import ReSpec ReFacts Shape.

#[local] Hint Constructors Match : core.

(** *** [str.strip] *)

Lemma lstrip_blanks (pad s : str) : blanks pad -> lstrip (pad ++ s) = lstrip s.
Proof. induction 1 as [|x pad Hx _ IH]; simpl; [reflexivity|]. now rewrite Hx. Qed.

Lemma lstrip_id (s : str) :
  match s with x :: _ => is_space x = false | [] => True end -> lstrip s = s.
Proof. destruct s as [|x s]; simpl; [reflexivity|]. now intros ->. Qed.

(** A text without white space at either end, followed by white space. *)
Lemma strip_padded (s pad : str) :
  Forall (fun c => is_space c = false) s -> blanks pad -> strip (s ++ pad) = s.
Proof.
  intros Hs Hpad. unfold strip.
  destruct s as [|x s].
  - simpl. rewrite <- (app_nil_r pad), lstrip_blanks by assumption. reflexivity.
  - assert (Hx : is_space x = false) by (inversion Hs; assumption).
    simpl. rewrite Hx. unfold rstrip.
    change (x :: s ++ pad) with ((x :: s) ++ pad).
    rewrite rev_app_distr, lstrip_blanks.
    + rewrite lstrip_id; [apply rev_involutive|].
      apply Forall_rev in Hs. destruct Hs; auto.
    + now apply Forall_rev.
Qed.

(** *** Facts about single characters, by going through all of them *)

Ltac by_cases_on_char c :=
  destruct c as [[] [] [] [] [] [] [] []]; vm_compute; intuition congruence.

Lemma digit_is_core (c : ascii) : is_digit c = true -> core_char c = true.
Proof. by_cases_on_char c. Qed.

Lemma core_not_space (c : ascii) : core_char c = true -> is_space c = false.
Proof. by_cases_on_char c. Qed.

Lemma hex_not_space (c : ascii) : lower_hex c = true -> is_space c = false.
Proof. by_cases_on_char c. Qed.

Lemma digit_not_space (c : ascii) : is_digit c = true -> is_space c = false.
Proof. by_cases_on_char c. Qed.

(** *** The version proper *)

Lemma version_core_unfold :
  version_core =
  Seq (Plus digit)
    (Seq (Seq (Seq dot_number (Seq dot_number Eps)) (Opt (Seq dot_number Eps)))
       suffix_rx).
Proof. reflexivity. Qed.

Lemma Match_digits (n0 : nat) (a rest : str) (c : caps) :
  digits a -> Match n0 (Plus digit) (a ++ rest) c c rest.
Proof. intros [Hne Ha]. now apply Match_Plus_Class. Qed.

Lemma Match_dot_number (n0 : nat) (a rest : str) (c : caps) :
  digits a -> Match n0 dot_number ("." ++ a ++ rest) c c rest.
Proof.
  intros Ha. simpl. eapply MSeq; [apply MLit|]. now apply Match_digits.
Qed.

Lemma Match_suffix (n0 : nat) (p rest : str) (c : caps) :
  pre_release p -> Match n0 suffix_rx (p ++ rest) c c rest.
Proof.
  intros [|ds H|ds H|ds H]; unfold suffix_rx; simpl.
  - apply MOptSkip.
  - apply MOptTake. eapply MSeq; [apply MAltL, MLit|].
    now apply Match_Star_Class.
  - apply MOptTake. eapply MSeq; [apply MAltR, MAltL, MLit|].
    now apply Match_Star_Class.
  - apply MOptTake. eapply MSeq.
    + apply MAltR, MAltR. eapply MSeq; [apply MLit|].
      eapply MSeq; [apply MLit|apply MEps].
    + now apply Match_Star_Class.
Qed.

(** Every release tag is matched by the version proper. *)
Lemma Match_version_core (n0 : nat) (base rest : str) (c : caps) :
  release_tag base -> Match n0 version_core (base ++ rest) c c rest.
Proof.
  rewrite version_core_unfold.
  intros [a b c0 p Ha Hb Hc Hp|a b c0 d p Ha Hb Hc Hd Hp];
    repeat rewrite <- app_assoc.
  - eapply MSeq. { now apply Match_digits. }
    eapply MSeq.
    { eapply MSeq.
      - eapply MSeq. { now apply Match_dot_number. }
        eapply MSeq. { now apply Match_dot_number. }
        apply MEps.
      - apply MOptSkip. }
    now apply Match_suffix.
  - eapply MSeq. { now apply Match_digits. }
    eapply MSeq.
    { eapply MSeq.
      - eapply MSeq. { now apply Match_dot_number. }
        eapply MSeq. { now apply Match_dot_number. }
        apply MEps.
      - apply MOptTake. eapply MSeq. { now apply Match_dot_number. }
        apply MEps. }
    now apply Match_suffix.
Qed.

Lemma version_core_chars : chars_in (fun x => core_char x = true) version_core.
Proof.
  rewrite version_core_unfold. unfold dot_number, suffix_rx, Plus, digit. simpl.
  repeat split; try reflexivity; intros x Hx; now apply digit_is_core.
Qed.

Lemma version_core_group_free : group_free version_core.
Proof. rewrite version_core_unfold. simpl. tauto. Qed.

Lemma digit_run_core (s : str) : digit_run s -> Forall (fun x => core_char x = true) s.
Proof. induction 1; constructor; auto using digit_is_core. Qed.

Lemma pre_release_core (p : str) :
  pre_release p -> Forall (fun x => core_char x = true) p.
Proof.
  intros [|ds H|ds H|ds H]; simpl; repeat constructor; now apply digit_run_core.
Qed.

Lemma release_tag_core (base : str) :
  release_tag base -> Forall (fun x => core_char x = true) base.
Proof.
  intros [a b c0 p [_ Ha] [_ Hb] [_ Hc] Hp|a b c0 d p [_ Ha] [_ Hb] [_ Hc] [_ Hd] Hp];
    repeat (apply Forall_app; split);
    try (now apply digit_run_core); try (now apply pre_release_core);
    repeat constructor.
Qed.

(** Where the version proper ends: the text it consumed is the tag. *)
Lemma version_core_exact (n0 : nat) (base tail : str) (c c' : caps) (s' : str) :
  release_tag base ->
  stops (fun x => core_char x = true) tail ->
  stops (fun x => core_char x = true) s' ->
  Match n0 version_core (base ++ tail) c c' s' ->
  s' = tail /\ c' = c.
Proof.
  intros Hb Ht Hs' HM.
  split; [|eapply Match_group_free; [apply version_core_group_free|exact HM]].
  destruct (Match_consumes _ _ _ _ _ _ _ version_core_chars HM) as (w & Heq & Hw).
  symmetry in Heq.
  destruct (longest_run_unique _ _ _ _ _ Hw (release_tag_core _ Hb) Hs' Ht Heq).
  assumption.
Qed.

Abbreviation core := (fun x : ascii => core_char x = true).
Abbreviation no_space := (fun x : ascii => is_space x = false).

Lemma rx_git_ver_unfold :
  rx_git_ver = Seq Bol (Seq (Group 1 version_core) tail_rx).
Proof. reflexivity. Qed.

Lemma local_part_inv (n0 : nat) (s : str) (c c' : caps) (s' : str) :
  Match n0 local_part s c c' s' ->
  (exists t, s = "+"%char :: t) \/ (s' = s /\ c' = c).
Proof.
  intros H. apply Match_Opt_inv in H. destruct H as [H|H]; [left|now right].
  apply Match_Seq_inv in H. destruct H as (c1 & s1 & H1 & _).
  apply Match_Lit_inv in H1. destruct H1 as [-> _]. eauto.
Qed.

Lemma distance_part_inv (n0 : nat) (s : str) (c c' : caps) (s' : str) :
  Match n0 distance_part s c c' s' ->
  (s' = s /\ c' = c) \/
  (exists w hx, digits w /\ lower_hex_digits hx /\
     s = "-" ++ w ++ "-g" ++ hx ++ s' /\ c' = <[2%nat := w]> c).
Proof.
  intros H. apply Match_Opt_inv in H. destruct H as [H|H]; [right|now left].
  apply Match_Seq_inv in H. destruct H as (c1 & s1 & H1 & H).
  apply Match_Lit_inv in H1. destruct H1 as [-> ->].
  apply Match_Seq_inv in H. destruct H as (c2 & s2 & H2 & H).
  apply Match_Group_inv in H2. destruct H2 as (c3 & w & H2 & -> & ->).
  apply Match_Plus_Class_inv in H2. destruct H2 as (w' & Hne & Hw & Heq & ->).
  apply app_inv_tail in Heq. subst w'.
  apply Match_Seq_inv in H. destruct H as (c4 & s4 & H4 & H).
  apply Match_Lits_inv in H4. destruct H4 as [-> ->].
  apply Match_Plus_Class_inv in H. destruct H as (hx & Hhne & Hhx & -> & ->).
  exists w, hx. repeat split; auto.
Qed.

Lemma dirty_part_inv (n0 : nat) (s : str) (c c' : caps) (s' : str) :
  Match n0 dirty_part s c c' s' ->
  c' = c /\ (s' = s \/ s = "-dirty" ++ s').
Proof.
  intros H. apply Match_Opt_inv in H. destruct H as [H|[-> ->]]; [|auto].
  apply Match_Lits_inv in H. destruct H as [-> ->]. auto.
Qed.

(** What can follow the version proper in [rx_git_ver] does not begin
    with a character of the version proper. *)
Lemma tail_stops (n0 : nat) (s : str) (c c' : caps) (s' : str) :
  Match n0 tail_rx s c c' s' -> stops core s.
Proof.
  intros H. apply Match_Seq_inv in H. destruct H as (c1 & s1 & H1 & H).
  apply local_part_inv in H1. destruct H1 as [(t & ->)|[-> ->]]; [simpl; discriminate|].
  apply Match_Seq_inv in H. destruct H as (c2 & s2 & H2 & H).
  apply distance_part_inv in H2.
  destruct H2 as [[-> ->]|(w & hx & _ & _ & -> & _)]; [|simpl; discriminate].
  apply Match_Seq_inv in H. destruct H as (c3 & s3 & H3 & H).
  apply dirty_part_inv in H3. destruct H3 as [-> [->| ->]]; [|simpl; discriminate].
  apply Match_Dollar_inv in H.
  destruct H as (_ & _ & [-> | ->]); simpl; [exact I|discriminate].
Qed.

(** On a tag followed by [tail], the first group of [rx_git_ver] is the
    tag, and the rest of the pattern runs on [tail]. *)
Lemma rx_git_ver_inv (n0 : nat) (base tail : str) (c' : caps) (s' : str) :
  release_tag base -> stops core tail ->
  Match n0 rx_git_ver (base ++ tail) ∅ c' s' ->
  Match n0 tail_rx tail (<[1%nat := base]> ∅) c' s'.
Proof.
  intros Hb Ht H. rewrite rx_git_ver_unfold in H.
  apply Match_Seq_inv in H. destruct H as (c1 & s1 & H1 & H).
  apply Match_Bol_inv in H1. destruct H1 as [-> ->].
  apply Match_Seq_inv in H. destruct H as (c2 & s2 & H2 & H).
  apply Match_Group_inv in H2. destruct H2 as (c3 & w & H2 & Heq & ->).
  pose proof (tail_stops _ _ _ _ _ H) as Hs2.
  destruct (version_core_exact _ _ _ _ _ _ Hb Ht Hs2 H2) as [-> ->].
  apply app_inv_tail in Heq. subst w. exact H.
Qed.

Lemma rx_release_inv (n0 : nat) (base tail : str) (c' : caps) (s' : str) :
  release_tag base -> stops core tail ->
  Match n0 rx_release (base ++ tail) ∅ c' s' ->
  tail = [] \/ tail = ["010"%char].
Proof.
  intros Hb Ht H. unfold rx_release in H.
  apply Match_Seq_inv in H. destruct H as (c1 & s1 & H1 & H).
  apply Match_Bol_inv in H1. destruct H1 as [-> ->].
  apply Match_Seq_inv in H. destruct H as (c2 & s2 & H2 & H).
  apply Match_Dollar_inv in H. destruct H as (-> & -> & Hend).
  assert (Hs2 : stops core s2) by (destruct Hend as [-> | ->]; simpl; auto; discriminate).
  destruct (version_core_exact _ _ _ _ _ _ Hb Ht Hs2 H2) as [-> _].
  assumption.
Qed.

Lemma Forall_no_space (p : ascii -> bool) (s : str) :
  (forall c, p c = true -> is_space c = false) ->
  Forall (fun c => p c = true) s -> Forall no_space s.
Proof. intros Hp. induction 1; constructor; auto. Qed.

Lemma digits_head (w : str) :
  digits w -> exists x w', w = x :: w' /\ is_digit x = true.
Proof.
  intros [Hne Hw]. destruct w as [|x w']; [congruence|].
  inversion Hw; subst. eauto.
Qed.

Lemma stops_digit_dash (t : str) :
  stops (fun x => is_digit x = true) ("-"%char :: t).
Proof. simpl. discriminate. Qed.

(** After the tag, a commit distance and a hash: the second group is the
    distance. *)
Lemma tail_distance_inv (n0 : nat) (dist hx dsuf : str) (c c' : caps) (s' : str) :
  digits dist -> dsuf = [] \/ dsuf = "-dirty" ->
  Match n0 tail_rx ("-" ++ dist ++ "-g" ++ hx ++ dsuf) c c' s' ->
  c' = <[2%nat := dist]> c.
Proof.
  intros Hd Hsuf H.
  destruct (digits_head _ Hd) as (x & dist' & Hx & Hdx).
  apply Match_Seq_inv in H. destruct H as (c1 & s1 & H1 & H).
  apply local_part_inv in H1. destruct H1 as [(t & Ht)|[-> ->]]; [discriminate|].
  apply Match_Seq_inv in H. destruct H as (c2 & s2 & H2 & H).
  apply Match_Seq_inv in H. destruct H as (c3 & s3 & H3 & H).
  apply dirty_part_inv in H3. destruct H3 as [-> Hs3].
  apply Match_Dollar_inv in H. destruct H as (-> & -> & Hend).
  apply distance_part_inv in H2.
  destruct H2 as [[-> ->]|(w & hx' & Hw & _ & Heq & ->)].
  - exfalso. subst dist. destruct Hs3 as [->|Heq].
    + destruct Hend; discriminate.
    + simpl in Heq. injection Heq as Heq _. subst x. discriminate.
  - simpl in Heq. injection Heq as Heq.
    destruct Hd as [_ Hd]. destruct Hw as [_ Hw].
    change ("-"%char :: "g"%char :: hx ++ dsuf) with ("-"%char :: ("g"%char :: hx ++ dsuf)) in Heq.
    destruct (longest_run_unique _ _ _ _ _ Hd Hw
                (stops_digit_dash _) (stops_digit_dash _) Heq) as [-> _].
    reflexivity.
Qed.

(** After the tag, [-dirty] alone: no second group. *)
Lemma tail_dirty_inv (n0 : nat) (c c' : caps) (s' : str) :
  Match n0 tail_rx "-dirty" c c' s' -> c' = c.
Proof.
  intros H.
  apply Match_Seq_inv in H. destruct H as (c1 & s1 & H1 & H).
  apply local_part_inv in H1. destruct H1 as [(t & Ht)|[-> ->]]; [discriminate|].
  apply Match_Seq_inv in H. destruct H as (c2 & s2 & H2 & H).
  apply Match_Seq_inv in H. destruct H as (c3 & s3 & H3 & H).
  apply dirty_part_inv in H3. destruct H3 as [-> Hs3].
  apply Match_Dollar_inv in H. destruct H as (-> & -> & Hend).
  apply distance_part_inv in H2.
  destruct H2 as [[-> ->]|(w & hx' & Hw & _ & Heq & ->)]; [reflexivity|].
  exfalso. destruct (digits_head _ Hw) as (x & w' & -> & Hx).
  simpl in Heq. injection Heq as Heq _. subst x. discriminate.
Qed.

Lemma tail_distance_match (n0 : nat) (dist hx dsuf : str) (c : caps) :
  digits dist -> lower_hex_digits hx -> dsuf = [] \/ dsuf = "-dirty" ->
  exists c', Match n0 tail_rx ("-" ++ dist ++ "-g" ++ hx ++ dsuf) c c' [].
Proof.
  intros [Hdne Hd] [Hhne Hh] Hsuf. eexists. unfold tail_rx.
  eapply MSeq. { apply MOptSkip. }
  eapply MSeq.
  { apply MOptTake. simpl. eapply MSeq. { apply MLit. }
    eapply MSeq. { apply MGroup. now apply Match_Plus_Class. }
    eapply MSeq. { apply (Match_Lits n0 "-g"). }
    now apply Match_Plus_Class. }
  destruct Hsuf as [-> | ->].
  - eapply MSeq. { apply MOptSkip. } apply MDollarEnd.
  - eapply MSeq. { apply MOptTake. apply (Match_Lits n0 "-dirty" []). }
    apply MDollarEnd.
Qed.

Lemma tail_dirty_match (n0 : nat) (c : caps) :
  Match n0 tail_rx "-dirty" c c [].
Proof.
  unfold tail_rx.
  eapply MSeq. { apply MOptSkip. }
  eapply MSeq. { apply MOptSkip. }
  eapply MSeq. { apply MOptTake. apply (Match_Lits n0 "-dirty" []). }
  apply MDollarEnd.
Qed.

Lemma rx_git_ver_match (base tail : str) (c' : caps) :
  release_tag base ->
  Match (length (base ++ tail)) tail_rx tail
    (<[1%nat := firstn (length (base ++ tail) - length tail) (base ++ tail)]> ∅) c' [] ->
  Match (length (base ++ tail)) rx_git_ver (base ++ tail) ∅ c' [].
Proof.
  intros Hb Ht. rewrite rx_git_ver_unfold.
  eapply MSeq. { now apply MBol. }
  eapply MSeq. { apply MGroup. now apply Match_version_core. }
  exact Ht.
Qed.

Lemma rx_release_match (base : str) :
  release_tag base -> Match (length base) rx_release base ∅ ∅ [].
Proof.
  intros Hb. unfold rx_release.
  eapply MSeq. { now apply MBol. }
  eapply MSeq; [|apply MDollarEnd].
  pose proof (Match_version_core (length base) base [] ∅ Hb) as H.
  rewrite app_nil_r in H. exact H.
Qed.

(** *** What [describe] returns *)

Lemma describe_release (text pad : str) :
  Forall no_space text -> blanks pad ->
  (exists c' s', Match (length text) rx_release text ∅ c' s') ->
  describe (Ok (text ++ pad)) = Ok text.
Proof.
  intros Hns Hpad (c' & s' & H). unfold describe. simpl.
  rewrite strip_padded by assumption. unfold re_match.
  destruct (first_match_Some _ _ _ _ _ H) as (m & s'' & -> & _). reflexivity.
Qed.

Lemma describe_development (text pad g1 g2 : str) :
  Forall no_space text -> blanks pad ->
  (forall c' s', ~ Match (length text) rx_release text ∅ c' s') ->
  (exists c' s', Match (length text) rx_git_ver text ∅ c' s') ->
  (forall c' s', Match (length text) rx_git_ver text ∅ c' s' ->
     group c' 1 = Some g1 /\ fmt_s_or_0 (group c' 2) = g2) ->
  describe (Ok (text ++ pad)) = Ok (g1 ++ ".dev" ++ g2).
Proof.
  intros Hns Hpad Hrel (c' & s' & H) Hgroups. unfold describe. simpl.
  rewrite strip_padded by assumption. unfold re_match.
  rewrite (first_match_None _ _ _ Hrel).
  destruct (first_match_Some _ _ _ _ _ H) as (m & s'' & -> & Hm).
  destruct (Hgroups _ _ Hm) as [-> ->]. reflexivity.
Qed.

Lemma release_tag_no_space (base : str) : release_tag base -> Forall no_space base.
Proof.
  intros H. apply release_tag_core in H.
  exact (Forall_no_space _ _ core_not_space H).
Qed.

Lemma no_release_match (base tail : str) (t : ascii) (tail' : str) :
  release_tag base -> tail = "-"%char :: t :: tail' ->
  forall c' s', ~ Match (length (base ++ tail)) rx_release (base ++ tail) ∅ c' s'.
Proof.
  intros Hb -> c' s' H.
  apply rx_release_inv in H; [|assumption|simpl; discriminate].
  destruct H; discriminate.
Qed.

Lemma fmt_s_or_0_digits (dist : str) : digits dist -> fmt_s_or_0 (Some dist) = dist.
Proof. intros [Hne _]. destruct dist; [congruence|reflexivity]. Qed.


End GitFacts.

(** ** Selection of the profile *)

Module PlatformFacts.

Import Basics.

Lemma machinewidth_cases (h : host) :
  get_machinewidth h = 32%Z \/ get_machinewidth h = 64%Z.
Proof. unfold get_machinewidth. destruct (maxsize h >? 2147483647)%Z; auto. Qed.

Lemma BinPath_unsupported (h : host) :
  get_platform h <> "Windows" -> get_platform h <> "Linux" ->
  ~ (get_platform h = "Darwin" /\ get_machinewidth h = 64%Z) ->
  BinPath h = Raise (KeyErrorPair (get_platform h, get_machinewidth h)).
Proof.
  intros HW HL HD. unfold BinPath, BinPath_table. simpl in *.
  rewrite !lookup_insert_ne; [rewrite lookup_empty; reflexivity|..];
    intros [= ? ?]; first [congruence | apply HD; split; congruence].
Qed.

Lemma BinPath_supported (h : host) (p : str) (w : Z) (dir : str) :
  get_platform h = p -> get_machinewidth h = w ->
  BinPath_table !! (p, w) = Some dir -> BinPath h = Ok dir.
Proof. intros Hp Hw H. unfold BinPath. rewrite Hp, Hw, H. reflexivity. Qed.

Lemma Linux_init_class (h : host) (st st' : state) (bs : BuildSupport) :
  BuildSupportLinux_init h st = (Ok bs, st') ->
  class_of bs = BuildSupportLinux /\ RuntimeFiles bs = Linux.RuntimeFiles.
Proof.
  unfold BuildSupportLinux_init. unfold_M.
  destruct (find_swig h st) as [[swig|e] st1]; [|discriminate].
  intros [= <- <-]. auto.
Qed.

Lemma Windows_init_class (h : host) (st st' : state) (bs : BuildSupport) :
  BuildSupportWindows_init h st = (Ok bs, st') ->
  class_of bs = BuildSupportWindows /\ RuntimeFiles bs = Windows.RuntimeFiles.
Proof.
  unfold BuildSupportWindows_init. unfold_M.
  destruct (find_swig_windows h st) as [[swig|e] st1]; [|discriminate].
  destruct (environ h !! _) as [[|x root]|]; try discriminate.
  destruct (detect_msvc_ver h st1) as [[ver|e] st2]; [|discriminate].
  intros [= <- <-]. auto.
Qed.

End PlatformFacts.

(** ** The tool locator *)

Module SwigFacts.

Import Basics ReSpec ReFacts Shape Outcome.

Section Heads.

Variable n0 : nat.




End Heads.


Lemma search_hit (n0 : nat) (r : regex) (s : str) (m : caps) :
  first_match n0 r s = Some m -> search_from n0 r s = Some m.
Proof. intros H. destruct s; simpl; rewrite H; reflexivity. Qed.


(** *** [split], [join] and [int] on dotted numbers *)

Lemma split_no_sep (sep : ascii) (p : str) :
  ~ In sep p -> split sep p = [p].
Proof.
  induction p as [|x p IH]; intros H; simpl; [reflexivity|].
  destruct (Ascii.eqb x sep) eqn:E.
  - apply Ascii.eqb_eq in E. subst. exfalso. apply H. now left.
  - rewrite IH; [reflexivity|]. intros Hin. apply H. now right.
Qed.

Lemma split_app_sep (sep : ascii) (p rest : str) :
  ~ In sep p -> split sep (p ++ sep :: rest) = p :: split sep rest.
Proof.
  induction p as [|x p IH]; intros H; simpl.
  - rewrite Ascii.eqb_refl. reflexivity.
  - destruct (Ascii.eqb x sep) eqn:E.
    + apply Ascii.eqb_eq in E. subst. exfalso. apply H. now left.
    + rewrite IH; [reflexivity|]. intros Hin. apply H. now right.
Qed.

Lemma split_join (sep : ascii) (parts : list str) :
  parts <> [] -> Forall (fun p => ~ In sep p) parts ->
  split sep (join [sep] parts) = parts.
Proof.
  intros Hne H. revert Hne.
  induction H as [|p parts Hp H IH]; intros Hne; [now contradiction Hne|].
  destruct parts as [|q parts].
  - simpl. now apply split_no_sep.
  - change (join [sep] (p :: q :: parts)) with (p ++ sep :: join [sep] (q :: parts)).
    rewrite split_app_sep by assumption. rewrite IH by discriminate. reflexivity.
Qed.

Lemma digit_run_no_dot (p : str) : digit_run p -> ~ In "."%char p.
Proof.
  intros H Hin. unfold digit_run in H. rewrite Forall_forall in H.
  apply list_elem_of_In in Hin. apply H in Hin. discriminate.
Qed.

Lemma forallb_digit_run (p : str) : digit_run p -> forallb is_digit p = true.
Proof. induction 1 as [|x p Hx _ IH]; simpl; [reflexivity|]. now rewrite Hx, IH. Qed.

Lemma int_digits (p : str) :
  digits p -> within_limit p -> int p = Ok (int_value p).
Proof.
  intros [Hne H] Hlen. unfold int. destruct p; [congruence|].
  rewrite forallb_digit_run by assumption.
  apply N.leb_le in Hlen. now rewrite Hlen.
Qed.

(** A run of digits that [int] does not read, being empty or too long,
    is a [ValueError]. *)
Lemma int_refused (p : str) :
  digit_run p -> p = [] \/ ~ within_limit p -> int p = Raise ValueError.
Proof.
  intros H Hbad. unfold int. destruct p as [|x p]; [reflexivity|].
  rewrite forallb_digit_run by assumption.
  destruct Hbad as [Hbad|Hbad]; [discriminate|].
  destruct (N.leb_spec (N.of_nat (length (x :: p))) int_max_str_digits) as [Hle|_];
    [now contradiction Hbad|reflexivity].
Qed.

Lemma int_digit_run (p : str) :
  digit_run p -> int p = Ok (int_value p) \/ int p = Raise ValueError.
Proof.
  intros H. unfold int. destruct p as [|x p]; [now right|].
  rewrite forallb_digit_run by assumption.
  destruct (_ <=? _)%N; auto.
Qed.

Lemma map_int_digits (parts : list str) :
  Forall digits parts -> Forall within_limit parts ->
  map_int parts = Ok (map int_value parts).
Proof.
  induction 1 as [|p parts Hp _ IH]; intros Hlen; simpl; [reflexivity|].
  apply Forall_cons_iff in Hlen. destruct Hlen as [Hl Hlen].
  rewrite int_digits by assumption. simpl. rewrite IH by assumption. reflexivity.
Qed.

(** One piece that [int] does not read makes the whole tuple a
    [ValueError], wherever the piece stands. *)
Lemma map_int_refused (parts : list str) (p : str) :
  Forall digit_run parts -> In p parts -> p = [] \/ ~ within_limit p ->
  map_int parts = Raise ValueError.
Proof.
  intros H Hin Hbad. induction H as [|q parts Hq H IH]; [destruct Hin|].
  simpl. destruct Hin as [-> |Hin].
  - now rewrite int_refused.
  - destruct (int_digit_run q Hq) as [-> | ->]; [|reflexivity].
    simpl. now rewrite IH.
Qed.

Lemma dotted_chars (parts : list str) :
  Forall digits parts -> Forall (fun c => digit_or_dot c = true) (join "." parts).
Proof.
  induction 1 as [|p parts [_ Hp] H IH]; simpl; [constructor|].
  assert (Hpd : Forall (fun c => digit_or_dot c = true) p).
  { clear -Hp. induction Hp as [|x p Hx _ IH]; constructor; auto.
    unfold digit_or_dot. now rewrite Hx. }
  destruct parts as [|q parts]; [assumption|].
  apply Forall_app. split; [assumption|]. constructor; [reflexivity|exact IH].
Qed.







(** *** The search *)

Section Search.

Variable h : host.














End Search.

End SwigFacts.

(** ** The file system *)

Module FSFacts.

Import Basics Tree.

(** *** Entries of a directory *)

Lemma assoc_set_entry (n m : str) (x : node) (es : list (str * node)) :
  assoc m (set_entry n x es) = if str_eqb n m then Some x else assoc m es.
Proof.
  induction es as [|[k v] es IH]; simpl.
  - destruct (str_eqb n m); reflexivity.
  - destruct (str_eqb k n) eqn:E; simpl.
    + apply str_eqb_eq in E. subst k. destruct (str_eqb n m); reflexivity.
    + rewrite IH. destruct (str_eqb k m) eqn:E2; [|reflexivity].
      apply str_eqb_eq in E2. subst k. rewrite (str_eqb_sym n m), E. reflexivity.
Qed.

Lemma assoc_del_entry (n m : str) (es : list (str * node)) :
  assoc m (del_entry n es) = if str_eqb n m then None else assoc m es.
Proof.
  induction es as [|[k v] es IH]; simpl.
  - destruct (str_eqb n m); reflexivity.
  - destruct (str_eqb k n) eqn:E; simpl.
    + apply str_eqb_eq in E. subst k. rewrite IH.
      destruct (str_eqb n m); reflexivity.
    + rewrite IH. destruct (str_eqb k m) eqn:E2; [|reflexivity].
      apply str_eqb_eq in E2. subst k. rewrite (str_eqb_sym n m), E. reflexivity.
Qed.

(** *** Paths *)

Lemma lookup_app (t : node) (d q : list str) :
  lookup t (d ++ q) = match lookup t d with
                      | Some x => lookup x q
                      | None => None
                      end.
Proof.
  revert t. induction d as [|n d IH]; intros t; simpl; [reflexivity|].
  destruct t as [data|es]; [reflexivity|].
  destruct (assoc n es); [apply IH|reflexivity].
Qed.

Lemma lookup_alter_at (f : node -> node) (t : node) (d q : list str) :
  lookup (alter_at f t d) (d ++ q)
  = match lookup t d with
    | Some x => lookup (f x) q
    | None => None
    end.
Proof.
  revert t. induction d as [|n d IH]; intros t; simpl; [reflexivity|].
  destruct t as [data|es]; [reflexivity|].
  destruct (assoc n es) as [t'|] eqn:E; simpl.
  - rewrite assoc_set_entry, str_eqb_refl. apply IH.
  - rewrite E. reflexivity.
Qed.

Lemma removelast_snoc (d : list str) (n : str) : removelast (d ++ [n]) = d.
Proof. apply removelast_last. Qed.

Lemma last_snoc (d : list str) (n : str) : List.last (d ++ [n]) [] = n.
Proof. apply last_last. Qed.

Lemma remove_snoc (t : node) (d : list str) (n : str) :
  remove t (d ++ [n]) = alter_at (unlink n) t d.
Proof.
  unfold remove. destruct (d ++ [n]) eqn:E.
  - destruct d; discriminate.
  - rewrite <- E, removelast_snoc, last_snoc. reflexivity.
Qed.

Lemma lookup_rmtree (t : node) (d : list str) (n m : str) :
  lookup (rmtree_ignore_errors t (d ++ [n])) (d ++ [m])
  = if str_eqb n m then cleared (lookup t (d ++ [m])) else lookup t (d ++ [m]).
Proof.
  unfold rmtree_ignore_errors.
  destruct (lookup t (d ++ [n])) as [[data|es]|] eqn:E.
  - destruct (str_eqb n m) eqn:Enm; [|reflexivity].
    apply str_eqb_eq in Enm. subst m. rewrite E. reflexivity.
  - rewrite remove_snoc, lookup_alter_at.
    rewrite lookup_app in E. rewrite lookup_app.
    destruct (lookup t d) as [[data|es0]|]; try discriminate.
    simpl in *. rewrite assoc_del_entry.
    destruct (str_eqb n m) eqn:Enm; [|reflexivity].
    apply str_eqb_eq in Enm. subst m.
    destruct (assoc n es0) as [x|]; [|reflexivity].
    inversion E; subst. reflexivity.
  - destruct (str_eqb n m) eqn:Enm; [|reflexivity].
    apply str_eqb_eq in Enm. subst m. rewrite E. reflexivity.
Qed.

Lemma lookup_rmtree_dir (t : node) (d : list str) (n : str) :
  is_dir <$> lookup (rmtree_ignore_errors t (d ++ [n])) d = is_dir <$> lookup t d.
Proof.
  unfold rmtree_ignore_errors.
  destruct (lookup t (d ++ [n])) as [[data|es]|] eqn:E; try reflexivity.
  rewrite remove_snoc.
  pose proof (lookup_alter_at (unlink n) t d []) as H.
  rewrite app_nil_r in H. rewrite H.
  destruct (lookup t d) as [[data|es0]|]; reflexivity.
Qed.

Lemma cleared_idem (x : option node) : cleared (cleared x) = cleared x.
Proof. destruct x as [[|]|]; reflexivity. Qed.

(** Several [rmtree] in one directory. *)
Lemma lookup_rmtrees (d : list str) (ns : list str) (m : str) (t : node) :
  lookup (fold_left (fun t n => rmtree_ignore_errors t (d ++ [n])) ns t) (d ++ [m])
  = if contains m ns then cleared (lookup t (d ++ [m])) else lookup t (d ++ [m]).
Proof.
  revert t. induction ns as [|n ns IH]; intros t; simpl; [reflexivity|].
  rewrite IH, lookup_rmtree.
  rewrite (str_eqb_sym m n).
  destruct (str_eqb n m), (contains m ns); simpl; auto using cleared_idem.
Qed.

Lemma lookup_rmtrees_dir (d : list str) (ns : list str) (t : node) :
  is_dir <$> lookup (fold_left (fun t n => rmtree_ignore_errors t (d ++ [n])) ns t) d
  = is_dir <$> lookup t d.
Proof.
  revert t. induction ns as [|n ns IH]; intros t; simpl; [reflexivity|].
  rewrite IH. apply lookup_rmtree_dir.
Qed.

(** [makedirs] of a fresh name in a directory that is there. *)
Lemma makedirs_at_fresh (d : list str) (n : str) (t : node) :
  (exists es, lookup t d = Some (Dir es)) -> lookup t (d ++ [n]) = None ->
  exists t', makedirs_at t (d ++ [n]) = Ok t'
    /\ (forall m, lookup t' (d ++ [m])
                  = if str_eqb n m then Some (Dir []) else lookup t (d ++ [m]))
    /\ (exists es', lookup t' d = Some (Dir es')).
Proof.
  revert t. induction d as [|x d IH]; intros t (es & Hd) Hn; simpl in *.
  - inversion Hd; subst t.
    destruct (assoc n es) eqn:E; [discriminate|].
    eexists. split; [reflexivity|]. split; [|eauto].
    intros m. simpl. rewrite assoc_set_entry.
    destruct (str_eqb n m); reflexivity.
  - destruct t as [data|es0]; [discriminate|].
    destruct (assoc x es0) as [tx|] eqn:E; [|discriminate].
    destruct (IH tx) as (t' & Ht' & Hlook & Hdir); eauto.
    rewrite Ht'. simpl. eexists. split; [reflexivity|]. split.
    + intros m. simpl. rewrite assoc_set_entry, str_eqb_refl. apply Hlook.
    + simpl. rewrite assoc_set_entry, str_eqb_refl. exact Hdir.
Qed.

End FSFacts.

(** ** [clean] *)

Module CleanFacts.

Import Basics Tree FSFacts.

Section Clean.

Variable h : host.

Lemma for_each_rmtree (ps : list str) (st : state) :
  for_each ps (rmtree h) st
  = (Ok tt,
     with_fs st
       (fold_left (fun t p => rmtree_ignore_errors t (resolve (cwd h) p)) ps (fs st))).
Proof.
  revert st. induction ps as [|p ps IH]; intros st; simpl.
  - destruct st; reflexivity.
  - unfold_M. unfold rmtree at 1. unfold get_fs, set_fs. unfold_M. simpl.
    rewrite IH. reflexivity.
Qed.

Lemma cleared_not_file (x : option node) : ~ plain_file x -> cleared x = None.
Proof. destruct x as [[|]|]; simpl; tauto. Qed.

Lemma clean_std (st : state) :
  let names := ["generated" : str; "FAI_python" : str; "build" : str;
                "FAI_python.egg-info" : str; "dist" : str] in
  exists st',
    clean h "std" (Some ["build" : str; "FAI_python.egg-info" : str; "dist" : str]) st
    = (Ok tt, st')
    /\ spawned st' = spawned st /\ setups st' = setups st
    /\ forall m : str,
         lookup (fs st') (cwd h ++ [m])
         = if contains m names then cleared (lookup (fs st) (cwd h ++ [m]))
           else lookup (fs st) (cwd h ++ [m]).
Proof.
  intros names. eexists. split; [|split; [|split]].
  - unfold clean. rewrite str_eqb_false by discriminate.
    unfold_M. rewrite for_each_rmtree.
    rewrite str_eqb_false by discriminate. reflexivity.
  - reflexivity.
  - reflexivity.
  - intros m. cbn [fs with_fs].
    exact (lookup_rmtrees (cwd h) names m (fs st)).
Qed.

Lemma clean_keep (st : state) :
  (exists es, lookup (fs st) (cwd h) = Some (Dir es)) ->
  ~ plain_file (lookup (fs st) (cwd h ++ ["generated" : str])) ->
  ~ plain_file (lookup (fs st) (cwd h ++ ["FAI_python" : str])) ->
  exists st',
    clean h "keep" None st = (Ok tt, st')
    /\ spawned st' = spawned st /\ setups st' = setups st
    /\ lookup (fs st') (cwd h ++ ["generated" : str]) = Some (Dir [])
    /\ lookup (fs st') (cwd h ++ ["FAI_python" : str]) = Some (Dir [])
    /\ forall m : str, m <> "generated" -> m <> "FAI_python" ->
         lookup (fs st') (cwd h ++ [m]) = lookup (fs st) (cwd h ++ [m]).
Proof.
  intros Hcwd Hg Hp.
  set (names := ["generated" : str; "FAI_python" : str]).
  set (t1 := fold_left (fun t n => rmtree_ignore_errors t (cwd h ++ [n])) names (fs st)).
  assert (H1 : forall m, lookup t1 (cwd h ++ [m])
                         = if contains m names then cleared (lookup (fs st) (cwd h ++ [m]))
                           else lookup (fs st) (cwd h ++ [m]))
    by (intros m; apply lookup_rmtrees).
  assert (Hd1 : exists es, lookup t1 (cwd h) = Some (Dir es)).
  { pose proof (lookup_rmtrees_dir (cwd h) names (fs st)) as H.
    fold t1 in H. destruct Hcwd as (es & Hes). rewrite Hes in H.
    destruct (lookup t1 (cwd h)) as [[|es1]|]; try discriminate. eauto. }
  destruct (makedirs_at_fresh (cwd h) "generated" t1 Hd1) as (t2 & Ht2 & H2 & Hd2).
  { rewrite H1. simpl. now apply cleared_not_file. }
  destruct (makedirs_at_fresh (cwd h) "FAI_python" t2 Hd2) as (t3 & Ht3 & H3 & Hd3).
  { rewrite H2. rewrite str_eqb_false by discriminate.
    rewrite H1. simpl. now apply cleared_not_file. }
  exists (with_fs st t3). split; [|split; [|split; [|split; [|split]]]]; try reflexivity.
  - unfold clean. rewrite str_eqb_false by discriminate.
    unfold_M. rewrite for_each_rmtree.
    rewrite str_eqb_true by reflexivity.
    unfold makedirs, get_fs, set_fs. unfold_M. cbn [fs with_fs].
    change (resolve (cwd h) GeneratedDir) with (cwd h ++ ["generated" : str]).
    change (resolve (cwd h) PackageDir) with (cwd h ++ ["FAI_python" : str]).
    change (fold_left _ _ (fs st)) with t1.
    rewrite Ht2. cbn [fs]. rewrite Ht3. reflexivity.
  - cbn [fs with_fs]. rewrite H3. rewrite str_eqb_false by discriminate.
    rewrite H2. rewrite str_eqb_true by reflexivity. reflexivity.
  - cbn [fs with_fs]. rewrite H3. rewrite str_eqb_true by reflexivity. reflexivity.
  - intros m Hm1 Hm2. cbn [fs with_fs]. rewrite H3.
    rewrite (str_eqb_false "FAI_python" m) by congruence. rewrite H2.
    rewrite (str_eqb_false "generated" m) by congruence. rewrite H1.
    unfold names, contains. cbn [existsb].
    rewrite (str_eqb_false m "generated"), (str_eqb_false m "FAI_python") by congruence.
    reflexivity.
Qed.

End Clean.

Lemma get_version_state (h : host) (st st1 : state) (r : result str) :
  get_version h st = (r, st1) ->
  spawned st1 = spawned st ++ [git_describe] /\ setups st1 = setups st.
Proof.
  unfold get_version, spawn.
  destruct (child h git_describe (fs st)) as [git t].
  intros [= <- <-]. auto.
Qed.

Lemma node_at_cwd (h : host) (t : node) (p n : str) :
  resolve (cwd h) p = cwd h ++ [n] -> node_at h t p = lookup t (cwd h ++ [n]).
Proof. intros H. unfold node_at. now rewrite H. Qed.

End CleanFacts.

(** ** The debug configuration and the calls of [setup] *)

Module DebugFacts.

Import Basics Outcome Example.

Section Kept.

Variable h : host.

Lemma kept_ret {A} (a : A) : setups_kept (mret a : M A).
Proof. intros st. reflexivity. Qed.

Lemma kept_raise {A} (e : exn) : setups_kept (raise e : M A).
Proof. intros st. reflexivity. Qed.

Lemma kept_lift {A} (r : result A) : setups_kept (lift r).
Proof. intros st. reflexivity. Qed.

Lemma kept_get_fs : setups_kept get_fs.
Proof. intros st. reflexivity. Qed.

Lemma kept_set_fs (t : node) : setups_kept (set_fs t).
Proof. intros st. reflexivity. Qed.

Lemma kept_spawn (argv : list str) : setups_kept (spawn h argv).
Proof. intros st. unfold spawn. destruct (child h argv (fs st)). reflexivity. Qed.

Lemma kept_bind {A B} (m : M A) (k : A -> M B) :
  setups_kept m -> (forall a, setups_kept (k a)) -> setups_kept (x ← m; k x).
Proof.
  intros Hm Hk st. unfold_M. specialize (Hm st).
  destruct (m st) as [[a|e] st1]; simpl in *; [|assumption].
  rewrite Hk. assumption.
Qed.

Lemma kept_try_except {A} (m : M A) (handles : exn -> bool) (k : M A) :
  setups_kept m -> setups_kept k -> setups_kept (try_except m handles k).
Proof.
  intros Hm Hk st. unfold try_except. specialize (Hm st).
  destruct (m st) as [[a|e] st1]; simpl in *; [assumption|].
  destruct (handles e); simpl; [rewrite Hk|]; assumption.
Qed.

Lemma kept_for_each {A} (xs : list A) (body : A -> M unit) :
  (forall x, setups_kept (body x)) -> setups_kept (for_each xs body).
Proof.
  intros Hb. induction xs as [|x xs IH]; simpl.
  - apply kept_ret.
  - apply kept_bind; auto.
Qed.

Ltac kept :=
  repeat first
    [ apply kept_ret | apply kept_raise | apply kept_lift | apply kept_get_fs
    | apply kept_set_fs | apply kept_spawn
    | apply kept_bind; [|intros ?]
    | apply kept_try_except
    | apply kept_for_each; intros ?
    | match goal with
      | |- setups_kept (match ?x with _ => _ end) => destruct x
      | |- setups_kept (if ?x then _ else _) => destruct x
      | |- setups_kept (let '(_, _) := ?x in _) => destruct x
      end ].

Lemma kept_rmtree (p : str) : setups_kept (rmtree h p).
Proof. unfold rmtree. kept. Qed.

Lemma kept_makedirs (p : str) : setups_kept (makedirs h p).
Proof. unfold makedirs. kept. Qed.

Lemma kept_exists (p : str) : setups_kept (exists_ h p).
Proof. unfold exists_. kept. Qed.

Lemma kept_copy (src dst : str) : setups_kept (copy h src dst).
Proof. unfold copy. kept. Qed.

Lemma kept_copytree (src dst : str) : setups_kept (copytree h src dst).
Proof. unfold copytree. kept; auto using kept_makedirs. Qed.

Lemma kept_append_file (p text : str) : setups_kept (append_file h p text).
Proof. unfold append_file. kept. Qed.

Lemma kept_clean (mode : str) (dirs : option (list str)) :
  setups_kept (clean h mode dirs).
Proof. unfold clean. kept; auto using kept_rmtree, kept_makedirs. Qed.

Lemma kept_copy_matching (src dst : str) : setups_kept (copy_matching h src dst).
Proof. unfold copy_matching. kept; auto using kept_exists, kept_makedirs, kept_copy. Qed.

Lemma kept_manifest_of (bs : BuildSupport) (package : str) :
  setups_kept (manifest_of bs package).
Proof. unfold manifest_of. kept. Qed.

Lemma kept_copy_runtime_base (bs : BuildSupport) : setups_kept (copy_runtime_base h bs).
Proof.
  unfold copy_runtime_base. kept;
    auto using kept_manifest_of, kept_copy_matching, kept_rmtree, kept_copytree.
Qed.

Lemma kept_copy_runtime (bs : BuildSupport) : setups_kept (copy_runtime h bs).
Proof.
  unfold copy_runtime, copy_runtime_windows, copy_runtime_linux, environ_item.
  kept; auto using kept_copy_runtime_base, kept_manifest_of, kept_copy_matching, kept_copy.
Qed.

Lemma kept_get_version : setups_kept (get_version h).
Proof.
  intros st. unfold get_version. pose proof (kept_spawn git_describe st) as H.
  destruct (spawn h git_describe st). assumption.
Qed.

Lemma kept_call (cmd : str) : setups_kept (call h cmd).
Proof. unfold call. kept. Qed.

Lemma kept_get_package_data_files : setups_kept (get_package_data_files h).
Proof. unfold get_package_data_files. kept. Qed.

Lemma kept_call_swig (bs : BuildSupport) (sourcedir source version : str) (skip : bool) :
  setups_kept (call_swig h bs sourcedir source version skip).
Proof. unfold call_swig. kept; auto using kept_append_file. Qed.

(** [call_swig] leaves the flags of the compiler and of the linker. *)
Lemma call_swig_flags (bs : BuildSupport) (sourcedir source version : str)
    (skip : bool) (st st' : state) (r : str * BuildSupport) :
  call_swig h bs sourcedir source version skip st = (Ok r, st') ->
  ExtraCompileArgs r.2 = ExtraCompileArgs bs
  /\ ExtraLinkArgs r.2 = ExtraLinkArgs bs.
Proof.
  unfold call_swig. destruct skip.
  - intros [= <- _]. auto.
  - cbn [SwigExe with_SwigOptions]. destruct (SwigExe bs); [|discriminate].
    unfold_M.
    destruct (spawn h _ st) as [[?|?] ?]; [|discriminate].
    destruct (append_file h _ _ _) as [[?|?] ?]; [|discriminate].
    destruct (append_file h _ _ _) as [[?|?] ?]; [|discriminate].
    intros [= <- _]. auto.
Qed.

End Kept.

Section Debug.

Variable h : host.

Lemma kept_eq {A} (m : M A) (st st' : state) (r : result A) :
  setups_kept m -> m st = (r, st') -> setups st' = setups st.
Proof. intros Hk E. specialize (Hk st). rewrite E in Hk. exact Hk. Qed.

Lemma nothing_new (version : str) (compile link : list str) (s1 s2 : list setup_call) :
  s1 = s2 ->
  exists new, s1 = s2 ++ new /\ Forall (built_with version compile link) new.
Proof. intros ->. exists []. split; [now rewrite app_nil_r|constructor]. Qed.

(** The calls of [setup] a build makes carry the version and the flags
    the build was started with. *)
Lemma build_setups (a : arguments) (bs : BuildSupport) (version : str)
    (help_mode : bool) (st : state) :
  exists new,
    setups (build h a bs version help_mode st).2 = setups st ++ new
    /\ Forall (built_with version (ExtraCompileArgs bs) (ExtraLinkArgs bs)) new.
Proof.
  unfold build. unfold_M.
  destruct ((if negb help_mode && rebuild_doxygen a
             then call h "python scripts/builddoxy2swig/builddoxygen.py"
             else fun st => (Ok tt, st)) st) as [[[]|e] st1] eqn:E1.
  2:{ apply nothing_new. simpl. eapply kept_eq; [|exact E1].
      destruct (negb help_mode && rebuild_doxygen a); [apply kept_call|intros ?; reflexivity]. }
  assert (K1 : setups st1 = setups st).
  { eapply kept_eq; [|exact E1].
    destruct (negb help_mode && rebuild_doxygen a); [apply kept_call|intros ?; reflexivity]. }
  destruct help_mode; [apply nothing_new; exact K1|].
  destruct (clean h _ None st1) as [[[]|e] st2] eqn:E2.
  2:{ apply nothing_new. simpl. rewrite <- K1. eapply kept_eq; [apply kept_clean|exact E2]. }
  assert (K2 : setups st2 = setups st)
    by (rewrite <- K1; eapply kept_eq; [apply kept_clean|exact E2]).
  destruct (call_swig h bs "." "FAI_python.i" version (skip_swig a) st2)
    as [[r|e] st3] eqn:E3.
  2:{ apply nothing_new. simpl. rewrite <- K2. eapply kept_eq; [apply kept_call_swig|exact E3]. }
  assert (K3 : setups st3 = setups st)
    by (rewrite <- K2; eapply kept_eq; [apply kept_call_swig|exact E3]).
  destruct (call_swig_flags h _ _ _ _ _ _ _ _ E3) as [Hc Hl].
  destruct (swig_only a); [apply nothing_new; exact K3|].
  destruct (copy_runtime h r.2 st3) as [[[]|e] st4] eqn:E4.
  2:{ apply nothing_new. simpl. rewrite <- K3. eapply kept_eq; [apply kept_copy_runtime|exact E4]. }
  assert (K4 : setups st4 = setups st)
    by (rewrite <- K3; eapply kept_eq; [apply kept_copy_runtime|exact E4]).
  destruct (get_package_data_files h st4) as [[files|e] st5] eqn:E5.
  2:{ apply nothing_new. simpl. rewrite <- K4.
      eapply kept_eq; [apply kept_get_package_data_files|exact E5]. }
  assert (K5 : setups st5 = setups st)
    by (rewrite <- K4; eapply kept_eq; [apply kept_get_package_data_files|exact E5]).
  unfold setup at 1.
  destruct (setuptools h _ (fs st5)) as [[[]|e] t6] eqn:E6.
  - eexists [_]. split.
    + destruct (generate_python_doc a).
      * match goal with
        | |- setups (call h ?c ?s).2 = _ =>
            rewrite (kept_call h c s)
        end. simpl. rewrite K5. reflexivity.
      * simpl. rewrite K5. reflexivity.
    + repeat constructor; simpl; assumption.
  - eexists [_]. split; [simpl; rewrite K5; reflexivity|].
    repeat constructor; simpl; assumption.
Qed.

Lemma run_setups (a : arguments) (bs : BuildSupport) (st : state) :
  let bs' := if pp_debug a then use_debug_configuration bs else bs in
  exists new v,
    setups (run h a bs st).2 = setups st ++ new
    /\ Forall (built_with (v ++ (if pp_debug a then "_dbg" : str else []))
                 (ExtraCompileArgs bs') (ExtraLinkArgs bs')) new.
Proof.
  intros bs'. unfold run. unfold_M.
  destruct (get_version h st) as [[dv|e] st1] eqn:E1.
  2:{ exists [], []. split; [|constructor]. simpl. rewrite app_nil_r.
      eapply kept_eq; [apply kept_get_version|exact E1]. }
  assert (K1 : setups st1 = setups st)
    by (eapply kept_eq; [apply kept_get_version|exact E1]).
  destruct (contains "clean" (remainder a)).
  - exists [], []. split; [|constructor]. rewrite app_nil_r.
    destruct (clean h "std" _ st1) as [[[]|e] st2] eqn:E2; simpl;
      rewrite <- K1; eapply kept_eq; try exact E2; apply kept_clean.
  - destruct (build_setups a bs' (default dv (pp_version a)
                ++ (if pp_debug a then "_dbg" : str else [])) 
                (contains "-h" (remainder a) || contains "--help" (remainder a)) st1)
      as (new & Hnew & Hall).
    exists new, (default dv (pp_version a)). split; [|exact Hall].
    fold bs'. rewrite Hnew, K1. reflexivity.
Qed.

Lemma kept_rebuild (a : arguments) : setups_kept (rebuild h a).
Proof.
  unfold rebuild. destruct (rebuild_doxygen a); [apply kept_call|intros ?; reflexivity].
Qed.

Lemma steps_keep_setups (a : arguments) (bs : BuildSupport) (version : str)
    (st s1 s2 s3 s4 s5 : state) (r : str * BuildSupport) (files : list str) :
  rebuild h a st = (Ok tt, s1) ->
  clean h (if skip_swig a then "skip" else "keep") None s1 = (Ok tt, s2) ->
  call_swig h bs "." "FAI_python.i" version (skip_swig a) s2 = (Ok r, s3) ->
  copy_runtime h r.2 s3 = (Ok tt, s4) ->
  get_package_data_files h s4 = (Ok files, s5) ->
  setups s5 = setups st.
Proof.
  intros E1 E2 E3 E4 E5.
  transitivity (setups s4);
    [eapply kept_eq; [apply kept_get_package_data_files|exact E5]|].
  transitivity (setups s3); [eapply kept_eq; [apply kept_copy_runtime|exact E4]|].
  transitivity (setups s2); [eapply kept_eq; [apply kept_call_swig|exact E3]|].
  transitivity (setups s1); [eapply kept_eq; [apply kept_clean|exact E2]|].
  eapply kept_eq; [apply kept_rebuild|exact E1].
Qed.

(** The one call of [setup] a build makes, and the steps that have led
    to it. *)
Lemma build_trace (a : arguments) (bs : BuildSupport) (version : str)
    (help : bool) (st : state) :
  exists new,
    setups (build h a bs version help st).2 = setups st ++ new
    /\ (new = []
        \/ exists r files,
             help = false /\ swig_only a = false
             /\ steps_to_setup h a bs version st r files
             /\ new = [setup_of version (fai_python_ext r.2 r.1) files])
    /\ ((build h a bs version help st).1 = Ok tt -> new <> []).
Proof.
  assert (Hnone : forall (o : result unit * state),
            setups o.2 = setups st -> (forall u, o.1 <> Ok u) ->
            exists new, setups o.2 = setups st ++ new
              /\ (new = []
                  \/ exists r files,
                       help = false /\ swig_only a = false
                       /\ steps_to_setup h a bs version st r files
                       /\ new = [setup_of version (fai_python_ext r.2 r.1) files])
              /\ (o.1 = Ok tt -> new <> [])).
  { intros o Hk Ho. exists []. split; [now rewrite app_nil_r|].
    split; [now left|]. intros E. now apply Ho in E. }
  unfold build. unfold_M.
  destruct help.
  { apply (Hnone (Raise (NameError "fai_python_src"), st)); [reflexivity|discriminate]. }
  cbn [negb andb].
  change ((if rebuild_doxygen a
             then call h "python scripts/builddoxy2swig/builddoxygen.py"
             else fun st0 => (Ok tt, st0)) st) with (rebuild h a st).
  destruct (rebuild h a st) as [[[]|e] t1] eqn:E1.
  2:{ apply Hnone; [|discriminate]. simpl.
      eapply kept_eq; [apply kept_rebuild|exact E1]. }
  assert (K1 : setups t1 = setups st)
    by (eapply kept_eq; [apply kept_rebuild|exact E1]).
  destruct (clean h _ None t1) as [[[]|e] t2] eqn:E2.
  2:{ apply Hnone; [|discriminate]. simpl. rewrite <- K1.
      eapply kept_eq; [apply kept_clean|exact E2]. }
  assert (K2 : setups t2 = setups st)
    by (rewrite <- K1; eapply kept_eq; [apply kept_clean|exact E2]).
  destruct (call_swig h bs "." "FAI_python.i" version (skip_swig a) t2)
    as [[r|e] t3] eqn:E3.
  2:{ apply Hnone; [|discriminate]. simpl. rewrite <- K2.
      eapply kept_eq; [apply kept_call_swig|exact E3]. }
  assert (K3 : setups t3 = setups st)
    by (rewrite <- K2; eapply kept_eq; [apply kept_call_swig|exact E3]).
  destruct (swig_only a) eqn:Eso; [apply Hnone; [exact K3|discriminate]|].
  destruct (copy_runtime h r.2 t3) as [[[]|e] t4] eqn:E4.
  2:{ apply Hnone; [|discriminate]. simpl. rewrite <- K3.
      eapply kept_eq; [apply kept_copy_runtime|exact E4]. }
  assert (K4 : setups t4 = setups st)
    by (rewrite <- K3; eapply kept_eq; [apply kept_copy_runtime|exact E4]).
  destruct (get_package_data_files h t4) as [[files|e] t5] eqn:E5.
  2:{ apply Hnone; [|discriminate]. simpl. rewrite <- K4.
      eapply kept_eq; [apply kept_get_package_data_files|exact E5]. }
  assert (K5 : setups t5 = setups st)
    by (rewrite <- K4; eapply kept_eq; [apply kept_get_package_data_files|exact E5]).
  fold (setup_of version (fai_python_ext r.2 r.1) files).
  exists [setup_of version (fai_python_ext r.2 r.1) files].
  split; [|split; [|discriminate]].
  - unfold setup at 1.
    destruct (setuptools h _ (fs t5)) as [[[]|e] t6] eqn:E6.
    + destruct (generate_python_doc a).
      * match goal with
        | |- setups (call h ?c ?s).2 = _ => rewrite (kept_call h c s)
        end. simpl. rewrite K5. reflexivity.
      * simpl. rewrite K5. reflexivity.
    + simpl. rewrite K5. reflexivity.
  - right. exists r, files. split; [reflexivity|]. split; [reflexivity|].
    split; [|reflexivity]. exists t1, t2, t3, t4, t5.
    repeat (split; [first [reflexivity|assumption]|]). assumption.
Qed.

(** A build whose steps go through calls [setup]. *)
Lemma build_reaches_setup (a : arguments) (bs : BuildSupport) (version : str)
    (st : state) (r : str * BuildSupport) (files : list str) :
  swig_only a = false ->
  steps_to_setup h a bs version st r files ->
  setups (build h a bs version false st).2
  = setups st ++ [setup_of version (fai_python_ext r.2 r.1) files].
Proof.
  intros Hso (s1 & s2 & s3 & s4 & s5 & E1 & E2 & E3 & E4 & E5).
  pose proof (steps_keep_setups _ _ _ _ _ _ _ _ _ _ _ E1 E2 E3 E4 E5) as Hs.
  unfold build. unfold_M. cbn [negb andb].
  change ((if rebuild_doxygen a
             then call h "python scripts/builddoxy2swig/builddoxygen.py"
             else fun st0 => (Ok tt, st0)) st) with (rebuild h a st).
  rewrite E1, E2, E3, Hso, E4, E5.
  fold (setup_of version (fai_python_ext r.2 r.1) files).
  unfold setup at 1.
  destruct (setuptools h _ (fs s5)) as [[[]|e] t6].
  - destruct (generate_python_doc a); [rewrite kept_call|]; simpl; now rewrite Hs.
  - simpl. now rewrite Hs.
Qed.

(** The same of a run, from the instance on. *)
Lemma run_trace (a : arguments) (bs : BuildSupport) (st : state) :
  let bs' := if pp_debug a then use_debug_configuration bs else bs in
  exists new,
    setups (run h a bs st).2 = setups st ++ new
    /\ (new = []
        \/ exists dv s0 r files,
             get_version h st = (Ok dv, s0)
             /\ contains "clean" (remainder a) = false
             /\ help_mode a = false /\ swig_only a = false
             /\ steps_to_setup h a bs' (version_of a dv) s0 r files
             /\ new = [setup_of (version_of a dv) (fai_python_ext r.2 r.1) files])
    /\ ((run h a bs st).1 = Ok tt -> new <> []).
Proof.
  intros bs'. unfold run. unfold_M.
  destruct (get_version h st) as [[dv|e] s0] eqn:E0.
  2:{ exists []. split; [|split; [now left|discriminate]]. simpl. rewrite app_nil_r.
      eapply kept_eq; [apply kept_get_version|exact E0]. }
  assert (K0 : setups s0 = setups st)
    by (eapply kept_eq; [apply kept_get_version|exact E0]).
  destruct (contains "clean" (remainder a)) eqn:Ec.
  - exists []. split; [|split; [now left|]].
    + rewrite app_nil_r.
      destruct (clean h "std" _ s0) as [[[]|e] s1] eqn:E1; simpl;
        rewrite <- K0; eapply kept_eq; try exact E1; apply kept_clean.
    + destruct (clean h "std" _ s0) as [[[]|e] s1]; discriminate.
  - fold (help_mode a). fold (version_of a dv). fold bs'.
    destruct (build_trace a bs' (version_of a dv) (help_mode a) s0)
      as (new & Hnew & Hshape & Hok).
    exists new. split; [now rewrite Hnew, K0|]. split; [|exact Hok].
    destruct Hshape as [-> |(r & files & Hh & Hso & Hsteps & ->)]; [now left|right].
    exists dv, s0, r, files. auto 10.
Qed.

Lemma run_reaches_setup (a : arguments) (bs : BuildSupport) (st s0 : state)
    (dv : str) (r : str * BuildSupport) (files : list str) :
  let bs' := if pp_debug a then use_debug_configuration bs else bs in
  get_version h st = (Ok dv, s0) ->
  contains "clean" (remainder a) = false ->
  help_mode a = false -> swig_only a = false ->
  steps_to_setup h a bs' (version_of a dv) s0 r files ->
  setups (run h a bs st).2
  = setups st ++ [setup_of (version_of a dv) (fai_python_ext r.2 r.1) files].
Proof.
  intros bs' E0 Ec Hh Hso Hsteps. unfold run. unfold_M. rewrite E0, Ec.
  fold (help_mode a). fold (version_of a dv). fold bs'. rewrite Hh.
  rewrite (build_reaches_setup _ _ _ _ _ _ Hso Hsteps).
  f_equal. eapply kept_eq; [apply kept_get_version|exact E0].
Qed.

End Debug.


(** A run with [--pp-debug] that gets as far as [setup]. *)
Example debug_run_reaches_setup :
  let out := run windows64 debug_arguments windows_profile (state_of windows_tree) in
  out.1 = Ok tt
  /\ map Setuptools.version (setups out.2) = ["1.0_dbg" : str]
  /\ map (fun c => map extra_compile_args (ext_modules c)) (setups out.2)
     = [[["/Gy" : str; "/GL" : str; "/EHsc" : str; "/I/sdk/include" : str;
          "/permissive-" : str; "/Od" : str; "/Zi" : str]]]
  /\ map (fun c => map extra_link_args (ext_modules c)) (setups out.2)
     = [[["/OPT:REF" : str; "/OPT:ICF" : str; "/LTCG" : str; "/DEBUG" : str]]].
Proof. vm_compute. repeat split; reflexivity. Qed.

End DebugFacts.

(** ** Staging of the runtime *)

Module StagingFacts.

Import Basics Outcome Example.

Section Staging.

Variable h : host.

(** A loop whose body raises on one of the items never comes to its
    end. *)
Lemma for_each_raises {A} (xs : list A) (body : A -> M unit) (x0 : A) :
  In x0 xs ->
  (forall st, exists e, body x0 st = (Raise e, st)) ->
  forall st, exists e st', for_each xs body st = (Raise e, st').
Proof.
  intros Hin Hbody. induction xs as [|x xs IH]; [destruct Hin|].
  intros st. simpl. unfold_M.
  destruct (body x st) as [[[]|e] st1] eqn:E; [|eauto].
  destruct Hin as [-> |Hin].
  - destruct (Hbody st) as (e & He). rewrite He in E. discriminate.
  - apply IH. exact Hin.
Qed.

(** The Linux manifest has no entry for [libDemosaic], which is deployed
    by default: the Linux [copy_runtime] raises, whatever the order of
    the iteration. *)
Lemma copy_runtime_linux_raises (swig : option str) (st : state) :
  In ("libDemosaic" : str) (set_order h) ->
  exists e st', copy_runtime h (linux_instance h swig) st = (Raise e, st').
Proof.
  intros Hin. unfold copy_runtime. cbn [class_of linux_instance].
  unfold copy_runtime_linux.
  eapply for_each_raises; [exact Hin|].
  intros st0. exists (KeyError "libDemosaic"). reflexivity.
Qed.

End Staging.

End StagingFacts.

(** ** Enumeration of the package data *)

Module EnumerateFacts.

Import Basics Tree FSFacts SwigFacts.

(** *** Path names built with [os.path.join] *)

Lemma split_nonempty (sep : ascii) (s : str) : split sep s <> [].
Proof.
  induction s as [|c s IH]; simpl; [discriminate|].
  destruct (Ascii.eqb c sep); [discriminate|].
  destruct (split sep s); discriminate.
Qed.

Lemma split_app (sep : ascii) (a b : str) :
  split sep (a ++ sep :: b) = split sep a ++ split sep b.
Proof.
  induction a as [|c a IH]; simpl.
  - rewrite Ascii.eqb_refl. reflexivity.
  - destruct (Ascii.eqb c sep); [now rewrite IH|].
    rewrite IH. pose proof (split_nonempty sep a) as Hne.
    destruct (split sep a) as [|w ws]; [congruence|reflexivity].
Qed.

Lemma legal_name_step (stack : list str) (n : str) :
  legal_name n -> norm_step stack n = stack ++ [n].
Proof.
  intros (H1 & H2 & H3 & _). unfold norm_step.
  rewrite !str_eqb_false by assumption. reflexivity.
Qed.

Lemma legal_name_no_slash (n : str) :
  legal_name n -> starts_with_slash n = false /\ ends_with_slash n = false.
Proof.
  intros (H1 & _ & _ & H4). split.
  - destruct n as [|c n]; [reflexivity|]. simpl.
    apply Ascii.eqb_neq. intros ->. apply H4. now left.
  - unfold ends_with_slash. destruct (rev n) as [|c r] eqn:E; [reflexivity|].
    apply Ascii.eqb_neq. intros ->. apply H4.
    apply in_rev. rewrite E. now left.
Qed.

Lemma ends_with_slash_app (a b : str) :
  b <> [] -> ends_with_slash (a ++ b) = ends_with_slash b.
Proof.
  intros Hb. unfold ends_with_slash. rewrite rev_app_distr.
  destruct (rev b) as [|c r] eqn:E; [|reflexivity].
  apply (f_equal (@rev ascii)) in E. rewrite rev_involutive in E. contradiction.
Qed.

Section Paths.

Variable h : host.

(** Joining a legal name to a path adds one component. *)
Lemma join_plain (p n : str) :
  plain p -> legal_name n ->
  plain (path_join p n)
  /\ resolve (cwd h) (path_join p n) = resolve (cwd h) p ++ [n].
Proof.
  intros [Hne Hend] Hn.
  destruct (legal_name_no_slash n Hn) as [Hs He].
  assert (Hj : path_join p n = p ++ "/"%char :: n).
  { unfold path_join. rewrite Hs, Hend, str_eqb_false by assumption. reflexivity. }
  rewrite Hj. split.
  - split; [destruct p; discriminate|].
    change (p ++ "/"%char :: n) with (p ++ ["/"%char] ++ n).
    rewrite app_assoc, ends_with_slash_app; [exact He|]. apply Hn.
  - unfold resolve. rewrite split_app, fold_left_app.
    replace (starts_with_slash (p ++ "/"%char :: n)) with (starts_with_slash p)
      by (destruct p; [congruence|reflexivity]).
    rewrite (split_no_sep "/" n) by apply Hn. simpl.
    now apply legal_name_step.
Qed.

Lemma join_all_plain (ns : list str) (p : str) :
  plain p -> Forall legal_name ns ->
  plain (fold_left path_join ns p)
  /\ resolve (cwd h) (fold_left path_join ns p) = resolve (cwd h) p ++ ns.
Proof.
  intros Hp Hns. revert p Hp.
  induction Hns as [|n ns Hn Hns IH]; intros p Hp; simpl.
  - rewrite app_nil_r. auto.
  - destruct (join_plain p n Hp Hn) as [Hp' Hr].
    destruct (IH _ Hp') as [Hp'' Hr'].
    split; [assumption|]. rewrite Hr', Hr, <- app_assoc. reflexivity.
Qed.

Lemma common_prefix_length_app (l r : list str) :
  common_prefix_length l (l ++ r) = length l.
Proof.
  induction l as [|x l IH]; simpl; [reflexivity|].
  rewrite str_eqb_refl, IH. reflexivity.
Qed.

(** The path relative to a directory of something below it. *)
Lemma relpath_below (p start : str) (rest : list str) :
  rest <> [] ->
  resolve (cwd h) p = resolve (cwd h) start ++ rest ->
  relpath h p start = join "/" rest.
Proof.
  intros Hne Hp. unfold relpath. rewrite Hp, common_prefix_length_app.
  rewrite Nat.sub_diag, skipn_app, skipn_all, Nat.sub_diag. simpl.
  destruct rest; [congruence|reflexivity].
Qed.

End Paths.

(** *** Trees *)

Lemma assoc_In (n : str) (es : list (str * node)) (t : node) :
  assoc n es = Some t -> In (n, t) es.
Proof.
  induction es as [|[k v] es IH]; simpl; [discriminate|].
  destruct (str_eqb k n) eqn:E.
  - apply str_eqb_eq in E. subst k. intros [= ->]. now left.
  - intros H. right. now apply IH.
Qed.

Lemma In_assoc (n : str) (es : list (str * node)) :
  In n (map fst es) -> exists t, assoc n es = Some t.
Proof.
  induction es as [|[k v] es IH]; simpl; [intros []|].
  destruct (str_eqb k n) eqn:E; [eauto|].
  intros [->|H]; [|auto]. rewrite str_eqb_refl in E. discriminate.
Qed.

Lemma legal_lookup (t : node) (rest : list str) (x : node) :
  legal t -> lookup t rest = Some x -> Forall legal_name rest /\ legal x.
Proof.
  revert t. induction rest as [|n rest IH]; intros t Ht; simpl.
  - intros [= ->]. auto.
  - destruct t as [data|es]; [discriminate|].
    destruct (assoc n es) as [t'|] eqn:E; [|discriminate].
    apply assoc_In in E. inversion Ht as [|? Hn Hl]; subst.
    intros H. destruct (IH t' (Hl _ _ E) H) as [Hrest Hx].
    split; [constructor; eauto|assumption].
Qed.

Lemma walk_node_Dir (root : str) (es : list (str * node)) :
  walk_node root (Dir es)
  = (root,
     map fst (List.filter (fun e : str * node => is_dir e.2) es),
     map fst (List.filter (fun e : str * node => negb (is_dir e.2)) es))
    :: below root es walk_node.
Proof.
  simpl. f_equal. induction es as [|[n t] es IH]; simpl; [reflexivity|].
  now rewrite IH.
Qed.

Lemma in_below (root : str) (es : list (str * node)) (n : str) (t : node) x :
  In (n, t) es -> In x (walk_node (path_join root n) t) ->
  In x (below root es walk_node).
Proof.
  induction es as [|e es IH]; simpl; [intros []|].
  intros [->|H] Hx; apply in_or_app; [left; exact Hx|right; auto].
Qed.

(** [os.walk] reports every file, with the directory it is in. *)
Lemma walk_node_finds (rest : list str) (t : node) (root : str) (data : str) :
  rest <> [] -> lookup t rest = Some (File data) ->
  exists ds fs,
    In (fold_left path_join (removelast rest) root, ds, fs) (walk_node root t)
    /\ In (List.last rest []) fs.
Proof.
  revert t root. induction rest as [|n rest IH]; intros t root Hne H; [congruence|].
  simpl in H. destruct t as [d|es]; [discriminate|].
  destruct (assoc n es) as [t'|] eqn:E; [|discriminate].
  apply assoc_In in E. rewrite walk_node_Dir.
  destruct rest as [|m rest].
  - simpl in H. inversion H; subst t'. do 2 eexists. split; [left; reflexivity|].
    simpl. apply in_map_iff. exists (n, File data). split; [reflexivity|].
    apply filter_In. auto.
  - destruct (IH t' (path_join root n)) as (ds & fs & Hin & Hlast);
      [discriminate|exact H|].
    exists ds, fs. split; [|exact Hlast].
    right. eapply in_below; [exact E|]. exact Hin.
Qed.

Section Enumerate.

Variable h : host.

Lemma PackageDir_plain : plain PackageDir.
Proof. split; [discriminate|reflexivity]. Qed.

Lemma in_bind {A B} (f : A -> list B) (l : list A) (x : A) (y : B) :
  In x l -> In y (f x) -> In y (l ≫= f).
Proof.
  intros Hx Hy. apply list_elem_of_In. apply list_elem_of_bind.
  exists x. split; apply list_elem_of_In; assumption.
Qed.

(** What [files_below] holds for a directory [d] of the package
    directory: every file under it, relative to the package directory. *)
Lemma files_below_finds (t : node) (pkg : list (str * node)) (d : str)
    (rest : list str) (data : str) :
  node_at h t PackageDir = Some (Dir pkg) -> legal (Dir pkg) ->
  rest <> [] -> lookup (Dir pkg) (d :: rest) = Some (File data) ->
  In (join "/" (d :: rest)) (files_below h t (path_join PackageDir d)).
Proof.
  intros Hpkg Hlegal Hne Hfile.
  destruct (legal_lookup _ _ _ Hlegal Hfile) as [Hnames _].
  inversion Hnames as [|? ? Hd Hrest]; subst.
  destruct (join_plain h PackageDir d PackageDir_plain Hd) as [Hpd Hrd].
  simpl in Hfile. destruct (assoc d pkg) as [t'|] eqn:E; [|discriminate].
  assert (Ht' : node_at h t (path_join PackageDir d) = Some t').
  { unfold node_at in *. rewrite Hrd, lookup_app, Hpkg. simpl. now rewrite E. }
  destruct (walk_node_finds rest t' (path_join PackageDir d) data Hne Hfile)
    as (ds & fs & Hin & Hlast).
  unfold files_below, walk. rewrite Ht'.
  remember (join "/" (d :: rest)) as target eqn:Htarget.
  eapply in_bind; [exact Hin|]. simpl.
  eapply in_bind; [exact Hlast|]. left. subst target.
  apply relpath_below; [discriminate|].
  assert (Hsplit : rest = removelast rest ++ [List.last rest []])
    by (now apply app_removelast_last).
  assert (Hall : Forall legal_name (removelast rest ++ [List.last rest []]))
    by (now rewrite <- Hsplit).
  apply Forall_app in Hall. destruct Hall as [Hdirs Hlastn].
  inversion Hlastn; subst.
  destruct (join_all_plain h (removelast rest) _ Hpd Hdirs) as [Hp' Hr'].
  destruct (join_plain h _ (List.last rest []) Hp' H1) as [_ Hr''].
  rewrite Hr'', Hr', Hrd. rewrite <- !app_assoc. simpl.
  rewrite <- Hsplit. reflexivity.
Qed.

Lemma data_files_of_ok (t : node) (pkg : list (str * node)) (entries : list str) :
  node_at h t PackageDir = Some (Dir pkg) -> legal (Dir pkg) ->
  (forall n, In n entries -> In n (map fst pkg)) ->
  exists found,
    data_files_of h t PackageDir entries = Ok found
    /\ forall n t' f,
         In n entries -> assoc n pkg = Some t' -> is_dir t' = true ->
         In f (files_below h t (path_join PackageDir n)) -> In f found.
Proof.
  intros Hpkg Hlegal. induction entries as [|e entries IH]; intros Hsub.
  - exists []. split; [reflexivity|]. intros ? ? ? [].
  - destruct IH as (more & Hmore & Hin); [intros; apply Hsub; now right|].
    destruct (In_assoc e pkg) as (te & Hte); [apply Hsub; now left|].
    assert (Hname : legal_name e).
    { inversion Hlegal as [|? Hn _]; subst. eapply Hn. eapply assoc_In, Hte. }
    destruct (join_plain h PackageDir e PackageDir_plain Hname) as [_ Hre].
    assert (Hnode : node_at h t (path_join PackageDir e) = Some te).
    { unfold node_at in *. rewrite Hre, lookup_app, Hpkg. simpl. now rewrite Hte. }
    simpl. rewrite Hnode, Hmore. simpl.
    eexists. split; [reflexivity|].
    intros n t' f [->|Hn] Ha Hd Hf; apply in_or_app.
    + left. rewrite Hte in Ha. inversion Ha; subst. rewrite Hd. exact Hf.
    + right. eapply Hin; eauto.
Qed.

End Enumerate.

End EnumerateFacts.

(** * The claims *)

Import Basics ReSpec Shape ReFacts GitFacts Outcome PlatformFacts SwigFacts Tree FSFacts
  CleanFacts DebugFacts StagingFacts EnumerateFacts Example Cases.

(** C1 (as amended).  For every output of [git describe], possibly
    followed by white space: an exact release tag (three or four numbers
    separated by dots, optionally followed by [a], [b] or [rc] and digits)
    is returned unchanged; a tag followed by a commit distance and a hash
    in lower-case hexadecimal digits, with or without [-dirty], becomes
    the tag, [.dev] and the distance; a tag followed by [-dirty] alone
    becomes the tag and [.dev0]. *)
Theorem C1_describe_to_version
    (base dist hx dsuf pad : str) (now : datetime) :
  release_tag base -> digits dist -> lower_hex_digits hx ->
  dsuf = [] \/ dsuf = "-dirty" -> blanks pad ->
  get_git_version (Ok (base ++ pad)) now = Ok base
  /\ get_git_version (Ok (base ++ "-" ++ dist ++ "-g" ++ hx ++ dsuf ++ pad)) now
     = Ok (base ++ ".dev" ++ dist)
  /\ get_git_version (Ok (base ++ "-dirty" ++ pad)) now = Ok (base ++ ".dev0").
Proof.
  intros Hb Hd Hh Hsuf Hpad. unfold get_git_version.
  pose proof (release_tag_no_space _ Hb) as Hbns.
  split; [|split].
  - rewrite describe_release; auto.
    exists ∅, []. now apply rx_release_match.
  - set (tail := "-" ++ dist ++ "-g" ++ hx ++ dsuf).
    assert (Heq : base ++ "-" ++ dist ++ "-g" ++ hx ++ dsuf ++ pad
                  = (base ++ tail) ++ pad)
      by (unfold tail; repeat rewrite <- app_assoc; reflexivity).
    rewrite Heq. clear Heq.
    destruct (digits_head _ Hd) as (x & dist' & Hdist & Hx).
    rewrite (describe_development (base ++ tail) pad base dist).
    + reflexivity.
    + apply Forall_app. split; [assumption|]. unfold tail.
      destruct Hd as [_ Hd]. destruct Hh as [_ Hh].
      simpl. constructor; [reflexivity|].
      apply Forall_app. split.
      { exact (Forall_no_space _ _ digit_not_space Hd). }
      constructor; [reflexivity|]. constructor; [reflexivity|].
      apply Forall_app. split.
      { exact (Forall_no_space _ _ hex_not_space Hh). }
      destruct Hsuf as [-> | ->]; simpl; repeat constructor.
    + assumption.
    + apply (no_release_match base tail x (dist' ++ "-g" ++ hx ++ dsuf)); auto.
      unfold tail. rewrite Hdist. reflexivity.
    + destruct (tail_distance_match (length (base ++ tail)) dist hx dsuf
                  (<[1%nat := firstn (length (base ++ tail) - length tail) (base ++ tail)]> ∅)
                  Hd Hh Hsuf) as (c' & Hc').
      exists c', []. now apply rx_git_ver_match.
    + intros c' s' H. apply rx_git_ver_inv in H; [|assumption|simpl; discriminate].
      apply tail_distance_inv in H; [|assumption|assumption]. subst c'.
      unfold group. rewrite lookup_insert_ne by discriminate.
      rewrite !lookup_insert_eq. split; [reflexivity|].
      now apply fmt_s_or_0_digits.
  - rewrite (app_assoc base "-dirty" pad).
    rewrite (describe_development (base ++ "-dirty") pad base "0").
    + reflexivity.
    + apply Forall_app. split; [assumption|]. simpl. repeat constructor.
    + assumption.
    + apply (no_release_match base "-dirty" "d" "irty"); auto.
    + eexists _, []. apply rx_git_ver_match; [assumption|]. apply tail_dirty_match.
    + intros c' s' H. apply rx_git_ver_inv in H; [|assumption|simpl; discriminate].
      apply tail_dirty_inv in H. subst c'.
      unfold group. rewrite lookup_insert_eq.
      rewrite lookup_insert_ne by discriminate. rewrite lookup_empty. auto.
Qed.

Lemma C1_describe_to_version_witness :
  get_git_version (Ok ("1.2.3" ++ nl)) clock0 = Ok ("1.2.3" : str)
  /\ get_git_version (Ok ("1.2.3" ++ "-" ++ "14" ++ "-g" ++ "abcdef" ++ "-dirty" ++ nl)) clock0
     = Ok ("1.2.3" ++ ".dev" ++ "14")
  /\ get_git_version (Ok ("1.2.3" ++ "-dirty" ++ nl)) clock0 = Ok ("1.2.3" ++ ".dev0").
Proof.
  apply (C1_describe_to_version "1.2.3" "14" "abcdef" "-dirty" nl clock0).
  - apply (release_3 "1" "2" "3" []); try (split; [discriminate|repeat constructor]).
    constructor.
  - split; [discriminate|repeat constructor].
  - split; [discriminate|repeat constructor].
  - right. reflexivity.
  - repeat constructor.
Defined.

(** C1, as stated, fails on its own example: the hash of
    ["1.2.3-14-gABCDEF"] is in upper case, which the pattern of the
    development version does not admit, so the version is built from the
    date. *)
Lemma C1_upper_case_hash_counterexample :
  get_git_version (Ok ("1.2.3-14-gABCDEF" : str)) clock0 = Ok ("2024.3.7.dev3723" : str)
  /\ get_git_version (Ok ("1.2.3-14-gABCDEF" : str)) clock0 <> Ok ("1.2.3.dev14" : str).
Proof. split; [vm_compute; reflexivity|vm_compute; discriminate]. Qed.

(** C4.  When the output of [git describe], stripped, matches neither the
    pattern of a release nor the pattern of a development version, and
    likewise when the query raises [CalledProcessError] or an [OSError]
    ([git] missing), [get_git_version] returns
    [<year>.<month>.<day>.dev<seconds>] in decimal without padding; the
    seconds are those since midnight, [hour*3600 + minute*60 + second];
    the result depends on the clock reading only. *)
Theorem C4_date_fallback (git : result str) (now : datetime) :
  match git with
  | Ok out =>
      re_match rx_release (strip out) = None
      /\ re_match rx_git_ver (strip out) = None
  | Raise e => e = CalledProcessError \/ is_OSError e = true
  end ->
  valid_time now ->
  get_git_version git now
  = Ok (fmt_d (year now) ++ "." ++ fmt_d (month now) ++ "." ++ fmt_d (day now)
        ++ ".dev" ++ fmt_d (hour now * 3600 + minute now * 60 + second now)%N)
  /\ get_git_version git now = get_git_version (Raise FileNotFoundError) now.
Proof.
  intros Hgit (Hh & Hm & Hs & Hus).
  assert (Hsec : todays_seconds now
                 = (hour now * 3600 + minute now * 60 + second now)%N).
  { unfold todays_seconds. rewrite (N.div_small (microsecond now)) by assumption.
    rewrite N.add_0_r. apply N.mod_small. lia. }
  assert (Hfall : get_git_version git now = Ok (date_version now)).
  { unfold get_git_version. destruct git as [out|e]; simpl.
    - destruct Hgit as [-> ->]. reflexivity.
    - destruct Hgit as [-> |He]; [reflexivity|].
      unfold caught. rewrite He. reflexivity. }
  split; [|rewrite Hfall; reflexivity].
  rewrite Hfall. unfold date_version. rewrite Hsec. reflexivity.
Qed.

Lemma C4_date_fallback_witness :
  get_git_version (Ok ("v1.2.3-rc1" ++ nl)) clock0 = Ok ("2024.3.7.dev3723" : str)
  /\ get_git_version (Ok ("v1.2.3-rc1" ++ nl)) clock0
     = get_git_version (Raise FileNotFoundError) clock0.
Proof.
  apply (C4_date_fallback (Ok ("v1.2.3-rc1" ++ nl)) clock0).
  - split; vm_compute; reflexivity.
  - vm_compute. repeat split; reflexivity.
Defined.

(** C2 (as amended).  For every host: on Windows and on Linux, with
    either pointer width, [BinPath] is found and [make] returns what the
    constructor of the matching class gives, an instance of that class
    with its runtime manifest whenever there is one; on Darwin with 64
    bits [BinPath] is found but [make] selects no profile, it returns
    [None], and the script stops at the first use of the instance; for
    every other pair the lookup of [BinPath] raises [KeyError] and the
    script ends there. *)
Theorem C2_profile_selection (h : host) (a : arguments) (st : state) :
  let p := get_platform h in
  let w := get_machinewidth h in
  (p = "Windows" ->
     BinPath h = Ok (if (w =? 32)%Z then "Win32" : str else "x64")
     /\ make h st = made (BuildSupportWindows_init h st)
     /\ forall bs st', make h st = (Ok (Some bs), st') ->
          class_of bs = BuildSupportWindows
          /\ RuntimeFiles bs = Windows.RuntimeFiles)
  /\ (p = "Linux" ->
     BinPath h = Ok (if (w =? 32)%Z then "lib" : str else "lib64")
     /\ make h st = made (BuildSupportLinux_init h st)
     /\ forall bs st', make h st = (Ok (Some bs), st') ->
          class_of bs = BuildSupportLinux
          /\ RuntimeFiles bs = Linux.RuntimeFiles)
  /\ (p = "Darwin" -> w = 64%Z ->
     BinPath h = Ok ("lib64" : str)
     /\ make h st = (Ok None, st)
     /\ main h a st = (Raise AttributeError, st))
  /\ (p <> "Windows" -> p <> "Linux" -> ~ (p = "Darwin" /\ w = 64%Z) ->
     BinPath h = Raise (KeyErrorPair (p, w))
     /\ main h a st = (Raise (KeyErrorPair (p, w)), st)).
Proof.
  intros p w. subst p w. repeat split.
  - destruct (machinewidth_cases h) as [Hw|Hw]; rewrite Hw;
      eapply BinPath_supported; eauto.
  - unfold make. rewrite H. rewrite str_eqb_true by reflexivity. unfold_M.
    destruct (BuildSupportWindows_init h st) as [[bs|e] st1]; reflexivity.
  - revert H0. unfold make. rewrite H. rewrite str_eqb_true by reflexivity.
    unfold_M. destruct (BuildSupportWindows_init h st) as [[bs1|e] st1] eqn:E;
      [|discriminate].
    intros [= <- <-]. eapply Windows_init_class; eauto.
  - revert H0. unfold make. rewrite H. rewrite str_eqb_true by reflexivity.
    unfold_M. destruct (BuildSupportWindows_init h st) as [[bs1|e] st1] eqn:E;
      [|discriminate].
    intros [= <- <-]. eapply Windows_init_class; eauto.
  - destruct (machinewidth_cases h) as [Hw|Hw]; rewrite Hw;
      eapply BinPath_supported; eauto.
  - unfold make. rewrite H. rewrite str_eqb_false by discriminate.
    rewrite str_eqb_true by reflexivity. unfold_M.
    destruct (BuildSupportLinux_init h st) as [[bs|e] st1]; reflexivity.
  - revert H0. unfold make. rewrite H. rewrite str_eqb_false by discriminate.
    rewrite str_eqb_true by reflexivity.
    unfold_M. destruct (BuildSupportLinux_init h st) as [[bs1|e] st1] eqn:E;
      [|discriminate].
    intros [= <- <-]. eapply Linux_init_class; eauto.
  - revert H0. unfold make. rewrite H. rewrite str_eqb_false by discriminate.
    rewrite str_eqb_true by reflexivity.
    unfold_M. destruct (BuildSupportLinux_init h st) as [[bs1|e] st1] eqn:E;
      [|discriminate].
    intros [= <- <-]. eapply Linux_init_class; eauto.
  - eapply BinPath_supported; eauto.
  - unfold make. rewrite H. rewrite !str_eqb_false by discriminate. reflexivity.
  - unfold main. unfold_M.
    rewrite (BinPath_supported h "Darwin" 64 "lib64") by auto.
    unfold make. rewrite H. rewrite !str_eqb_false by discriminate. reflexivity.
  - now apply BinPath_unsupported.
  - unfold main. unfold_M. rewrite BinPath_unsupported by assumption. reflexivity.
Qed.

Lemma C2_profile_selection_witness :
  BinPath (bare_host "Linux" 9223372036854775807 []) = Ok ("lib64" : str)
  /\ make (bare_host "Darwin" 9223372036854775807 []) (state_of (Dir []))
     = (Ok None, state_of (Dir [])).
Proof.
  split.
  - pose proof (C2_profile_selection (bare_host "Linux" 9223372036854775807 [])
                  no_arguments (state_of (Dir []))) as H.
    cbv zeta in H. destruct H as (_ & H & _).
    destruct H as (H & _); [reflexivity|exact H].
  - pose proof (C2_profile_selection (bare_host "Darwin" 9223372036854775807 [])
                  no_arguments (state_of (Dir []))) as H.
    cbv zeta in H. destruct H as (_ & _ & H & _).
    destruct H as (_ & H & _); [reflexivity|reflexivity|exact H].
Defined.

(** C2, as stated, fails for Darwin with 64 bits: the pair is a key of
    [BinPath], yet [make] returns [None] and not a profile. *)
Lemma C2_darwin_counterexample :
  BinPath (bare_host "Darwin" 9223372036854775807 []) = Ok ("lib64" : str)
  /\ make (bare_host "Darwin" 9223372036854775807 []) (state_of (Dir []))
     = (Ok None, state_of (Dir []))
  /\ main (bare_host "Darwin" 9223372036854775807 []) no_arguments (state_of (Dir []))
     = (Raise AttributeError, state_of (Dir [])).
Proof. repeat split; vm_compute; reflexivity. Qed.




(** C9.  [is_supported_swig_version] called with [None] returns [False]:
    no exception, no child process, nothing changed. *)
Theorem C9_none_is_not_supported (h : host) (st : state) :
  is_supported_swig_version h None st = (Ok false, st)
  /\ spawned (is_supported_swig_version h None st).2 = spawned st.
Proof. split; reflexivity. Qed.

(** C10.  [clean] called with mode [skip] returns at once: the file
    system, whatever directories are passed along, and the rest of the
    state are as they were. *)
Theorem C10_clean_skip (h : host) (additional_dirs : option (list str)) (st : state) :
  clean h "skip" additional_dirs st = (Ok tt, st).
Proof. reflexivity. Qed.

(** C5.  When [clean] is among the arguments left for [setup], and none
    of the five paths is a regular file, the script removes the generated
    directory, the package directory, [build], [FAI_python.egg-info] and
    [dist], so that none of them exists afterwards, and exits with status
    0; the only child started is the query of the version, and [setup] is
    not called.  [clean] in mode [keep], in a working directory that
    exists, leaves the generated directory and the package directory
    empty. *)
Theorem C5_clean (h : host) (a : arguments) (bs : BuildSupport)
    (st st1 : state) (v : str) :
  contains "clean" (remainder a) = true ->
  get_version h st = (Ok v, st1) ->
  Forall (fun p => ~ plain_file (node_at h (fs st1) p)) clean_paths ->
  (exists st',
     run h a bs st = (Raise (SystemExit 0), st')
     /\ Forall (fun p => node_at h (fs st') p = None) clean_paths
     /\ spawned st' = spawned st ++ [git_describe]
     /\ setups st' = setups st)
  /\ (forall st0,
        (exists es, lookup (fs st0) (cwd h) = Some (Dir es)) ->
        ~ plain_file (node_at h (fs st0) GeneratedDir) ->
        ~ plain_file (node_at h (fs st0) PackageDir) ->
        exists st',
          clean h "keep" None st0 = (Ok tt, st')
          /\ node_at h (fs st') GeneratedDir = Some (Dir [])
          /\ node_at h (fs st') PackageDir = Some (Dir [])
          /\ spawned st' = spawned st0 /\ setups st' = setups st0).
Proof.
  intros Hclean Hver Hfiles. split.
  - destruct (clean_std h st1) as (st' & Hc & Hsp & Hse & Hlook).
    destruct (get_version_state _ _ _ _ Hver) as [Hsp1 Hse1].
    exists st'. split; [|split; [|split]].
    + unfold run. unfold_M. rewrite Hver. rewrite Hclean. rewrite Hc. reflexivity.
    + assert (Hone : forall p n : str,
                resolve (cwd h) p = cwd h ++ [n] ->
                contains n ["generated" : str; "FAI_python" : str; "build" : str;
                            "FAI_python.egg-info" : str; "dist" : str] = true ->
                ~ plain_file (node_at h (fs st1) p) ->
                node_at h (fs st') p = None).
      { intros p n Hp Hn Hf.
        rewrite (node_at_cwd h (fs st1) p n Hp) in Hf.
        rewrite (node_at_cwd h (fs st') p n Hp).
        rewrite Hlook, Hn. now apply cleared_not_file. }
      unfold clean_paths in *.
      repeat match goal with
             | H : Forall _ (_ :: _) |- _ => inversion H; clear H; subst
             end.
      repeat (constructor; [eapply Hone; [reflexivity|reflexivity|assumption]|]).
      constructor.
    + congruence.
    + congruence.
  - intros st0 Hdir Hg Hp.
    destruct (clean_keep h st0) as (st' & Hc & Hsp & Hse & Hg' & Hp' & _).
    + exact Hdir.
    + exact Hg.
    + exact Hp.
    + exists st'. repeat split; assumption.
Qed.

Lemma C5_clean_witness :
  exists st',
    run linux64 clean_arguments (linux_instance linux64 (Some ("/usr/bin/swig" : str)))
      (state_of tree0) = (Raise (SystemExit 0), st')
    /\ Forall (fun p => node_at linux64 (fs st') p = None) clean_paths
    /\ spawned st' = [git_describe]
    /\ setups st' = [].
Proof.
  destruct (C5_clean linux64 clean_arguments
              (linux_instance linux64 (Some ("/usr/bin/swig" : str)))
              (state_of tree0)
              (spawned_one (state_of tree0) git_describe tree0)
              "2024.3.7.dev3723") as [H _].
  - reflexivity.
  - reflexivity.
  - repeat constructor; vm_compute; tauto.
  - exact H.
Defined.

(** C8.  The debug configuration changes the flags of the compiler and of
    the linker of the active profile and nothing else: on Linux [-O3] and
    [-g0] are gone and [-O0], [-g3] stand at the end (for the linker:
    [-g0] gone, [-g3] at the end); on Windows [/Od], [/Zi] and [/DEBUG]
    are appended; macros, library directories, runtime manifest and the
    other fields are as before.  With [--pp-debug] the script gives
    [setup] the version, which is the value of [--pp-version] or else
    what the query of the version gave, with [_dbg] at its end, and one
    extension with the changed flags: the change comes before the
    extension is described.  A run calls [setup] at most once, with
    these; it has called it when it ends normally; and it does call it
    with these whenever the steps before [setup] go through. *)
Theorem C8_debug_configuration (h : host) (swig : option str)
    (a : arguments) (bs : BuildSupport) (st : state) :
  let root := RootDevDir (linux_instance h swig) in
  let lin := use_debug_configuration (linux_instance h swig) in
  (* Linux: the flags after the change *)
  ExtraCompileArgs lin
  = ["-Wno-unknown-pragmas" : str; "-fPIC" : str; "-Wall" : str;
     "-Wno-switch" : str; "-I" ++ root; "-I" ++ path_join root "include";
     "-O0" : str; "-g3" : str]
  /\ ExtraLinkArgs lin
     = ["-Wl,--enable-new-dtags" : str; "-Wl,-rpath,$ORIGIN" : str;
        "-L" ++ path_join root "lib/x64"; "-lrt" : str; "-lusb-1.0" : str;
        "-lfa_genapi_c" : str; "-lfacamera_c" : str; "-limage" : str;
        "-lGCBase_gcc48_v3_4" : str; "-g3" : str]
  /\ ~ In ("-O3" : str) (ExtraCompileArgs lin)
  /\ ~ In ("-g0" : str) (ExtraCompileArgs lin)
  /\ ~ In ("-g0" : str) (ExtraLinkArgs lin)
  (* Windows: three flags appended *)
  /\ (class_of bs = BuildSupportWindows ->
      ExtraCompileArgs (use_debug_configuration bs)
      = ExtraCompileArgs bs ++ ["/Od" : str; "/Zi" : str]
      /\ ExtraLinkArgs (use_debug_configuration bs)
         = ExtraLinkArgs bs ++ ["/DEBUG" : str])
  (* nothing else changes *)
  /\ (class_of (use_debug_configuration bs) = class_of bs
      /\ DefineMacros (use_debug_configuration bs) = DefineMacros bs
      /\ LibraryDirs (use_debug_configuration bs) = LibraryDirs bs
      /\ RuntimeFiles (use_debug_configuration bs) = RuntimeFiles bs
      /\ RuntimeFolders (use_debug_configuration bs) = RuntimeFolders bs
      /\ RootDevDir (use_debug_configuration bs) = RootDevDir bs
      /\ SwigExe (use_debug_configuration bs) = SwigExe bs
      /\ SwigOptions (use_debug_configuration bs) = SwigOptions bs
      /\ msvc_ver (use_debug_configuration bs) = msvc_ver bs)
  (* the script: the call of setup is given the changed flags and the
     version with its suffix *)
  /\ (pp_debug a = true ->
      let dbg := use_debug_configuration bs in
      (exists new,
         setups (run h a bs st).2 = setups st ++ new
         /\ (new = []
             \/ exists dv s0 r files,
                  let version := default dv (pp_version a) ++ "_dbg" in
                  let call := setup_of version (fai_python_ext r.2 r.1) files in
                  get_version h st = (Ok dv, s0)
                  /\ steps_to_setup h a dbg version s0 r files
                  /\ new = [call]
                  /\ built_with version (ExtraCompileArgs dbg) (ExtraLinkArgs dbg)
                       call)
         /\ ((run h a bs st).1 = Ok tt -> new <> []))
      /\ (forall dv s0 r files,
            let version := default dv (pp_version a) ++ "_dbg" in
            let call := setup_of version (fai_python_ext r.2 r.1) files in
            get_version h st = (Ok dv, s0) ->
            contains "clean" (remainder a) = false ->
            help_mode a = false -> swig_only a = false ->
            steps_to_setup h a dbg version s0 r files ->
            setups (run h a bs st).2 = setups st ++ [call]
            /\ built_with version (ExtraCompileArgs dbg) (ExtraLinkArgs dbg) call)).
Proof.
  intros root lin.
  assert (Hc : ExtraCompileArgs lin
    = ["-Wno-unknown-pragmas" : str; "-fPIC" : str; "-Wall" : str;
       "-Wno-switch" : str; "-I" ++ root; "-I" ++ path_join root "include";
       "-O0" : str; "-g3" : str]) by reflexivity.
  assert (Hl : ExtraLinkArgs lin
     = ["-Wl,--enable-new-dtags" : str; "-Wl,-rpath,$ORIGIN" : str;
        "-L" ++ path_join root "lib/x64"; "-lrt" : str; "-lusb-1.0" : str;
        "-lfa_genapi_c" : str; "-lfacamera_c" : str; "-limage" : str;
        "-lGCBase_gcc48_v3_4" : str; "-g3" : str]) by reflexivity.
  split; [exact Hc|]. split; [exact Hl|].
  split; [|split; [|split; [|split; [|split]]]].
  - rewrite Hc. simpl. intuition discriminate.
  - rewrite Hc. simpl. intuition discriminate.
  - rewrite Hl. simpl. intuition discriminate.
  - intros Hw. unfold use_debug_configuration. rewrite Hw. auto.
  - unfold use_debug_configuration. destruct bs as [[] ? ? ? ? ? ? ? ? ? ?];
      repeat split.
  - intros Hd dbg.
    assert (Hflags : forall dv s0 r files,
              steps_to_setup h a dbg (default dv (pp_version a) ++ "_dbg") s0 r files ->
              built_with (default dv (pp_version a) ++ "_dbg")
                (ExtraCompileArgs dbg) (ExtraLinkArgs dbg)
                (setup_of (default dv (pp_version a) ++ "_dbg")
                   (fai_python_ext r.2 r.1) files)).
    { intros dv s0 r files (s1 & s2 & s3 & s4 & s5 & _ & _ & E3 & _).
      destruct (call_swig_flags h _ _ _ _ _ _ _ _ E3) as [Hcf Hlf].
      split; [reflexivity|]. repeat constructor; assumption. }
    split.
    + destruct (run_trace h a bs st) as (new & Hnew & Hshape & Hok).
      exists new. split; [exact Hnew|]. split; [|exact Hok].
      destruct Hshape as [-> |(dv & s0 & r & files & E0 & _ & _ & _ & Hsteps & ->)];
        [now left|right].
      unfold version_of in *. rewrite Hd in *.
      exists dv, s0, r, files. cbv zeta.
      split; [exact E0|]. split; [exact Hsteps|]. split; [reflexivity|].
      now apply (Hflags dv s0).
    + intros dv s0 r files version call E0 Ec Hh Hso Hsteps. subst version call.
      split; [|now apply (Hflags dv s0)].
      pose proof (run_reaches_setup h a bs st s0 dv r files) as H.
      cbv zeta in H. unfold version_of in H. rewrite Hd in H.
      now apply H.
Qed.

Lemma C8_debug_configuration_witness :
  exists call,
    setups (run windows64 debug_arguments windows_profile (state_of windows_tree)).2
    = [] ++ [call]
    /\ built_with "1.0_dbg"
         (ExtraCompileArgs (use_debug_configuration windows_profile))
         (ExtraLinkArgs (use_debug_configuration windows_profile)) call.
Proof.
  pose proof (C8_debug_configuration windows64 None debug_arguments
                windows_profile (state_of windows_tree)) as H.
  cbv zeta in H. destruct H as (_ & _ & _ & _ & _ & _ & _ & H).
  destruct (H eq_refl) as [_ Hreached].
  edestruct Hreached as [Hcall Hbuilt].
  - vm_compute. reflexivity.
  - reflexivity.
  - reflexivity.
  - reflexivity.
  - unfold steps_to_setup. do 5 eexists.
    split; [vm_compute; reflexivity|].
    split; [vm_compute; reflexivity|].
    split; [vm_compute; reflexivity|].
    split; vm_compute; reflexivity.
  - eexists. split; [exact Hcall|exact Hbuilt].
Defined.

(** C7, on the code.  [base] is deployed by default and its Linux
    manifest has the entry [("libfacamera.so.*", "")], which matches
    [libfacamera.so.1] and [libfacamera.so.2] in the runtime directory;
    yet when the iteration of [RuntimeDefaultDeploy] meets [libDemosaic]
    first, for which the Linux manifest has no entry, [copy_runtime]
    raises [KeyError] and leaves the file system as it was: neither file
    is in the package directory.  Met last, the same [KeyError] ends the
    call after the copies. *)
Theorem C7_linux_copy_runtime_key_error :
  let h := bare_host "Linux" 9223372036854775807 demosaic_first in
  let st := state_of linux_tree in
  RuntimeDefaultDeploy
  = {[ "base" : str; "genicam" : str; "libpol" : str; "libDemosaic" : str ]}
  /\ Linux.RuntimeFiles !! ("libDemosaic" : str) = None
  /\ In ("libfacamera.so.*" : str, [] : str)
        (default [] (Linux.RuntimeFiles !! ("base" : str)))
  /\ glob h (fs st) "../lib/libfacamera.so.*"
     = ["../lib/libfacamera.so.1" : str; "../lib/libfacamera.so.2" : str]
  /\ copy_runtime h (linux_profile demosaic_first) st
     = (Raise (KeyError "libDemosaic"), st)
  /\ node_at h (fs st) "./FAI_python/libfacamera.so.1" = None
  /\ (copy_runtime (bare_host "Linux" 9223372036854775807 demosaic_last)
        (linux_profile demosaic_last) st).1
     = Raise (KeyError "libDemosaic").
Proof. cbv zeta. repeat split; vm_compute; auto. Qed.

(** C6 (as amended).  Whenever the package directory exists, with entries
    named as a file system names them, [get_package_data_files] returns a
    list that holds the four patterns [*.dll], [*.zip], [*.so], [*.so.*]
    and, for every file inside a sub-directory of the package directory,
    at any depth, the path of that file relative to the package
    directory. *)
Theorem C6_package_data_files (h : host) (st : state) (pkg : list (str * node)) :
  node_at h (fs st) PackageDir = Some (Dir pkg) ->
  legal (Dir pkg) ->
  exists files,
    get_package_data_files h st = (Ok files, st)
    /\ incl ["*.dll" : str; "*.zip" : str; "*.so" : str; "*.so.*" : str] files
    /\ forall (d : str) (rest : list str) (data : str),
         rest <> [] ->
         lookup (Dir pkg) (d :: rest) = Some (File data) ->
         In (join "/" (d :: rest)) files.
Proof.
  intros Hpkg Hlegal.
  destruct (data_files_of_ok h (fs st) pkg (map fst pkg) Hpkg Hlegal)
    as (found & Hfound & Hin); [auto|].
  exists (package_globs ++ found). split; [|split].
  - unfold get_package_data_files, get_fs, listdir. unfold_M.
    rewrite Hpkg. simpl. rewrite Hfound. reflexivity.
  - intros g Hg. apply in_or_app. left. exact Hg.
  - intros d rest data Hne Hfile. apply in_or_app. right.
    pose proof Hfile as Hf. simpl in Hf.
    destruct (assoc d pkg) as [t'|] eqn:E; [|discriminate].
    eapply (Hin d t').
    + apply in_map_iff. exists (d, t'). split; [reflexivity|]. now apply assoc_In.
    + exact E.
    + destruct t'; [destruct rest; [congruence|discriminate]|reflexivity].
    + eapply files_below_finds; eauto.
Qed.

Ltac legal_tree :=
  repeat first
    [ apply legal_file
    | apply legal_dir;
      intros ? ? Hin; simpl in Hin;
      repeat (destruct Hin as [Hin|Hin]; [inversion Hin; subst; clear Hin|]);
      try contradiction
    | match goal with
      | |- legal_name _ => repeat split; try discriminate; simpl; intuition discriminate
      end ].

Lemma C6_package_data_files_witness :
  exists files,
    get_package_data_files linux64 (state_of tree0) = (Ok files, state_of tree0)
    /\ incl ["*.dll" : str; "*.zip" : str; "*.so" : str; "*.so.*" : str] files
    /\ In ("genicam/log/config.properties" : str) files.
Proof.
  destruct (C6_package_data_files linux64 (state_of tree0)
              [("__init__.py" : str, File []);
               ("FAI_python.py" : str, File "import _FAI_python");
               ("genicam" : str,
                Dir [("cache.xml" : str, File "<x/>");
                     ("log" : str,
                      Dir [("config.properties" : str, File "level=3")])])])
    as (files & Hrun & Hglobs & Hfiles).
  - reflexivity.
  - legal_tree.
  - exists files. split; [exact Hrun|]. split; [exact Hglobs|].
    apply (Hfiles "genicam" ["log" : str; "config.properties" : str] "level=3").
    + discriminate.
    + reflexivity.
Defined.

(** C6, as stated, fails for a file that lies in the package directory
    itself: [__init__.py] is a file under the package directory, and the
    list returned has the four patterns and nothing else. *)
Lemma C6_top_level_file_counterexample :
  node_at linux64 linux_tree "./FAI_python/__init__.py" = Some (File [])
  /\ get_package_data_files linux64 (state_of linux_tree)
     = (Ok ["*.dll" : str; "*.zip" : str; "*.so" : str; "*.so.*" : str],
        state_of linux_tree)
  /\ ~ In ("__init__.py" : str)
         ["*.dll" : str; "*.zip" : str; "*.so" : str; "*.so.*" : str].
Proof.
  split; [reflexivity|]. split; [reflexivity|].
  simpl. intuition discriminate.
Qed.

(** * Further properties of the script *)

(** ** What the patterns of the version resolver admit *)

Module VersionFacts.

Import Basics ReSpec Shape ReFacts GitFacts.

Lemma first_match_inv (n0 : nat) (r : regex) (s : str) (m : caps) :
  first_match n0 r s = Some m -> exists s', Match n0 r s ∅ m s'.
Proof.
  unfold first_match. destruct (matches n0 r s ∅) as [|[c' s'] l] eqn:E; [discriminate|].
  intros [= <-]. exists s'. apply matches_sound. rewrite E. now left.
Qed.

Lemma dot_number_inv (n0 : nat) (s : str) (c c' : caps) (s' : str) :
  Match n0 dot_number s c c' s' ->
  exists a, digits a /\ s = "." ++ a ++ s' /\ c' = c.
Proof.
  intros H. apply Match_Seq_inv in H. destruct H as (c1 & s1 & H1 & H).
  apply Match_Lit_inv in H1. destruct H1 as [-> ->].
  apply Match_Plus_Class_inv in H. destruct H as (a & Hne & Ha & -> & ->).
  exists a. repeat split; auto.
Qed.

Lemma suffix_inv (n0 : nat) (s : str) (c c' : caps) (s' : str) :
  Match n0 suffix_rx s c c' s' ->
  exists p, pre_release p /\ s = p ++ s' /\ c' = c.
Proof.
  intros H. apply Match_Opt_inv in H. destruct H as [H|[-> ->]].
  2:{ exists []. repeat split. constructor. }
  apply Match_Seq_inv in H. destruct H as (c1 & s1 & H1 & H).
  apply Match_Star_Class_inv in H. destruct H as (ds & Hds & -> & ->).
  apply Match_Alt_inv in H1. destruct H1 as [H1|H1].
  { apply Match_Lit_inv in H1. destruct H1 as [-> ->].
    exists ("a" ++ ds). repeat split. now constructor. }
  apply Match_Alt_inv in H1. destruct H1 as [H1|H1].
  { apply Match_Lit_inv in H1. destruct H1 as [-> ->].
    exists ("b" ++ ds). repeat split. now constructor. }
  apply (Match_Lits_inv n0 "rc") in H1. destruct H1 as [-> ->].
  exists ("rc" ++ ds). repeat split. now constructor.
Qed.

Lemma version_core_sound (n0 : nat) (s : str) (c c' : caps) (s' : str) :
  Match n0 version_core s c c' s' ->
  exists base, release_tag base /\ s = base ++ s' /\ c' = c.
Proof.
  rewrite version_core_unfold. intros H.
  apply Match_Seq_inv in H. destruct H as (c1 & s1 & H1 & H).
  apply Match_Plus_Class_inv in H1. destruct H1 as (a & Hane & Ha & -> & ->).
  apply Match_Seq_inv in H. destruct H as (c2 & s2 & H2 & H).
  apply suffix_inv in H. destruct H as (p & Hp & -> & ->).
  apply Match_Seq_inv in H2. destruct H2 as (c3 & s3 & H3 & H2).
  apply Match_Seq_inv in H3. destruct H3 as (c4 & s4 & H4 & H3).
  apply dot_number_inv in H4. destruct H4 as (b & Hb & -> & ->).
  apply Match_Seq_inv in H3. destruct H3 as (c5 & s5 & H5 & H3).
  apply dot_number_inv in H5. destruct H5 as (d & Hd & -> & ->).
  inversion H3; subst. clear H3.
  apply Match_Opt_inv in H2. destruct H2 as [H2|[Heq ->]]; [|symmetry in Heq; subst].
  - apply Match_Seq_inv in H2. destruct H2 as (c6 & s6 & H6 & H2).
    apply dot_number_inv in H6. destruct H6 as (e & He & -> & ->).
    inversion H2; subst. clear H2.
    exists (a ++ "." ++ b ++ "." ++ d ++ "." ++ e ++ p). split.
    + apply release_4; auto. split; assumption.
    + split; [|reflexivity]. repeat rewrite <- app_assoc. reflexivity.
  - exists (a ++ "." ++ b ++ "." ++ d ++ p). split.
    + apply release_3; auto. split; assumption.
    + split; [|reflexivity]. repeat rewrite <- app_assoc. reflexivity.
Qed.

Lemma local_part_group_free : group_free local_part.
Proof. simpl. tauto. Qed.

(** What the part of [rx_git_ver] after the version proper does to the
    groups: the second group is left alone, or set to a run of digits. *)
Lemma tail_groups (n0 : nat) (s : str) (c c' : caps) (s' : str) :
  Match n0 tail_rx s c c' s' ->
  c' = c \/ exists w, digits w /\ c' = <[2%nat := w]> c.
Proof.
  intros H. apply Match_Seq_inv in H. destruct H as (c1 & s1 & H1 & H).
  apply (Match_group_free _ _ _ _ _ _ local_part_group_free) in H1. subst c1.
  apply Match_Seq_inv in H. destruct H as (c2 & s2 & H2 & H).
  apply Match_Seq_inv in H. destruct H as (c3 & s3 & H3 & H).
  apply dirty_part_inv in H3. destruct H3 as [-> _].
  apply Match_Dollar_inv in H. destruct H as (_ & -> & _).
  apply distance_part_inv in H2.
  destruct H2 as [[_ ->]|(w & hx & Hw & _ & _ & ->)]; eauto.
Qed.

Lemma rx_git_ver_sound (n0 : nat) (s : str) (m : caps) (s' : str) :
  Match n0 rx_git_ver s ∅ m s' ->
  exists base tail n,
    release_tag base /\ digits n /\ s = base ++ tail
    /\ group m 1 = Some base /\ fmt_s_or_0 (group m 2) = n.
Proof.
  intros H. rewrite rx_git_ver_unfold in H.
  apply Match_Seq_inv in H. destruct H as (c1 & s1 & H1 & H).
  apply Match_Bol_inv in H1. destruct H1 as [-> ->].
  apply Match_Seq_inv in H. destruct H as (c2 & s2 & H2 & H).
  apply Match_Group_inv in H2. destruct H2 as (c3 & w & H2 & Heq & ->).
  apply version_core_sound in H2. destruct H2 as (base & Hb & Hs & ->).
  assert (w = base) by (rewrite Heq in Hs; now apply app_inv_tail in Hs). subst w.
  apply tail_groups in H. unfold group.
  destruct H as [-> |(n & Hn & ->)].
  - exists base, s2, "0".
    split; [exact Hb|]. split; [split; [discriminate|repeat constructor]|].
    split; [exact Hs|]. split; [apply lookup_insert_eq|].
    rewrite lookup_insert_ne by discriminate. rewrite lookup_empty. reflexivity.
  - exists base, s2, n.
    split; [exact Hb|]. split; [exact Hn|]. split; [exact Hs|]. split.
    + rewrite lookup_insert_ne by discriminate. apply lookup_insert_eq.
    + rewrite lookup_insert_eq. now apply fmt_s_or_0_digits.
Qed.

Lemma lstrip_head (s : str) (x : ascii) (t : str) :
  lstrip s = x :: t -> is_space x = false.
Proof.
  induction s as [|y s IH]; simpl; [discriminate|].
  destruct (is_space y) eqn:E; [exact IH|].
  intros [= <- _]. exact E.
Qed.

Lemma strip_last (s t : str) (x : ascii) :
  strip s = t ++ [x] -> is_space x = false.
Proof.
  unfold strip, rstrip. intros H.
  apply (f_equal (@rev ascii)) in H. rewrite rev_involutive, rev_app_distr in H.
  simpl in H. eapply lstrip_head. exact H.
Qed.

Lemma rx_release_sound (n0 : nat) (s : str) (m : caps) (s' : str) :
  Match n0 rx_release s ∅ m s' ->
  exists base, release_tag base /\ (s = base \/ s = base ++ ["010"%char]).
Proof.
  intros H. unfold rx_release in H.
  apply Match_Seq_inv in H. destruct H as (c1 & s1 & H1 & H).
  apply Match_Bol_inv in H1. destruct H1 as [-> ->].
  apply Match_Seq_inv in H. destruct H as (c2 & s2 & H2 & H).
  apply version_core_sound in H2. destruct H2 as (base & Hb & -> & ->).
  apply Match_Dollar_inv in H. destruct H as (_ & _ & [-> | ->]).
  - exists base. rewrite app_nil_r. auto.
  - exists base. auto.
Qed.

(** Every version [describe] returns has one of two shapes. *)
Lemma describe_sound (out v : str) :
  describe (Ok out) = Ok v ->
  (release_tag v /\ v = strip out)
  \/ (exists base n tail,
        release_tag base /\ digits n /\ strip out = base ++ tail /\ tail <> []
        /\ v = base ++ ".dev" ++ n).
Proof.
  unfold describe. cbn [mbind result_bind Py.bind].
  destruct (re_match rx_release (strip out)) as [m|] eqn:Erel.
  - intros [= <-]. left. unfold re_match in Erel.
    apply first_match_inv in Erel. destruct Erel as (s' & H).
    apply rx_release_sound in H. destruct H as (base & Hb & [Heq|Heq]).
    + rewrite Heq. auto.
    + apply strip_last in Heq. discriminate.
  - destruct (re_match rx_git_ver (strip out)) as [m|] eqn:Edev; [|discriminate].
    intros [= <-]. right. unfold re_match in Edev.
    apply first_match_inv in Edev. destruct Edev as (s' & H).
    apply rx_git_ver_sound in H.
    destruct H as (base & tail & n & Hb & Hn & Heq & -> & ->).
    exists base, n, tail.
    split; [exact Hb|]. split; [exact Hn|]. split; [exact Heq|]. split; [|reflexivity].
    intros ->. rewrite app_nil_r in Heq. unfold re_match in Erel.
    rewrite Heq in Erel.
    destruct (first_match_Some _ _ _ _ _ (rx_release_match base Hb)) as (m' & s'' & E & _).
    congruence.
Qed.

End VersionFacts.

(** ** Tags with a local version label *)

Module LabelFacts.

Import Basics ReSpec Shape ReFacts GitFacts VersionFacts Label.

Lemma alnum_is_alnum_dot (c : ascii) : alnum c = true -> alnum_dot c = true.
Proof. unfold alnum_dot. now intros ->. Qed.

Lemma alnum_dot_not_space (c : ascii) : alnum_dot c = true -> is_space c = false.
Proof. by_cases_on_char c. Qed.

Lemma local_label_chars (l : str) :
  local_label l -> Forall (fun c => alnum_dot c = true) l.
Proof.
  destruct l as [|x w]; [intros []|]. intros [Hx Hw].
  constructor; [now apply alnum_is_alnum_dot|assumption].
Qed.

(** A run of characters of [P] taken off the front of a text that begins
    with a longest such run. *)
Lemma run_prefix (P : ascii -> Prop) (u s1 l rest : str) :
  Forall P u -> Forall P l -> stops P rest ->
  u ++ s1 = l ++ rest ->
  exists l', l = u ++ l' /\ s1 = l' ++ rest.
Proof.
  intros Hu. revert l. induction Hu as [|x u Hx Hu IH]; intros l Hl Hrest Heq.
  - exists l. auto.
  - destruct Hl as [|y l Hy Hl].
    + simpl in Heq. subst rest. simpl in Hrest. contradiction.
    + simpl in Heq. injection Heq as -> Heq.
      destruct (IH l Hl Hrest Heq) as (l' & -> & ->). exists l'. auto.
Qed.

Lemma Match_local_label (n0 : nat) (l rest : str) (c : caps) :
  local_label l -> Match n0 local_part ("+" ++ l ++ rest) c c rest.
Proof.
  destruct l as [|x w]; [intros []|]. intros [Hx Hw].
  unfold local_part. apply MOptTake. simpl.
  eapply MSeq; [apply MLit|].
  eapply MSeq; [apply MClass; exact Hx|].
  eapply MSeq; [apply Match_Star_Class; exact Hw|].
  apply MOptSkip.
Qed.

(** What [local_part] can take off a text: nothing, or a plus sign and
    characters of a label. *)
Lemma local_part_takes (n0 : nat) (s : str) (c c' : caps) (s' : str) :
  Match n0 local_part s c c' s' ->
  c' = c /\ (s' = s \/ exists u, Forall (fun x => alnum_dot x = true) u
                                 /\ s = "+" ++ u ++ s').
Proof.
  intros H. split; [eapply Match_group_free; [|exact H]; simpl; tauto|].
  apply Match_Opt_inv in H. destruct H as [H|[-> _]]; [right|now left].
  apply Match_Seq_inv in H. destruct H as (c1 & s1 & H1 & H).
  apply Match_Lit_inv in H1. destruct H1 as [-> ->].
  apply Match_Seq_inv in H. destruct H as (c2 & s2 & H2 & H).
  apply Match_Class_inv in H2. destruct H2 as (x & -> & Hx & ->).
  apply Match_Seq_inv in H. destruct H as (c3 & s3 & H3 & H).
  apply Match_Star_Class_inv in H3. destruct H3 as (w & Hw & -> & ->).
  apply Match_Opt_inv in H. destruct H as [H|[-> _]].
  - apply Match_Class_inv in H. destruct H as (y & -> & Hy & _).
    exists (x :: w ++ [y]). split.
    + constructor; [now apply alnum_is_alnum_dot|].
      apply Forall_app. split; [assumption|].
      constructor; [now apply alnum_is_alnum_dot|constructor].
    + simpl. rewrite <- app_assoc. reflexivity.
  - exists (x :: w). split; [|reflexivity].
    constructor; [now apply alnum_is_alnum_dot|assumption].
Qed.

(** After a tag and a label, the rest of [rx_git_ver] runs on what
    follows the label, when that is empty or begins with a dash. *)
Lemma tail_after_label (n0 : nat) (l rest : str) (c c' : caps) (s' : str) :
  local_label l ->
  rest = [] \/ (exists t, rest = "-"%char :: t) ->
  Match n0 tail_rx ("+" ++ l ++ rest) c c' s' ->
  Match n0 tail_rx rest c c' s'.
Proof.
  intros Hl Hrest H.
  assert (Hstop : stops (fun x => alnum_dot x = true) rest)
    by (destruct Hrest as [-> |(t & ->)]; simpl; [exact I|discriminate]).
  apply Match_Seq_inv in H. destruct H as (c1 & s1 & H1 & H).
  apply local_part_takes in H1. destruct H1 as [-> [-> |(u & Hu & Heq)]].
  - exfalso.
    apply Match_Seq_inv in H. destruct H as (c2 & s2 & H2 & H).
    apply distance_part_inv in H2.
    destruct H2 as [[-> ->]|(w & hx & _ & _ & Heq & _)]; [|discriminate].
    apply Match_Seq_inv in H. destruct H as (c3 & s3 & H3 & H).
    apply dirty_part_inv in H3. destruct H3 as [-> [-> |Heq]]; [|discriminate].
    apply Match_Dollar_inv in H. destruct H as (_ & _ & [Heq|Heq]); [discriminate|].
    destruct l as [|x w]; [destruct Hl|]. destruct w; simpl in Heq; discriminate.
  - simpl in Heq. injection Heq as Heq. symmetry in Heq.
    destruct (run_prefix _ u s1 l rest Hu (local_label_chars _ Hl) Hstop Heq)
      as (l' & -> & ->).
    destruct l' as [|y l'].
    + simpl in H. unfold tail_rx. eapply MSeq; [apply MOptSkip|exact H].
    + exfalso.
      assert (Hy : alnum_dot y = true).
      { apply local_label_chars in Hl. apply Forall_app in Hl.
        destruct Hl as [_ Hl]. now inversion Hl. }
      apply Match_Seq_inv in H. destruct H as (c2 & s2 & H2 & H).
      apply distance_part_inv in H2.
      destruct H2 as [[-> ->]|(w & hx & _ & _ & Heq' & _)].
      2:{ simpl in Heq'. injection Heq' as -> _. discriminate. }
      apply Match_Seq_inv in H. destruct H as (c3 & s3 & H3 & H).
      apply dirty_part_inv in H3. destruct H3 as [-> [-> |Heq']].
      2:{ simpl in Heq'. injection Heq' as -> _. discriminate. }
      apply Match_Dollar_inv in H. destruct H as (_ & _ & [Heq'|Heq']); [discriminate|].
      simpl in Heq'. injection Heq' as -> _. discriminate.
Qed.

Lemma tail_label_match (n0 : nat) (l rest : str) (c c' : caps) (s' : str) :
  local_label l ->
  rest = [] \/ (exists t, rest = "-"%char :: t) ->
  Match n0 tail_rx rest c c' s' ->
  Match n0 tail_rx ("+" ++ l ++ rest) c c' s'.
Proof.
  intros Hl Hrest H.
  apply Match_Seq_inv in H. destruct H as (c1 & s1 & H1 & H).
  apply local_part_takes in H1. destruct H1 as [-> [-> |(u & _ & Heq)]].
  - unfold tail_rx. eapply MSeq; [now apply Match_local_label|exact H].
  - destruct Hrest as [-> |(t & ->)]; discriminate.
Qed.

Lemma tail_empty_match (n0 : nat) (c : caps) : Match n0 tail_rx [] c c [].
Proof.
  unfold tail_rx.
  eapply MSeq; [apply MOptSkip|]. eapply MSeq; [apply MOptSkip|].
  eapply MSeq; [apply MOptSkip|]. apply MDollarEnd.
Qed.

Lemma tail_empty_inv (n0 : nat) (c c' : caps) (s' : str) :
  Match n0 tail_rx [] c c' s' -> c' = c.
Proof.
  intros H. apply Match_Seq_inv in H. destruct H as (c1 & s1 & H1 & H).
  apply local_part_takes in H1. destruct H1 as [-> [-> |(u & _ & Heq)]]; [|discriminate].
  apply Match_Seq_inv in H. destruct H as (c2 & s2 & H2 & H).
  apply distance_part_inv in H2.
  destruct H2 as [[-> ->]|(w & hx & _ & _ & Heq & _)]; [|discriminate].
  apply Match_Seq_inv in H. destruct H as (c3 & s3 & H3 & H).
  apply dirty_part_inv in H3. destruct H3 as [-> _].
  apply Match_Dollar_inv in H. now destruct H as (_ & -> & _).
Qed.

Lemma tail_label_only_match (n0 : nat) (l : str) (c : caps) :
  local_label l -> Match n0 tail_rx ("+" ++ l) c c [].
Proof.
  intros Hl. pose proof (tail_label_match n0 l [] c c [] Hl) as H.
  rewrite app_nil_r in H. apply H; [now left|apply tail_empty_match].
Qed.

Lemma tail_label_only_inv (n0 : nat) (l : str) (c c' : caps) (s' : str) :
  local_label l -> Match n0 tail_rx ("+" ++ l) c c' s' -> c' = c.
Proof.
  intros Hl H. pose proof (tail_after_label n0 l [] c c' s' Hl) as H'.
  rewrite app_nil_r in H'. apply H' in H; [|now left].
  now apply tail_empty_inv in H.
Qed.

(** [describe] on a tag followed by more: the version is the tag, [.dev]
    and what the second group gives. *)
Lemma describe_with_tail (base tail pad g2 : str) :
  release_tag base -> tail <> [] ->
  Forall (fun c => is_space c = false) tail -> blanks pad ->
  stops (fun x => core_char x = true) tail ->
  (exists c', Match (length (base ++ tail)) tail_rx tail (<[1%nat := base]> ∅) c' []) ->
  (forall c' s', Match (length (base ++ tail)) tail_rx tail (<[1%nat := base]> ∅) c' s' ->
     fmt_s_or_0 (group c' 2) = g2) ->
  describe (Ok (base ++ tail ++ pad)) = Ok (base ++ ".dev" ++ g2).
Proof.
  intros Hb Hne Hns Hpad Hstop (c0 & Hex) Hall.
  rewrite app_assoc.
  apply (describe_development (base ++ tail) pad base g2).
  - apply Forall_app. split; [now apply release_tag_no_space|assumption].
  - assumption.
  - intros c' s' H. apply rx_release_inv in H; [|assumption|assumption].
    destruct H as [-> | ->]; [congruence|].
    inversion Hns; subst. discriminate.
  - exists c0, []. apply rx_git_ver_match; [assumption|].
    rewrite firstn_consumed. exact Hex.
  - intros c' s' H. apply rx_git_ver_inv in H; [|assumption|assumption].
    split; [|now apply (Hall c' s')].
    apply tail_groups in H. unfold group.
    destruct H as [-> |(w & _ & ->)].
    + apply lookup_insert_eq.
    + rewrite lookup_insert_ne by discriminate. apply lookup_insert_eq.
Qed.

End LabelFacts.

(** ** The short version *)

Module ShortFacts.

Import Basics ReSpec Shape ReFacts GitFacts SwigFacts VersionFacts ShortVersion.

Lemma split_head (sep : ascii) (s : str) :
  exists w ws, split sep s = w :: ws /\ ~ In sep w
               /\ ((s = w /\ ws = []) \/ exists rest, s = w ++ sep :: rest).
Proof.
  induction s as [|c s IH]; simpl.
  - exists [], []. split; [reflexivity|]. split; [intros []|]. left. auto.
  - destruct (Ascii.eqb c sep) eqn:E.
    + apply Ascii.eqb_eq in E. subst c.
      exists [], (split sep s). split; [reflexivity|]. split; [intros []|].
      right. exists s. reflexivity.
    + apply Ascii.eqb_neq in E.
      destruct IH as (w & ws & -> & Hw & Hs).
      exists (c :: w), ws. split; [reflexivity|]. split.
      * intros [H|H]; [congruence|contradiction].
      * destruct Hs as [[-> ->]|(rest & ->)]; [left; auto|right].
        exists rest. reflexivity.
Qed.

Lemma fmt_d_digits (n : N) : digit_run (fmt_d n).
Proof.
  unfold fmt_d. generalize (N.to_uint n). intros d.
  induction d; simpl; constructor; auto.
Qed.

Lemma core_no_plus (s : str) :
  Forall (fun x => core_char x = true) s -> ~ In "+"%char s.
Proof.
  intros H Hin. rewrite Forall_forall in H.
  apply list_elem_of_In in Hin. apply H in Hin. discriminate.
Qed.

Lemma not_in_app (x : ascii) (a b : str) : ~ In x a -> ~ In x b -> ~ In x (a ++ b).
Proof. intros Ha Hb H. apply in_app_or in H. tauto. Qed.

Lemma date_version_no_plus (now : datetime) : ~ In "+"%char (date_version now).
Proof.
  unfold date_version.
  repeat (apply not_in_app;
          [first [apply core_no_plus, digit_run_core, fmt_d_digits
                 |simpl; intuition discriminate]|]).
  apply core_no_plus, digit_run_core, fmt_d_digits.
Qed.

Lemma release_tag_no_plus (base : str) : release_tag base -> ~ In "+"%char base.
Proof. intros H. now apply core_no_plus, release_tag_core. Qed.

End ShortFacts.

(** ** Version numbers with an empty component *)

Module BannerFacts.

Import Basics ReSpec Shape ReFacts SwigFacts Outcome.

Lemma dotted_run_chars (parts : list str) :
  Forall digit_run parts -> Forall (fun c => digit_or_dot c = true) (join "." parts).
Proof.
  induction 1 as [|p parts Hp H IH]; simpl; [constructor|].
  assert (Hpd : Forall (fun c => digit_or_dot c = true) p).
  { clear -Hp. induction Hp as [|x p Hx _ IH]; constructor; auto.
    unfold digit_or_dot. now rewrite Hx. }
  destruct parts as [|q parts]; [assumption|].
  apply Forall_app. split; [assumption|]. constructor; [reflexivity|exact IH].
Qed.


End BannerFacts.

(** ** The children started so far *)

Module TraceFacts.

Import Basics Outcome Trace.

Section Grow.

Variable h : host.

Lemma grow_ret {A} (a : A) : spawns_grow (mret a : M A).
Proof. intros st. exists []. now rewrite app_nil_r. Qed.

Lemma grow_raise {A} (e : exn) : spawns_grow (raise e : M A).
Proof. intros st. exists []. now rewrite app_nil_r. Qed.

Lemma grow_lift {A} (r : result A) : spawns_grow (lift r).
Proof. intros st. exists []. now rewrite app_nil_r. Qed.

Lemma grow_get_fs : spawns_grow get_fs.
Proof. intros st. exists []. now rewrite app_nil_r. Qed.

Lemma grow_set_fs (t : node) : spawns_grow (set_fs t).
Proof. intros st. exists []. simpl. now rewrite app_nil_r. Qed.

Lemma grow_spawn (argv : list str) : spawns_grow (spawn h argv).
Proof.
  intros st. unfold spawn. destruct (child h argv (fs st)). exists [argv]. reflexivity.
Qed.

Lemma grow_setup (call : setup_call) : spawns_grow (setup h call).
Proof.
  intros st. unfold setup. destruct (setuptools h call (fs st)). exists [].
  simpl. now rewrite app_nil_r.
Qed.

Lemma grow_bind {A B} (m : M A) (k : A -> M B) :
  spawns_grow m -> (forall a, spawns_grow (k a)) -> spawns_grow (x ← m; k x).
Proof.
  intros Hm Hk st. unfold_M. destruct (Hm st) as (l1 & H1).
  destruct (m st) as [[a|e] st1]; simpl in *; [|eauto].
  destruct (Hk a st1) as (l2 & H2). exists (l1 ++ l2).
  rewrite H2, H1. now rewrite app_assoc.
Qed.

Lemma grow_try_except {A} (m : M A) (handles : exn -> bool) (k : M A) :
  spawns_grow m -> spawns_grow k -> spawns_grow (try_except m handles k).
Proof.
  intros Hm Hk st. unfold try_except. destruct (Hm st) as (l1 & H1).
  destruct (m st) as [[a|e] st1]; simpl in *; [eauto|].
  destruct (handles e); simpl; [|eauto].
  destruct (Hk st1) as (l2 & H2). exists (l1 ++ l2).
  rewrite H2, H1. now rewrite app_assoc.
Qed.

Lemma grow_for_each {A} (xs : list A) (body : A -> M unit) :
  (forall x, spawns_grow (body x)) -> spawns_grow (for_each xs body).
Proof.
  intros Hb. induction xs as [|x xs IH]; simpl.
  - apply grow_ret.
  - apply grow_bind; auto.
Qed.

Lemma grow_eq {A} (m : M A) (st st' : state) (r : result A) :
  spawns_grow m -> m st = (r, st') -> exists l, spawned st' = spawned st ++ l.
Proof. intros Hg E. specialize (Hg st). now rewrite E in Hg. Qed.

End Grow.

Ltac grow :=
  repeat first
    [ apply grow_ret | apply grow_raise | apply grow_lift | apply grow_get_fs
    | apply grow_set_fs | apply grow_spawn | apply grow_setup
    | apply grow_bind; [|intros ?]
    | apply grow_try_except
    | apply grow_for_each; intros ?
    | match goal with
      | |- spawns_grow (match ?x with _ => _ end) => destruct x
      | |- spawns_grow (if ?x then _ else _) => destruct x
      | |- spawns_grow (let '(_, _) := ?x in _) => destruct x
      end ].

Section GrowSteps.

Variable h : host.

Lemma grow_is_supported (exe : option str) :
  spawns_grow (is_supported_swig_version h exe).
Proof. unfold is_supported_swig_version. grow. Qed.

Lemma grow_detect_msvc_ver : spawns_grow (detect_msvc_ver h).
Proof. unfold detect_msvc_ver. grow. Qed.

Lemma grow_find_swig_in (cs : list str) : spawns_grow (find_swig_in h cs).
Proof.
  induction cs as [|c cs IH]; cbn [find_swig_in]; [apply grow_raise|].
  apply grow_bind; [apply grow_is_supported|]. intros []; [apply grow_ret|exact IH].
Qed.

Lemma grow_find_swig_windows_in (cs : list str) : spawns_grow (find_swig_windows_in h cs).
Proof.
  induction cs as [|c cs IH]; cbn [find_swig_windows_in]; [apply grow_find_swig_in|].
  apply grow_bind; [apply grow_is_supported|]. intros []; [apply grow_ret|exact IH].
Qed.

End GrowSteps.

End TraceFacts.

(** ** What the search of the code generator returns *)

Module LocatorFacts.

Import Basics Outcome SwigFacts Trace TraceFacts.

Section Located.

Variable h : host.

(** An accepted candidate is a path, and it was started to ask for its
    version. *)
Lemma accepted_probed (exe : option str) (st st' : state) :
  is_supported_swig_version h exe st = (Ok true, st') ->
  exists path t, exe = Some path
    /\ st' = spawned_one st [path; "-version" : str] t.
Proof.
  destruct exe as [path|]; [|discriminate].
  unfold is_supported_swig_version, try_except, spawn. unfold_M.
  destruct (child h [path; "-version" : str] (fs st)) as [[output|e] t] eqn:E.
  - unfold lift. intros [= H <-]. exists path, t. auto.
  - destruct (probe_failed e); discriminate.
Qed.

Lemma find_swig_in_located (cs : list str) (st st' : state) (r : option str) :
  find_swig_in h cs st = (Ok r, st') ->
  exists c path, In c cs /\ which h c = Some path /\ r = Some path
    /\ In [path; "-version" : str] (spawned st').
Proof.
  revert st. induction cs as [|c cs IH]; intros st; cbn [find_swig_in]; [discriminate|].
  unfold_M.
  destruct (is_supported_swig_version h (which h c) st) as [[[]|e] st1] eqn:E;
    [| |discriminate].
  - intros [= <- <-]. apply accepted_probed in E.
    destruct E as (path & t & Hw & ->). exists c, path.
    split; [now left|]. split; [exact Hw|]. split; [exact Hw|].
    simpl. apply in_or_app. right. now left.
  - intros H. destruct (IH _ H) as (c' & path & Hin & Hw & Hr & Hsp).
    exists c', path. split; [now right|]. auto.
Qed.

Lemma find_swig_windows_in_located (cs : list str) (st st' : state) (r : option str) :
  find_swig_windows_in h cs st = (Ok r, st') ->
  exists path, r = Some path
    /\ (In path cs
        \/ exists c, In c ["swig4.0" : str; "swig" : str] /\ which h c = Some path)
    /\ In [path; "-version" : str] (spawned st').
Proof.
  revert st. induction cs as [|c cs IH]; intros st; cbn [find_swig_windows_in].
  - intros H. apply find_swig_in_located in H.
    destruct H as (c & path & Hin & Hw & -> & Hsp). exists path.
    split; [reflexivity|]. split; [right; eauto|exact Hsp].
  - unfold_M.
    destruct (is_supported_swig_version h (Some c) st) as [[[]|e] st1] eqn:E;
      [| |discriminate].
    + intros [= <- <-]. apply accepted_probed in E.
      destruct E as (path & t & [= <-] & ->). exists c.
      split; [reflexivity|]. split; [left; now left|].
      simpl. apply in_or_app. right. now left.
    + intros H. destruct (IH _ H) as (path & -> & Hin & Hsp).
      exists path. split; [reflexivity|]. split; [|exact Hsp].
      destruct Hin as [Hin|Hin]; [left; now right|now right].
Qed.

End Located.

End LocatorFacts.

(** ** The search on Windows *)

Module PlacesFacts.

Import Basics Outcome SwigFacts Places.

Section Windows.

Variable h : host.

Lemma windows_candidates_places :
  windows_candidates h
  = map install_place
      (omap (fun n : str => environ h !! n)
         ["PROGRAMFILES" : str; "PROGRAMFILES(X86)" : str; "PROGRAMW6432" : str]).
Proof.
  unfold windows_candidates.
  generalize (omap (fun n : str => environ h !! n)
                ["PROGRAMFILES" : str; "PROGRAMFILES(X86)" : str; "PROGRAMW6432" : str]).
  intros l. induction l as [|prg l IH]; [reflexivity|].
  cbn [map]. rewrite <- IH. reflexivity.
Qed.

Lemma find_swig_windows_in_first (before : list str) (place : str) (after : list str)
    (st st' : state) :
  places_rejected h before st ->
  is_supported_swig_version h (Some place) (after_places h before st) = (Ok true, st') ->
  find_swig_windows_in h (before ++ place :: after) st = (Ok (Some place), st').
Proof.
  revert st. induction before as [|c rest IH]; intros st H Hacc;
    cbn [app find_swig_windows_in places_rejected after_places] in *.
  - unfold_M. rewrite Hacc. reflexivity.
  - destruct H as (st1 & Hc & Hrest). unfold_M. rewrite Hc in *. cbn [snd] in *.
    now apply IH.
Qed.

Lemma find_swig_windows_in_fallback (places : list str) (st : state) :
  places_rejected h places st ->
  find_swig_windows_in h places st = find_swig h (after_places h places st).
Proof.
  revert st. induction places as [|c rest IH]; intros st H;
    cbn [find_swig_windows_in places_rejected after_places] in *.
  - reflexivity.
  - destruct H as (st1 & Hc & Hrest). unfold_M. rewrite Hc. cbn [snd].
    now apply IH.
Qed.

End Windows.

End PlacesFacts.

(** ** The version of the compiler *)

Module MsvcFacts.

Import Basics ReSpec Shape ReFacts GitFacts SwigFacts Outcome VersionFacts Dotted.

Lemma search_from_inv (n0 : nat) (r : regex) (s : str) (m : caps) :
  search_from n0 r s = Some m ->
  exists skipped s0 s', s = skipped ++ s0 /\ Match n0 r s0 ∅ m s'.
Proof.
  induction s as [|x s IH]; simpl.
  - destruct (first_match n0 r []) as [c|] eqn:E; [|discriminate].
    intros [= <-]. apply first_match_inv in E. destruct E as (s' & H).
    exists [], [], s'. auto.
  - destruct (first_match n0 r (x :: s)) as [c|] eqn:E.
    + intros [= <-]. apply first_match_inv in E. destruct E as (s' & H).
      exists [], (x :: s), s'. auto.
    + intros H. destruct (IH H) as (skipped & s0 & s' & -> & HM).
      exists (x :: skipped), s0, s'. auto.
Qed.

Lemma join_dotted (p : str) (ps : list str) :
  join "." (p :: ps) = p ++ dotted ps.
Proof.
  revert p. induction ps as [|q ps IH]; intros p.
  - simpl. now rewrite app_nil_r.
  - change (join "." (p :: q :: ps)) with (p ++ "." ++ join "." (q :: ps)).
    rewrite IH. reflexivity.
Qed.

Lemma Star_dot_number_inv (n0 : nat) (s : str) (c c' : caps) (s' : str) :
  Match n0 (Star dot_number) s c c' s' ->
  exists parts, Forall digits parts /\ s = dotted parts ++ s' /\ c' = c.
Proof.
  intros H. remember (Star dot_number) as r eqn:Hr.
  induction H; try discriminate.
  - exists []. auto.
  - injection Hr as ->.
    apply dot_number_inv in H. destruct H as (a & Ha & -> & ->).
    destruct (IHMatch2 eq_refl) as (parts & Hparts & -> & ->).
    exists (a :: parts). split; [now constructor|]. split; [|reflexivity].
    unfold dotted. simpl. rewrite <- app_assoc. reflexivity.
Qed.

(** What the first group of the pattern of the compiler version holds:
    two or more runs of digits with dots between them. *)
Lemma rx_msvc_version_inv (n0 : nat) (s : str) (m : caps) (s' : str) :
  Match n0 rx_msvc_version s ∅ m s' ->
  exists a b parts,
    digits a /\ digits b /\ Forall digits parts
    /\ group m 1 = Some (join "." (a :: b :: parts)).
Proof.
  intros H. unfold rx_msvc_version in H.
  apply Match_Seq_inv in H. destruct H as (c1 & s1 & H1 & H).
  apply Match_Plus_Class_inv in H1. destruct H1 as (w1 & _ & _ & -> & ->).
  apply Match_Seq_inv in H. destruct H as (c2 & s2 & H2 & H).
  apply Match_Plus_Class_inv in H. destruct H as (w2 & _ & _ & -> & ->).
  apply Match_Group_inv in H2. destruct H2 as (c3 & w & H2 & Heq & ->).
  apply Match_Seq_inv in H2. destruct H2 as (c4 & s4 & H4 & H2).
  apply Match_Plus_Class_inv in H4. destruct H4 as (a & Hane & Ha & -> & ->).
  apply Match_Seq_inv in H2. destruct H2 as (c5 & s5 & H5 & H2).
  apply (dot_number_inv n0) in H5. destruct H5 as (b & Hb & -> & ->).
  apply Star_dot_number_inv in H2. destruct H2 as (parts & Hparts & -> & ->).
  exists a, b, parts. split; [split; assumption|]. split; [assumption|].
  split; [assumption|]. unfold group. rewrite lookup_insert_eq. f_equal.
  rewrite join_dotted.
  assert (Hw : a ++ "." ++ b ++ dotted parts ++ w2 ++ s'
               = (a ++ dotted (b :: parts)) ++ w2 ++ s').
  { unfold dotted. cbn [app list_ascii_of_string concat map].
    repeat (rewrite <- ?app_assoc, <- ?app_comm_cons). reflexivity. }
  rewrite Hw in Heq. now apply app_inv_tail in Heq.
Qed.

Lemma digits_no_dot (parts : list str) :
  Forall digits parts -> Forall (fun p => ~ In "."%char p) parts.
Proof.
  induction 1 as [|p parts [_ Hp] _ IH]; constructor; auto.
  now apply digit_run_no_dot.
Qed.

(** The text of such a group is read as a tuple when no run of digits
    is too long for [int]. *)
Lemma dotted_to_tuple (parts : list str) :
  parts <> [] -> Forall digits parts -> Forall within_limit parts ->
  map_int (split "." (join "." parts)) = Ok (map int_value parts).
Proof.
  intros Hne H Hlen. change (list_ascii_of_string ".") with ["."%char].
  rewrite split_join; [|assumption|now apply digits_no_dot].
  now apply map_int_digits.
Qed.

(** One run that is too long makes it a [ValueError]. *)
Lemma dotted_refused (parts : list str) (p : str) :
  Forall digits parts -> In p parts -> ~ within_limit p ->
  map_int (split "." (join "." parts)) = Raise ValueError.
Proof.
  intros H Hin Hp. change (list_ascii_of_string ".") with ["."%char].
  rewrite split_join; [|intros ->; destruct Hin|now apply digits_no_dot].
  apply (map_int_refused parts p); auto.
  clear -H. induction H as [|q parts [_ Hq] _ IH]; constructor; assumption.
Qed.

Lemma limit_or_not (parts : list str) :
  Forall within_limit parts \/ exists p, In p parts /\ ~ within_limit p.
Proof.
  induction parts as [|q parts IH]; [left; constructor|].
  destruct (N.le_gt_cases (N.of_nat (length q)) int_max_str_digits) as [Hq|Hq].
  - destruct IH as [IH|(p & Hin & Hp)]; [left; now constructor|right].
    exists p. split; [now right|assumption].
  - right. exists q. split; [now left|]. unfold within_limit. lia.
Qed.

Lemma in_join (sep p : str) (parts : list str) :
  In p parts -> exists l r, join sep parts = l ++ p ++ r.
Proof.
  induction parts as [|q parts IH]; intros Hin; [destruct Hin|].
  destruct Hin as [-> |Hin].
  - destruct parts as [|q' parts]; [exists [], []; simpl; now rewrite app_nil_r|].
    exists [], (sep ++ join sep (q' :: parts)). reflexivity.
  - destruct parts as [|q' parts]; [destruct Hin|].
    destruct (IH Hin) as (l & r & Hj). exists (q ++ sep ++ l), r.
    change (join sep (q :: q' :: parts)) with (q ++ sep ++ join sep (q' :: parts)).
    rewrite Hj. now rewrite <- !app_assoc.
Qed.

End MsvcFacts.

(** ** The banner of the compiler *)

Module MsvcBanner.

Import Basics ReSpec Shape ReFacts GitFacts SwigFacts Outcome VersionFacts Dotted MsvcFacts.

(** A search goes past the start positions at which nothing matches. *)
Lemma search_skips_suffixes (n0 : nat) (r : regex) (pre s : str) :
  (forall p1 p2, pre = p1 ++ p2 -> p2 <> [] -> first_match n0 r (p2 ++ s) = None) ->
  search_from n0 r (pre ++ s) = search_from n0 r s.
Proof.
  induction pre as [|x pre IH]; intros H; [reflexivity|].
  pose proof (H [] (x :: pre) eq_refl) as H0.
  cbn [app search_from] in *. rewrite H0 by discriminate.
  apply IH. intros p1 p2 -> Hne. apply (H (x :: p1) p2); [reflexivity|assumption].
Qed.

Lemma space_not_digit_or_dot (c : ascii) : is_space c = true -> digit_or_dot c = false.
Proof. by_cases_on_char c. Qed.

Lemma digit_not_space' (c : ascii) : is_digit c = true -> is_space c <> true.
Proof. by_cases_on_char c. Qed.

Lemma rx_msvc_chars :
  chars_in (fun x => digit_or_dot x = true)
    (Seq (Plus digit) (Plus (Seq (Lit ".") (Plus digit)))).
Proof.
  unfold Plus, digit. simpl.
  repeat split; try reflexivity; intros x Hx; unfold digit_or_dot; now rewrite Hx.
Qed.

(** How the pattern splits a text it matches: white space, the number,
    which begins with a digit, and white space again. *)
Lemma rx_msvc_version_split (n0 : nat) (s : str) (m : caps) (s' : str) :
  Match n0 rx_msvc_version s ∅ m s' ->
  exists w1 g x g' y s2,
    s = w1 ++ g ++ y :: s2 /\ w1 <> [] /\ Forall (fun c => is_space c = true) w1
    /\ g = x :: g' /\ is_digit x = true
    /\ Forall (fun c => digit_or_dot c = true) g
    /\ is_space y = true /\ group m 1 = Some g.
Proof.
  intros H. unfold rx_msvc_version in H.
  apply Match_Seq_inv in H. destruct H as (c1 & s1 & H1 & H).
  apply Match_Plus_Class_inv in H1. destruct H1 as (w1 & Hw1ne & Hw1 & -> & ->).
  apply Match_Seq_inv in H. destruct H as (c2 & s2 & H2 & H).
  apply Match_Plus_Class_inv in H. destruct H as (w2 & Hw2ne & Hw2 & -> & ->).
  apply Match_Group_inv in H2. destruct H2 as (c3 & g & H2 & -> & ->).
  pose proof (Match_consumes _ _ _ _ _ _ _ rx_msvc_chars H2) as (g0 & Hg0 & Hg).
  apply app_inv_tail in Hg0. subst g0.
  apply Match_Seq_inv in H2. destruct H2 as (c4 & s4 & H4 & _).
  apply Match_Plus_Class_inv in H4. destruct H4 as (a & Hane & Ha & Heq & _).
  destruct a as [|x a]; [congruence|]. inversion Ha; subst.
  destruct g as [|x' g'].
  { simpl in Heq. destruct w2 as [|y w2]; [congruence|].
    injection Heq as -> _. inversion Hw2; subst.
    exfalso. eapply digit_not_space'; eauto. }
  simpl in Heq. injection Heq as -> _.
  destruct w2 as [|y w2]; [congruence|]. inversion Hw2; subst.
  exists w1, (x :: g'), x, g', y, (w2 ++ s').
  repeat split; auto. unfold group. apply lookup_insert_eq.
Qed.

Lemma Match_Star_dot_number (n0 : nat) (parts : list str) (rest : str) (c : caps) :
  Forall digits parts -> Match n0 (Star dot_number) (dotted parts ++ rest) c c rest.
Proof.
  induction 1 as [|p parts Hp _ IH]; [apply MStarStop|].
  unfold dotted. cbn [map concat]. rewrite <- app_assoc.
  eapply MStarStep; [|  |exact IH].
  - change ("."%char :: p) with ("." ++ p). rewrite <- app_assoc.
    now apply Match_dot_number.
  - unfold dotted. rewrite !length_app. cbn [length]. lia.
Qed.

Lemma rx_msvc_version_match (n0 : nat) (ws : str) (a b : str) (parts : list str)
    (y : ascii) (post : str) :
  ws <> [] -> Forall (fun c => is_space c = true) ws ->
  digits a -> digits b -> Forall digits parts -> is_space y = true ->
  exists m, Match n0 rx_msvc_version
              (ws ++ join "." (a :: b :: parts) ++ y :: post) ∅ m post.
Proof.
  intros Hne Hws Ha Hb Hparts Hy. eexists. unfold rx_msvc_version.
  eapply MSeq. { now apply Match_Plus_Class. }
  eapply MSeq.
  { apply MGroup. rewrite join_dotted, <- app_assoc.
    eapply MSeq. { now apply Match_digits. }
    unfold Plus at 1. unfold dotted. cbn [map concat]. rewrite <- app_assoc.
    eapply MSeq.
    - change ("."%char :: b) with ("." ++ b). rewrite <- app_assoc.
      now apply Match_dot_number.
    - now apply Match_Star_dot_number. }
  apply (Match_Plus_Class n0 is_space [y] post); [discriminate|].
  now repeat constructor.
Qed.

(** The version in the banner: after a text without digits that does not
    end with white space, white space, the number, white space. *)
Lemma search_msvc_version (pre ws : str) (a b : str) (parts : list str)
    (y : ascii) (post : str) :
  Forall (fun c => is_digit c = false) pre ->
  (forall p x, pre = p ++ [x] -> is_space x = false) ->
  ws <> [] -> Forall (fun c => is_space c = true) ws ->
  digits a -> digits b -> Forall digits parts -> is_space y = true ->
  exists m,
    re_search rx_msvc_version (pre ++ ws ++ join "." (a :: b :: parts) ++ y :: post)
    = Some m
    /\ group m 1 = Some (join "." (a :: b :: parts)).
Proof.
  intros Hpre Hlast Hne Hws Ha Hb Hparts Hy. unfold re_search.
  generalize (length (pre ++ ws ++ join "." (a :: b :: parts) ++ y :: post)).
  intros n0.
  set (v := join "." (a :: b :: parts)).
  assert (Hv : Forall (fun c => digit_or_dot c = true) v).
  { apply dotted_chars. repeat (constructor; [assumption|]). assumption. }
  assert (Hvd : exists x v', v = x :: v' /\ is_digit x = true).
  { destruct (digits_head _ Ha) as (x & a' & -> & Hx).
    exists x. unfold v. rewrite join_dotted. simpl. eauto. }
  destruct Hvd as (x0 & v' & Hv0 & Hx0).
  rewrite search_skips_suffixes.
  - destruct (rx_msvc_version_match n0 ws a b parts y post Hne Hws Ha Hb Hparts Hy)
      as (m0 & Hm0).
    fold v in Hm0.
    destruct (first_match_Some _ _ _ _ _ Hm0) as (m & s'' & E & HM).
    exists m. split; [now apply search_hit|].
    apply rx_msvc_version_split in HM.
    destruct HM as (w1 & g & x & g' & y' & s2 & Heq & _ & Hw1 & Hg & Hx & Hgd & Hy' & ->).
    f_equal.
    assert (H1 : w1 = ws /\ g ++ y' :: s2 = v ++ y :: post).
    { apply (longest_run_unique (fun c => is_space c = true)); auto.
      - rewrite Hg. simpl. now apply digit_not_space'.
      - rewrite Hv0. simpl. now apply digit_not_space'. }
    destruct H1 as [_ H1].
    apply (longest_run_unique (fun c => digit_or_dot c = true)) in H1; auto.
    + tauto.
    + simpl. rewrite space_not_digit_or_dot by assumption. discriminate.
    + simpl. rewrite space_not_digit_or_dot by assumption. discriminate.
  - intros p1 p2 -> Hp2. apply first_match_None. intros c' s' HM.
    apply rx_msvc_version_split in HM.
    destruct HM as (w1 & g & x & g' & y' & s2 & Heq & Hw1ne & Hw1 & -> & Hx & _).
    apply Forall_app in Hpre. destruct Hpre as [_ Hp2d].
    assert (Hns : ~ Forall (fun c => is_space c = true) p2).
    { intros Hall. destruct (exists_last Hp2) as (p2' & z & ->).
      apply Forall_app in Hall. destruct Hall as [_ Hz]. inversion Hz; subst.
      rewrite (Hlast (p1 ++ p2') z) in H1; [discriminate|].
      now rewrite app_assoc. }
    apply app_eq_app in Heq. destruct Heq as (k & [[-> Hk]|[-> Hk]]).
    + destruct k as [|z k].
      * apply Hns. now rewrite app_nil_r.
      * simpl in Hk. injection Hk as -> _.
        apply Forall_app in Hp2d. destruct Hp2d as [_ Hz]. inversion Hz; subst.
        congruence.
    + apply Hns. apply Forall_app in Hw1. tauto.
Qed.

(** After the banner is read: a version of two or more numbers, unless
    the number of the banner has a run of digits too long for [int]. *)
Lemma version_of_banner (stderr : str) (st : state) :
  let read :=
    (match re_search rx_msvc_version stderr with
     | Some m => lift (map_int (split "." (fmt_s (group m 1))))
     | None => mret [16; 0]%N
     end : M (list N)) st in
  (exists ver, read = (Ok ver, st) /\ (2 <= length ver)%nat)
  \/ (read = (Raise ValueError, st)
      /\ exists pre long post,
           stderr = pre ++ long ++ post /\ digits long /\ ~ within_limit long).
Proof.
  intros read. subst read.
  destruct (re_search rx_msvc_version stderr) as [m|] eqn:E.
  - unfold re_search in E. apply search_from_inv in E.
    destruct E as (skipped & s0 & s' & Hs & HM).
    pose proof (rx_msvc_version_split _ _ _ _ HM)
      as (w1 & g & x & g' & y & s2 & Hs0 & _ & _ & _ & _ & _ & _ & Hg).
    apply rx_msvc_version_inv in HM.
    destruct HM as (a & b & parts & Ha & Hb & Hparts & Hgrp).
    assert (Hgeq : g = join "." (a :: b :: parts)) by congruence.
    rewrite Hgeq in Hs0. clear Hg Hgeq. rewrite Hgrp. cbn [fmt_s].
    assert (Hall : Forall digits (a :: b :: parts))
      by (repeat (constructor; [assumption|]); assumption).
    destruct (limit_or_not (a :: b :: parts)) as [Hlim|(p & Hin & Hp)].
    + left. rewrite dotted_to_tuple; [|discriminate|assumption|assumption].
      eexists. split; [reflexivity|]. simpl. lia.
    + right. rewrite (dotted_refused _ p) by assumption. split; [reflexivity|].
      destruct (in_join "." p _ Hin) as (l & r & Hj).
      exists (skipped ++ w1 ++ l), p, (r ++ y :: s2).
      split; [|split; [|exact Hp]].
      * rewrite Hs, Hs0, Hj. now rewrite <- !app_assoc.
      * rewrite Forall_forall in Hall. apply Hall. now apply list_elem_of_In.
  - left. exists [16; 0]%N. split; [reflexivity|]. simpl. lia.
Qed.

End MsvcBanner.

(** ** What the constructors leave *)

Module ConstructFacts.

Import Basics Outcome PlatformFacts.

Lemma In_app_iff_str (x : str) (a b : list str) : In x (a ++ b) <-> In x a \/ In x b.
Proof. apply in_app_iff. Qed.

Lemma Windows_init_inv (h : host) (st st' : state) (bs : BuildSupport) :
  BuildSupportWindows_init h st = (Ok bs, st') ->
  exists swig root ver st1,
    find_swig_windows h st = (Ok swig, st1)
    /\ environ h !! ("FAI_SDK_ROOT_PATH" : str) = Some root /\ root <> []
    /\ detect_msvc_ver h st1 = (Ok ver, st')
    /\ bs = windows_instance h swig root ver.
Proof.
  unfold BuildSupportWindows_init. unfold_M.
  destruct (find_swig_windows h st) as [[swig|e] st1]; [|discriminate].
  destruct (environ h !! _) as [[|x root]|]; try discriminate.
  destruct (detect_msvc_ver h st1) as [[ver|e] st2] eqn:E; [|discriminate].
  intros [= <- <-]. exists swig, (x :: root), ver, st1.
  split; [reflexivity|]. split; [reflexivity|]. split; [discriminate|].
  split; [exact E|reflexivity].
Qed.

Lemma make_Windows (h : host) (st : state) :
  get_platform h = "Windows" -> make h st = made (BuildSupportWindows_init h st).
Proof.
  intros H. unfold make. rewrite H. rewrite str_eqb_true by reflexivity. unfold_M.
  destruct (BuildSupportWindows_init h st) as [[bs|e] st1]; reflexivity.
Qed.

Lemma make_Linux (h : host) (st : state) :
  get_platform h = "Linux" -> make h st = made (BuildSupportLinux_init h st).
Proof.
  intros H. unfold make. rewrite H. rewrite str_eqb_false by discriminate.
  rewrite str_eqb_true by reflexivity. unfold_M.
  destruct (BuildSupportLinux_init h st) as [[bs|e] st1]; reflexivity.
Qed.

End ConstructFacts.

(** ** Include directories of the code generator *)

Module IncludeFacts.

Import Basics Outcome PlatformFacts ConstructFacts.

Lemma filter_remove_first (f : str -> bool) (x : str) (l : list str) :
  f x = false -> List.filter f (remove_first x l) = List.filter f l.
Proof.
  intros Hx. induction l as [|y l IH]; [reflexivity|].
  simpl. destruct (str_eqb y x) eqn:E.
  - apply str_eqb_eq in E. subst y. now rewrite Hx.
  - simpl. now rewrite IH.
Qed.

Lemma debug_keeps_includes (bs : BuildSupport) :
  get_swig_includes (use_debug_configuration bs) = get_swig_includes bs.
Proof.
  unfold get_swig_includes, use_debug_configuration.
  destruct (class_of bs) eqn:E; cbn [class_of with_flags RootDevDir ExtraCompileArgs];
    rewrite ?E; [reflexivity|].
  rewrite List.filter_app. cbn [List.filter]. 
  change (starts_with "-I" "-O0") with false.
  change (starts_with "-I" "-g3") with false.
  rewrite app_nil_r, !filter_remove_first by reflexivity. reflexivity.
Qed.

End IncludeFacts.

(** ** The name of the generated source *)

Module NameFacts.

Import Basics Tree FSFacts SwigFacts EnumerateFacts.

Lemma last_dot_none (s : str) : ~ In "."%char s -> last_dot s = None.
Proof.
  induction s as [|c s IH]; intros H; [reflexivity|]. simpl.
  rewrite IH by (intros Hin; apply H; now right).
  destruct (Ascii.eqb c ".") eqn:E; [|reflexivity].
  apply Ascii.eqb_eq in E. subst c. exfalso. apply H. now left.
Qed.

Lemma last_dot_stem (stem ext : str) :
  ~ In "."%char ext -> last_dot (stem ++ "."%char :: ext) = Some (length stem).
Proof.
  intros He. induction stem as [|c stem IH]; simpl.
  - rewrite last_dot_none by assumption. reflexivity.
  - rewrite IH. reflexivity.
Qed.

Lemma not_in_app3 (x : ascii) (a b : str) (c : ascii) :
  ~ In x a -> ~ In x b -> x <> c -> ~ In x (a ++ c :: b).
Proof.
  intros Ha Hb Hc H. apply in_app_or in H.
  destruct H as [H|[H|H]]; [tauto|congruence|tauto].
Qed.

(** [os.path.splitext] of a file name with one dot, in no directory. *)
Lemma splitext_root_stem (stem ext : str) :
  stem <> [] -> ~ In "/"%char stem -> ~ In "."%char stem ->
  ~ In "/"%char ext -> ~ In "."%char ext ->
  splitext_root (stem ++ "." ++ ext) = stem.
Proof.
  intros Hne Hs1 Hs2 He1 He2.
  change (stem ++ "." ++ ext) with (stem ++ "."%char :: ext).
  unfold splitext_root, basename.
  rewrite split_no_sep by (apply not_in_app3; auto; discriminate).
  cbn [List.last].
  assert (Hlead : leading_dots (stem ++ "."%char :: ext) = 0%nat).
  { destruct stem as [|c stem]; [congruence|]. simpl.
    destruct (Ascii.eqb c ".") eqn:E; [|reflexivity].
    apply Ascii.eqb_eq in E. subst c. exfalso. apply Hs2. now left. }
  rewrite Hlead, skipn_O. rewrite last_dot_stem by assumption.
  rewrite Nat.sub_diag. cbn [Nat.add].
  rewrite firstn_app, Nat.sub_diag, firstn_all. simpl. apply app_nil_r.
Qed.

Lemma legal_name_suffixed (stem suffix : str) :
  ~ In "/"%char stem -> ~ In "/"%char suffix -> (3 <= length suffix)%nat ->
  legal_name (stem ++ suffix).
Proof.
  intros Hs Hx Hlen. unfold legal_name.
  assert (Hl : (3 <= length (stem ++ suffix))%nat) by (rewrite length_app; lia).
  repeat split.
  - intros E. rewrite E in Hl. simpl in Hl. lia.
  - intros E. rewrite E in Hl. simpl in Hl. lia.
  - intros E. rewrite E in Hl. simpl in Hl. lia.
  - intros H. apply in_app_or in H. tauto.
Qed.

Section Names.

Variable h : host.

Lemma resolve_GeneratedDir : resolve (cwd h) GeneratedDir = cwd h ++ ["generated" : str].
Proof. reflexivity. Qed.

Lemma resolve_PackageDir : resolve (cwd h) PackageDir = cwd h ++ ["FAI_python" : str].
Proof. reflexivity. Qed.

Lemma GeneratedDir_plain : plain GeneratedDir.
Proof. split; [discriminate|reflexivity]. Qed.

(** The generated source lies in the generated directory under the
    working directory. *)
Lemma wrapper_path (stem : str) :
  ~ In "/"%char stem ->
  abspath h (path_join GeneratedDir (stem ++ "_wrap.c"))
  = "/" ++ join "/" (cwd h ++ ["generated" : str; stem ++ "_wrap.c"]).
Proof.
  intros Hs. unfold abspath. f_equal. f_equal.
  destruct (join_plain h GeneratedDir (stem ++ "_wrap.c") GeneratedDir_plain) as [_ H].
  - apply legal_name_suffixed; [assumption| |simpl; lia].
    simpl. intuition discriminate.
  - rewrite H, resolve_GeneratedDir, <- app_assoc. reflexivity.
Qed.

End Names.

End NameFacts.

(** ** Files written in a directory *)

Module WriteFacts.

Import Basics Tree FSFacts SwigFacts EnumerateFacts NameFacts Generated.

Lemma fold_norm_legal (l stack : list str) :
  Forall legal_name l -> fold_left norm_step l stack = stack ++ l.
Proof.
  intros H. revert stack. induction H as [|n l Hn _ IH]; intros stack; simpl.
  - now rewrite app_nil_r.
  - rewrite legal_name_step by assumption. rewrite IH, <- app_assoc. reflexivity.
Qed.

Lemma legal_no_slash (l : list str) :
  Forall legal_name l -> Forall (fun p => ~ In "/"%char p) l.
Proof. induction 1 as [|n l Hn _ IH]; constructor; auto. apply Hn. Qed.

(** An absolute path made of names is resolved to these names. *)
Lemma resolve_absolute (c l : list str) :
  Forall legal_name l -> resolve c ("/" ++ join "/" l) = l.
Proof.
  intros H. unfold resolve. cbn [app list_ascii_of_string starts_with_slash].
  rewrite Ascii.eqb_refl. cbn [split]. rewrite Ascii.eqb_refl.
  destruct l as [|n l]; [reflexivity|].
  change (list_ascii_of_string "/") with ["/"%char].
  rewrite split_join; [|discriminate|now apply legal_no_slash].
  change (fold_left norm_step ([] :: n :: l) []) with (fold_left norm_step (n :: l) []).
  now apply fold_norm_legal.
Qed.

Lemma join_snoc (sep : str) (l : list str) (n : str) :
  l <> [] -> join sep (l ++ [n]) = join sep l ++ sep ++ n.
Proof.
  induction l as [|x l IH]; intros Hne; [congruence|].
  destruct l as [|y l]; [reflexivity|].
  change (join sep ((x :: y :: l) ++ [n])) with (x ++ sep ++ join sep ((y :: l) ++ [n])).
  rewrite IH by discriminate.
  change (join sep (x :: y :: l)) with (x ++ sep ++ join sep (y :: l)).
  repeat rewrite <- app_assoc. reflexivity.
Qed.

Lemma absolute_plain (l : list str) :
  l <> [] -> Forall legal_name l -> plain ("/" ++ join "/" l).
Proof.
  intros Hne H. split; [discriminate|].
  destruct (exists_last Hne) as (l' & n & ->).
  apply Forall_app in H. destruct H as [_ Hn]. inversion Hn as [|? ? Hn' _]; subst.
  destruct (legal_name_no_slash n Hn') as [_ He].
  destruct l' as [|x l'].
  - simpl. change ("/"%char :: n) with (["/"%char] ++ n).
    rewrite ends_with_slash_app; [exact He|apply Hn'].
  - rewrite join_snoc by discriminate.
    rewrite !app_assoc. rewrite ends_with_slash_app; [exact He|apply Hn'].
Qed.

Lemma set_entry_twice (n : str) (x y : node) (es : list (str * node)) :
  set_entry n y (set_entry n x es) = set_entry n y es.
Proof.
  induction es as [|[k v] es IH]; simpl.
  - now rewrite str_eqb_refl.
  - destruct (str_eqb k n) eqn:E; simpl.
    + now rewrite str_eqb_refl.
    + now rewrite E, IH.
Qed.

(** Changing the node at a path that is there. *)
Lemma alter_at_there (f g : node -> node) (t : node) (d : list str) (x : node) :
  lookup t d = Some x -> f x = g x -> alter_at f t d = alter_at g t d.
Proof.
  revert t. induction d as [|n d IH]; intros t; simpl.
  - now intros [= ->].
  - destruct t as [data|es]; [discriminate|].
    destruct (assoc n es) as [t'|]; [|discriminate].
    intros H Hfg. now rewrite (IH t' H Hfg).
Qed.

Lemma alter_at_twice (f g : node -> node) (t : node) (d : list str) :
  alter_at g (alter_at f t d) d = alter_at (fun x => g (f x)) t d.
Proof.
  revert t. induction d as [|n d IH]; intros t; simpl; [reflexivity|].
  destruct t as [data|es]; [reflexivity|].
  destruct (assoc n es) as [t'|] eqn:E; simpl.
  - rewrite assoc_set_entry, str_eqb_refl, IH, set_entry_twice. reflexivity.
  - now rewrite E.
Qed.

Lemma put_in_dir (t : node) (d : list str) (n : str) (x : node) (es : list (str * node)) :
  lookup t d = Some (Dir es) ->
  put t (d ++ [n]) x = Ok (alter_at (fun _ => Dir (set_entry n x es)) t d).
Proof.
  intros H. unfold put. destruct (d ++ [n]) eqn:E; [destruct d; discriminate|].
  rewrite <- E, removelast_snoc, last_snoc, H. f_equal.
  eapply alter_at_there; [exact H|reflexivity].
Qed.

Lemma lookup_altered (t : node) (d : list str) (x y : node) :
  lookup t d = Some x -> lookup (alter_at (fun _ => y) t d) d = Some y.
Proof.
  intros H. pose proof (lookup_alter_at (fun _ => y) t d []) as E.
  rewrite app_nil_r, H in E. exact E.
Qed.

Section Append.

Variable h : host.

(** [open(p, "a")], a write and [close], in a directory that is there. *)
Lemma append_in_dir (p : str) (d : list str) (n text : str) (st : state)
    (es : list (str * node)) :
  resolve (cwd h) p = d ++ [n] ->
  lookup (fs st) d = Some (Dir es) ->
  not_a_directory (assoc n es) ->
  append_file h p text st
  = (Ok tt,
     with_fs st
       (alter_at (fun _ => Dir (set_entry n (File (contents (assoc n es) ++ text)) es))
          (fs st) d)).
Proof.
  intros Hp Hd Hn. unfold append_file, get_fs, set_fs, node_at. unfold_M.
  rewrite Hp, lookup_app, Hd. cbn [lookup].
  destruct (assoc n es) as [[data|sub]|] eqn:E; cbn [contents]; try contradiction.
  - rewrite (put_in_dir _ _ _ _ es Hd). reflexivity.
  - rewrite (put_in_dir _ _ _ _ es Hd). reflexivity.
Qed.

End Append.

Section Module.

Variable h : host.

Lemma package_legal :
  Forall legal_name (cwd h) -> Forall legal_name (cwd h ++ ["FAI_python" : str]).
Proof.
  intros H. apply Forall_app. split; [assumption|].
  repeat constructor; try discriminate. simpl. intuition discriminate.
Qed.

(** A file named in the package directory through its absolute path. *)
Lemma resolve_in_package (n : str) :
  Forall legal_name (cwd h) -> legal_name n ->
  resolve (cwd h) (path_join (abspath h PackageDir) n)
  = cwd h ++ ["FAI_python" : str] ++ [n].
Proof.
  intros Hcwd Hn. unfold abspath. rewrite resolve_PackageDir.
  pose proof (package_legal Hcwd) as Hp.
  destruct (join_plain h ("/" ++ join "/" (cwd h ++ ["FAI_python" : str])) n) as [_ H].
  - apply absolute_plain; [destruct (cwd h); discriminate|assumption].
  - assumption.
  - rewrite H, resolve_absolute by assumption. now rewrite <- app_assoc.
Qed.

End Module.

End WriteFacts.

(** ** [clean] and regular files *)

Module CleanFiles.

Import Basics Tree FSFacts CleanFacts.

(** [os.makedirs] of a path that is there. *)
Lemma makedirs_at_exists (t : node) (p : list str) (x : node) :
  lookup t p = Some x -> makedirs_at t p = Raise FileExistsError.
Proof.
  revert t. induction p as [|n p IH]; intros t H; [reflexivity|].
  simpl in *. destruct t as [data|es]; [discriminate|].
  destruct (assoc n es) as [t'|]; [|discriminate].
  now rewrite (IH t' H).
Qed.

Section Files.

Variable h : host.

Lemma clean_keep_generated_file (st : state) (data : str) :
  lookup (fs st) (cwd h ++ ["generated" : str]) = Some (File data) ->
  exists st',
    clean h "keep" None st = (Raise FileExistsError, st')
    /\ spawned st' = spawned st /\ setups st' = setups st
    /\ lookup (fs st') (cwd h ++ ["generated" : str]) = Some (File data)
    /\ lookup (fs st') (cwd h ++ ["FAI_python" : str])
       = cleared (lookup (fs st) (cwd h ++ ["FAI_python" : str])).
Proof.
  intros Hg.
  set (names := ["generated" : str; "FAI_python" : str]).
  set (t1 := fold_left (fun t n => rmtree_ignore_errors t (cwd h ++ [n])) names (fs st)).
  assert (H1 : forall m, lookup t1 (cwd h ++ [m])
                         = if contains m names then cleared (lookup (fs st) (cwd h ++ [m]))
                           else lookup (fs st) (cwd h ++ [m]))
    by (intros m; apply lookup_rmtrees).
  assert (Hg1 : lookup t1 (cwd h ++ ["generated" : str]) = Some (File data)).
  { rewrite H1. replace (contains "generated" names) with true by reflexivity.
    now rewrite Hg. }
  exists (with_fs st t1). split; [|split; [|split; [|split]]]; try reflexivity.
  - unfold clean. rewrite str_eqb_false by discriminate.
    unfold_M. rewrite for_each_rmtree.
    rewrite str_eqb_true by reflexivity.
    unfold makedirs, get_fs, set_fs. unfold_M. cbn [fs with_fs].
    change (resolve (cwd h) GeneratedDir) with (cwd h ++ ["generated" : str]).
    change (fold_left _ _ (fs st)) with t1.
    rewrite (makedirs_at_exists _ _ _ Hg1). reflexivity.
  - exact Hg1.
  - cbn [fs with_fs]. rewrite H1. reflexivity.
Qed.

Lemma clean_keep_package_file (st : state) (data : str) :
  (exists es, lookup (fs st) (cwd h) = Some (Dir es)) ->
  ~ plain_file (lookup (fs st) (cwd h ++ ["generated" : str])) ->
  lookup (fs st) (cwd h ++ ["FAI_python" : str]) = Some (File data) ->
  exists st',
    clean h "keep" None st = (Raise FileExistsError, st')
    /\ spawned st' = spawned st /\ setups st' = setups st
    /\ lookup (fs st') (cwd h ++ ["generated" : str]) = Some (Dir [])
    /\ lookup (fs st') (cwd h ++ ["FAI_python" : str]) = Some (File data).
Proof.
  intros Hcwd Hg Hp.
  set (names := ["generated" : str; "FAI_python" : str]).
  set (t1 := fold_left (fun t n => rmtree_ignore_errors t (cwd h ++ [n])) names (fs st)).
  assert (H1 : forall m, lookup t1 (cwd h ++ [m])
                         = if contains m names then cleared (lookup (fs st) (cwd h ++ [m]))
                           else lookup (fs st) (cwd h ++ [m]))
    by (intros m; apply lookup_rmtrees).
  assert (Hd1 : exists es, lookup t1 (cwd h) = Some (Dir es)).
  { pose proof (lookup_rmtrees_dir (cwd h) names (fs st)) as H.
    fold t1 in H. destruct Hcwd as (es & Hes). rewrite Hes in H.
    destruct (lookup t1 (cwd h)) as [[|es1]|]; try discriminate. eauto. }
  destruct (makedirs_at_fresh (cwd h) "generated" t1 Hd1) as (t2 & Ht2 & H2 & Hd2).
  { rewrite H1. simpl. now apply cleared_not_file. }
  assert (Hp2 : lookup t2 (cwd h ++ ["FAI_python" : str]) = Some (File data)).
  { rewrite H2. rewrite str_eqb_false by discriminate. rewrite H1.
    replace (contains "FAI_python" names) with true by reflexivity.
    now rewrite Hp. }
  exists (with_fs st t2). split; [|split; [|split; [|split]]]; try reflexivity.
  - unfold clean. rewrite str_eqb_false by discriminate.
    unfold_M. rewrite for_each_rmtree.
    rewrite str_eqb_true by reflexivity.
    unfold makedirs, get_fs, set_fs. unfold_M. cbn [fs with_fs].
    change (resolve (cwd h) GeneratedDir) with (cwd h ++ ["generated" : str]).
    change (resolve (cwd h) PackageDir) with (cwd h ++ ["FAI_python" : str]).
    change (fold_left _ _ (fs st)) with t1.
    rewrite Ht2. cbn [fs]. rewrite (makedirs_at_exists _ _ _ Hp2). reflexivity.
  - cbn [fs with_fs]. rewrite H2. rewrite str_eqb_true by reflexivity. reflexivity.
  - exact Hp2.
Qed.

End Files.

End CleanFiles.

(** ** What [clean] leaves alone *)

Module FrameFacts.

Import Basics Tree FSFacts CleanFacts Frame.

Lemma lookup_alter_diverge (f : node -> node) (t : node) (c : list str)
    (k k' : str) (r r' : list str) :
  k <> k' ->
  lookup (alter_at f t (c ++ k :: r)) (c ++ k' :: r') = lookup t (c ++ k' :: r').
Proof.
  intros Hk. revert t. induction c as [|n c IH]; intros t; simpl.
  - destruct t as [data|es]; [reflexivity|].
    destruct (assoc k es) as [t'|]; [|reflexivity].
    simpl. rewrite assoc_set_entry. now rewrite str_eqb_false.
  - destruct t as [data|es]; [reflexivity|].
    destruct (assoc n es) as [t'|] eqn:E; simpl; [|now rewrite E].
    rewrite assoc_set_entry, str_eqb_refl. apply IH.
Qed.

Lemma lookup_unlink (k k' : str) (x : node) (r' : list str) :
  k <> k' -> lookup (unlink k x) (k' :: r') = lookup x (k' :: r').
Proof.
  intros Hk. destruct x as [data|es]; [reflexivity|].
  simpl. rewrite assoc_del_entry. now rewrite str_eqb_false.
Qed.

(** [rmtree] of a path changes nothing at a path that parts from it. *)
Lemma lookup_rmtree_diverge (t : node) (p q : list str) :
  diverge p q -> lookup (rmtree_ignore_errors t p) q = lookup t q.
Proof.
  intros (c & k & k' & r & r' & -> & -> & Hk). unfold rmtree_ignore_errors.
  destruct (lookup t (c ++ k :: r)) as [[data|es]|]; try reflexivity.
  destruct (exists_last (l := k :: r)) as (r0 & n & Hr); [discriminate|].
  rewrite Hr, app_assoc, remove_snoc.
  destruct r0 as [|k0 r0].
  - simpl in Hr. injection Hr as -> _. rewrite app_nil_r.
    rewrite lookup_alter_at, lookup_app.
    destruct (lookup t c) as [x|]; [|reflexivity]. now apply lookup_unlink.
  - simpl in Hr. injection Hr as -> _. now apply lookup_alter_diverge.
Qed.

Lemma lookup_rmtrees_diverge (ps : list (list str)) (q : list str) (t : node) :
  Forall (fun p => diverge p q) ps ->
  lookup (fold_left rmtree_ignore_errors ps t) q = lookup t q.
Proof.
  intros H. revert t. induction H as [|p ps Hp _ IH]; intros t; simpl; [reflexivity|].
  rewrite IH. now apply lookup_rmtree_diverge.
Qed.

Lemma fold_left_map {A B C} (f : A -> C -> A) (g : B -> C) (l : list B) (a : A) :
  fold_left f (map g l) a = fold_left (fun x y => f x (g y)) l a.
Proof. revert a. induction l as [|y l IH]; intros a; simpl; auto. Qed.

End FrameFacts.

(** ** What [os.walk] reports *)

Module ListedFacts.

Import Basics Tree FSFacts SwigFacts EnumerateFacts Distinct.

Lemma In_assoc_distinct (n : str) (t : node) (es : list (str * node)) :
  List.NoDup (map fst es) -> In (n, t) es -> assoc n es = Some t.
Proof.
  induction es as [|[k v] es IH]; simpl; [intros _ []|].
  intros Hnd Hin. apply List.NoDup_cons_iff in Hnd. destruct Hnd as [Hk Hnd].
  destruct Hin as [[= -> ->]|Hin].
  - now rewrite str_eqb_refl.
  - destruct (str_eqb k n) eqn:E; [|auto].
    apply str_eqb_eq in E. subst k. exfalso. apply Hk.
    apply in_map_iff. exists (n, t). auto.
Qed.

Lemma in_below_inv (root : str) (es : list (str * node)) x :
  In x (below root es walk_node) ->
  exists n t, In (n, t) es /\ In x (walk_node (path_join root n) t).
Proof.
  induction es as [|[n t] es IH]; simpl; [intros []|].
  intros H. apply in_app_or in H. destruct H as [H|H].
  - exists n, t. auto.
  - destruct (IH H) as (n' & t' & Hin & Hx). exists n', t'. auto.
Qed.

(** Every file [os.walk] reports is a file of the tree, and the
    directory it is reported in is the one it lies in. *)
Lemma walk_node_sound (t : node) :
  distinct t ->
  forall (root : str) x (fname : str),
    In x (walk_node root t) -> In fname x.2 ->
    exists dirs data,
      lookup t (dirs ++ [fname]) = Some (File data)
      /\ x.1.1 = fold_left path_join dirs root.
Proof.
  induction 1 as [data|es Hnd Hsub IH]; intros root x fname; [intros []|].
  rewrite walk_node_Dir. intros [<- |Hx] Hf.
  - cbn [fst snd] in *. apply in_map_iff in Hf.
    destruct Hf as ([n t'] & <- & Hin). apply filter_In in Hin.
    destruct Hin as [Hin Hfile]. cbn [fst snd] in *.
    destruct t' as [data|sub]; [|discriminate].
    exists [], data. split; [|reflexivity].
    simpl. now rewrite (In_assoc_distinct _ _ _ Hnd Hin).
  - apply in_below_inv in Hx. destruct Hx as (n & t' & Hin & Hx).
    destruct (IH n t' Hin _ _ _ Hx Hf) as (dirs & data & Hl & Hr).
    exists (n :: dirs), data. split; [|exact Hr].
    simpl. now rewrite (In_assoc_distinct _ _ _ Hnd Hin).
Qed.

Lemma in_bind_inv {A B} (f : A -> list B) (l : list A) (y : B) :
  In y (l ≫= f) -> exists x, In x l /\ In y (f x).
Proof.
  intros H. apply list_elem_of_In in H. apply list_elem_of_bind in H.
  destruct H as (x & Hy & Hx). exists x. split; apply list_elem_of_In; assumption.
Qed.

Section Listed.

Variable h : host.

(** What [files_below] holds for an entry of the package directory that
    is a directory: nothing but files that lie under it. *)
Lemma files_below_sound (t : node) (pkg : list (str * node)) (d : str) (sub : node)
    (f : str) :
  node_at h t PackageDir = Some (Dir pkg) -> legal (Dir pkg) ->
  assoc d pkg = Some sub -> distinct sub ->
  In f (files_below h t (path_join PackageDir d)) ->
  exists rest data,
    rest <> [] /\ lookup (Dir pkg) (d :: rest) = Some (File data)
    /\ f = join "/" (d :: rest).
Proof.
  intros Hpkg Hlegal Hd Hdist Hf.
  assert (Hdl : legal_name d /\ legal sub).
  { inversion Hlegal as [|? Hn Hl]; subst. apply assoc_In in Hd. eauto. }
  destruct Hdl as [Hdn Hsubl].
  destruct (join_plain h PackageDir d PackageDir_plain Hdn) as [Hpd Hrd].
  assert (Hnode : node_at h t (path_join PackageDir d) = Some sub).
  { unfold node_at in *. rewrite Hrd, lookup_app, Hpkg. simpl. now rewrite Hd. }
  unfold files_below, walk in Hf. rewrite Hnode in Hf.
  apply in_bind_inv in Hf. destruct Hf as ([[root ds] fnames] & Hx & Hf).
  apply in_bind_inv in Hf. destruct Hf as (fname & Hfn & Hf).
  destruct Hf as [<- |[]].
  destruct (walk_node_sound sub Hdist _ _ fname Hx Hfn) as (dirs & data & Hl & Hr).
  cbn [fst snd] in Hr. subst root.
  exists (dirs ++ [fname]), data. split; [destruct dirs; discriminate|].
  split; [simpl; now rewrite Hd|].
  destruct (legal_lookup _ _ _ Hsubl Hl) as [Hnames _].
  apply Forall_app in Hnames. destruct Hnames as [Hdirs Hfname].
  inversion Hfname as [|? ? Hfname' _]; subst.
  destruct (join_all_plain h dirs _ Hpd Hdirs) as [Hp' Hr'].
  destruct (join_plain h _ fname Hp' Hfname') as [_ Hr''].
  apply relpath_below; [discriminate|].
  rewrite Hr'', Hr', Hrd. rewrite <- !app_assoc. reflexivity.
Qed.

Lemma data_files_of_sound (t : node) (pkg : list (str * node)) (entries : list str)
    (found : list str) :
  node_at h t PackageDir = Some (Dir pkg) -> legal (Dir pkg) -> distinct (Dir pkg) ->
  (forall n, In n entries -> In n (map fst pkg)) ->
  data_files_of h t PackageDir entries = Ok found ->
  forall f, In f found ->
    exists d rest data,
      rest <> [] /\ lookup (Dir pkg) (d :: rest) = Some (File data)
      /\ f = join "/" (d :: rest).
Proof.
  intros Hpkg Hlegal Hdist. revert found.
  induction entries as [|e entries IH]; intros found Hsub.
  - intros [= <-] f [].
  - destruct (In_assoc e pkg) as (te & Hte); [apply Hsub; now left|].
    assert (Hname : legal_name e).
    { inversion Hlegal as [|? Hn _]; subst. eapply Hn. eapply assoc_In, Hte. }
    destruct (join_plain h PackageDir e PackageDir_plain Hname) as [_ Hre].
    assert (Hnode : node_at h t (path_join PackageDir e) = Some te).
    { unfold node_at in *. rewrite Hre, lookup_app, Hpkg. simpl. now rewrite Hte. }
    cbn [data_files_of]. rewrite Hnode.
    destruct (data_files_of h t PackageDir entries) as [more|err] eqn:Emore;
      [|discriminate].
    cbn [mbind result_bind Py.bind]. intros [= <-] f Hf.
    apply in_app_or in Hf. destruct Hf as [Hf|Hf].
    + destruct (is_dir te) eqn:Edir; [|destruct Hf].
      assert (Hdt : distinct te).
      { inversion Hdist as [|? _ Hs]; subst. eapply Hs. eapply assoc_In, Hte. }
      destruct (files_below_sound t pkg e te f Hpkg Hlegal Hte Hdt Hf)
        as (rest & data & Hne & Hl & Heq).
      exists e, rest, data. auto.
    + eapply (IH more); auto. intros n Hn. apply Hsub. now right.
Qed.

End Listed.

Ltac tree_is_legal :=
  repeat first
    [ apply legal_file
    | apply legal_dir;
      intros ? ? Hin; simpl in Hin;
      repeat (destruct Hin as [Hin|Hin]; [inversion Hin; subst; clear Hin|]);
      try contradiction
    | match goal with
      | |- legal_name _ => repeat split; try discriminate; simpl; intuition discriminate
      end ].

Ltac tree_is_distinct :=
  repeat first
    [ apply distinct_file
    | apply distinct_dir;
      [ simpl; repeat (apply List.NoDup_cons; [simpl; intuition discriminate|]);
        apply List.NoDup_nil
      | intros ? ? Hin; simpl in Hin;
        repeat (destruct Hin as [Hin|Hin]; [inversion Hin; subst; clear Hin|]);
        try contradiction ] ].

End ListedFacts.

(** ** Runs that do not get to [setup] *)

Module RunFacts.

Import Basics Outcome PlatformFacts SwigFacts DebugFacts StagingFacts ConstructFacts.

Section Steps.

Variable h : host.

Lemma kept_is_supported (exe : option str) :
  setups_kept (is_supported_swig_version h exe).
Proof.
  unfold is_supported_swig_version. destruct exe as [exe|]; [|apply kept_ret].
  apply kept_bind.
  - apply kept_try_except; [|apply kept_ret].
    apply kept_bind; [apply kept_spawn|intros ?; apply kept_ret].
  - intros [output|]; [apply kept_lift|apply kept_ret].
Qed.

Lemma kept_find_swig_in (cs : list str) : setups_kept (find_swig_in h cs).
Proof.
  induction cs as [|c cs IH]; cbn [find_swig_in]; [apply kept_raise|].
  apply kept_bind; [apply kept_is_supported|].
  intros []; [apply kept_ret|exact IH].
Qed.

Lemma kept_find_swig_windows_in (cs : list str) :
  setups_kept (find_swig_windows_in h cs).
Proof.
  induction cs as [|c cs IH]; cbn [find_swig_windows_in]; [apply kept_find_swig_in|].
  apply kept_bind; [apply kept_is_supported|].
  intros []; [apply kept_ret|exact IH].
Qed.

Lemma kept_detect_msvc_ver : setups_kept (detect_msvc_ver h).
Proof.
  unfold detect_msvc_ver. apply kept_bind.
  - destruct (msvc_cc h); [|apply kept_ret].
    apply kept_try_except; [apply kept_spawn|apply kept_ret].
  - intros stderr. destruct (re_search _ _); [apply kept_lift|apply kept_ret].
Qed.

Lemma kept_make : setups_kept (make h).
Proof.
  unfold make. destruct (str_eqb _ _).
  - apply kept_bind; [|intros ?; apply kept_ret].
    unfold BuildSupportWindows_init. apply kept_bind.
    + apply kept_find_swig_windows_in.
    + intros swig. destruct (environ h !! _) as [[|x root]|]; try apply kept_raise.
      apply kept_bind; [apply kept_detect_msvc_ver|intros ?; apply kept_ret].
  - destruct (str_eqb _ _); [|apply kept_ret].
    apply kept_bind; [|intros ?; apply kept_ret].
    unfold BuildSupportLinux_init.
    apply kept_bind; [apply kept_find_swig_in|intros ?; apply kept_ret].
Qed.

(** [call_swig] leaves the class and the manifest. *)
Lemma call_swig_class (bs : BuildSupport) (sourcedir source version : str)
    (skip : bool) (st st' : state) (r : str * BuildSupport) :
  call_swig h bs sourcedir source version skip st = (Ok r, st') ->
  class_of r.2 = class_of bs /\ RuntimeFiles r.2 = RuntimeFiles bs
  /\ LibraryDirs r.2 = LibraryDirs bs.
Proof.
  unfold call_swig. destruct skip.
  - intros [= <- _]. auto.
  - cbn [SwigExe with_SwigOptions]. destruct (SwigExe bs); [|discriminate].
    unfold_M.
    destruct (spawn h _ st) as [[?|?] ?]; [|discriminate].
    destruct (append_file h _ _ _) as [[?|?] ?]; [|discriminate].
    destruct (append_file h _ _ _) as [[?|?] ?]; [|discriminate].
    intros [= <- _]. auto.
Qed.

Lemma debug_class (bs : BuildSupport) :
  class_of (use_debug_configuration bs) = class_of bs
  /\ RuntimeFiles (use_debug_configuration bs) = RuntimeFiles bs.
Proof. unfold use_debug_configuration. destruct (class_of bs) eqn:E; auto. Qed.

(** A Linux instance without a manifest for [libDemosaic] cannot have
    its runtime copied. *)
Lemma copy_runtime_raises (bs : BuildSupport) (st : state) :
  class_of bs = BuildSupportLinux ->
  RuntimeFiles bs !! ("libDemosaic" : str) = None ->
  In ("libDemosaic" : str) (set_order h) ->
  exists e st', copy_runtime h bs st = (Raise e, st').
Proof.
  intros Hc Hm Hin. unfold copy_runtime. rewrite Hc. unfold copy_runtime_linux.
  eapply for_each_raises; [exact Hin|].
  intros st0. exists (KeyError "libDemosaic").
  unfold manifest_of. unfold_M. unfold str in *. rewrite Hm. reflexivity.
Qed.

Lemma build_linux_fails (a : arguments) (bs : BuildSupport) (version : str)
    (help_mode : bool) (st : state) :
  class_of bs = BuildSupportLinux ->
  RuntimeFiles bs !! ("libDemosaic" : str) = None ->
  In ("libDemosaic" : str) (set_order h) ->
  exists e st',
    build h a bs version help_mode st = (Raise e, st') /\ setups st' = setups st.
Proof.
  intros Hc Hm Hin. unfold build. unfold_M.
  destruct ((if negb help_mode && rebuild_doxygen a
             then call h "python scripts/builddoxy2swig/builddoxygen.py"
             else fun st => (Ok tt, st)) st) as [[[]|e] st1] eqn:E1.
  2:{ exists e, st1. split; [reflexivity|]. eapply kept_eq; [|exact E1].
      destruct (negb help_mode && rebuild_doxygen a); [apply kept_call|intros ?; reflexivity]. }
  assert (K1 : setups st1 = setups st).
  { eapply kept_eq; [|exact E1].
    destruct (negb help_mode && rebuild_doxygen a); [apply kept_call|intros ?; reflexivity]. }
  destruct help_mode; [eauto|].
  destruct (clean h _ None st1) as [[[]|e] st2] eqn:E2.
  2:{ exists e, st2. split; [reflexivity|]. rewrite <- K1.
      eapply kept_eq; [apply kept_clean|exact E2]. }
  assert (K2 : setups st2 = setups st)
    by (rewrite <- K1; eapply kept_eq; [apply kept_clean|exact E2]).
  destruct (call_swig h bs "." "FAI_python.i" version (skip_swig a) st2)
    as [[r|e] st3] eqn:E3.
  2:{ exists e, st3. split; [reflexivity|]. rewrite <- K2.
      eapply kept_eq; [apply kept_call_swig|exact E3]. }
  assert (K3 : setups st3 = setups st)
    by (rewrite <- K2; eapply kept_eq; [apply kept_call_swig|exact E3]).
  destruct (call_swig_class _ _ _ _ _ _ _ _ E3) as (Hc' & Hm' & _).
  destruct (swig_only a); [eauto|].
  destruct (copy_runtime_raises r.2 st3) as (e & st4 & E4);
    [congruence|congruence|assumption|].
  rewrite E4. exists e, st4. split; [reflexivity|]. rewrite <- K3.
  eapply kept_eq; [apply kept_copy_runtime|exact E4].
Qed.

Lemma run_linux_fails (a : arguments) (bs : BuildSupport) (st : state) :
  class_of bs = BuildSupportLinux ->
  RuntimeFiles bs !! ("libDemosaic" : str) = None ->
  In ("libDemosaic" : str) (set_order h) ->
  exists e st', run h a bs st = (Raise e, st') /\ setups st' = setups st.
Proof.
  intros Hc Hm Hin. unfold run. unfold_M.
  destruct (get_version h st) as [[dv|e] st1] eqn:E1.
  2:{ exists e, st1. split; [reflexivity|].
      eapply kept_eq; [apply kept_get_version|exact E1]. }
  assert (K1 : setups st1 = setups st)
    by (eapply kept_eq; [apply kept_get_version|exact E1]).
  destruct (contains "clean" (remainder a)).
  - destruct (clean h "std" _ st1) as [[[]|e] st2] eqn:E2;
      eexists _, st2; (split; [reflexivity|]); rewrite <- K1;
      (eapply kept_eq; [apply kept_clean|exact E2]).
  - destruct (debug_class bs) as [Hdc Hdm].
    destruct (build_linux_fails a (if pp_debug a then use_debug_configuration bs else bs)
                (default dv (pp_version a) ++ (if pp_debug a then "_dbg" : str else []))
                (contains "-h" (remainder a) || contains "--help" (remainder a)) st1)
      as (e & st2 & E2 & K2).
    + destruct (pp_debug a); congruence.
    + destruct (pp_debug a); congruence.
    + assumption.
    + exists e, st2. split; [exact E2|congruence].
Qed.

End Steps.

End RunFacts.

(** ** The modes of a run *)

Module ModeFacts.

Import Basics Outcome PlatformFacts SwigFacts CleanFacts DebugFacts StagingFacts ConstructFacts RunFacts.

Section Modes.

Variable h : host.

Lemma build_swig_only (a : arguments) (bs : BuildSupport) (version : str)
    (help_mode : bool) (st : state) :
  swig_only a = true ->
  exists e st',
    build h a bs version help_mode st = (Raise e, st') /\ setups st' = setups st.
Proof.
  intros Hso. unfold build. unfold_M.
  destruct ((if negb help_mode && rebuild_doxygen a
             then call h "python scripts/builddoxy2swig/builddoxygen.py"
             else fun st => (Ok tt, st)) st) as [[[]|e] st1] eqn:E1.
  2:{ exists e, st1. split; [reflexivity|]. eapply kept_eq; [|exact E1].
      destruct (negb help_mode && rebuild_doxygen a); [apply kept_call|intros ?; reflexivity]. }
  assert (K1 : setups st1 = setups st).
  { eapply kept_eq; [|exact E1].
    destruct (negb help_mode && rebuild_doxygen a); [apply kept_call|intros ?; reflexivity]. }
  destruct help_mode; [eauto|].
  destruct (clean h _ None st1) as [[[]|e] st2] eqn:E2.
  2:{ exists e, st2. split; [reflexivity|]. rewrite <- K1.
      eapply kept_eq; [apply kept_clean|exact E2]. }
  assert (K2 : setups st2 = setups st)
    by (rewrite <- K1; eapply kept_eq; [apply kept_clean|exact E2]).
  destruct (call_swig h bs "." "FAI_python.i" version (skip_swig a) st2)
    as [[r|e] st3] eqn:E3.
  2:{ exists e, st3. split; [reflexivity|]. rewrite <- K2.
      eapply kept_eq; [apply kept_call_swig|exact E3]. }
  assert (K3 : setups st3 = setups st)
    by (rewrite <- K2; eapply kept_eq; [apply kept_call_swig|exact E3]).
  rewrite Hso. eauto.
Qed.

End Modes.

End ModeFacts.

(** ** The call of [setup] *)

Module HandoverFacts.

Import Basics Outcome PlatformFacts SwigFacts CleanFacts DebugFacts StagingFacts ConstructFacts RunFacts Handover.

Section Handover.

Variable h : host.

Lemma call_swig_name (bs : BuildSupport) (sourcedir version : str)
    (skip : bool) (st st' : state) (r : str * BuildSupport) :
  call_swig h bs sourcedir "FAI_python.i" version skip st = (Ok r, st') ->
  r.1 = abspath h (path_join GeneratedDir "FAI_python_wrap.c").
Proof.
  unfold call_swig. destruct skip.
  - intros [= <- _]. reflexivity.
  - cbn [SwigExe with_SwigOptions]. destruct (SwigExe bs); [|discriminate].
    unfold_M.
    destruct (spawn h _ st) as [[?|?] ?]; [|discriminate].
    destruct (append_file h _ _ _) as [[?|?] ?]; [|discriminate].
    destruct (append_file h _ _ _) as [[?|?] ?]; [|discriminate].
    intros [= <- _]. reflexivity.
Qed.

Lemma package_data_globs (st st' : state) (files : list str) :
  get_package_data_files h st = (Ok files, st') ->
  exists found, files = ["*.dll" : str; "*.zip" : str; "*.so" : str; "*.so.*" : str] ++ found.
Proof.
  unfold get_package_data_files, get_fs. unfold_M.
  destruct (listdir h (fs st) PackageDir) as [entries|e]; [|discriminate].
  destruct (data_files_of h (fs st) PackageDir entries) as [found|e]; [|discriminate].
  intros [= <- _]. exists found. reflexivity.
Qed.

(** The call of the script, in the words of [setup_arguments]. *)
Lemma setup_of_arguments (a : arguments) (bs : BuildSupport) (version : str)
    (st : state) (r : str * BuildSupport) (files : list str) :
  steps_to_setup h a bs version st r files ->
  exists found,
    files = ["*.dll" : str; "*.zip" : str; "*.so" : str; "*.so.*" : str] ++ found
    /\ setup_of version (fai_python_ext r.2 r.1) files
       = setup_arguments h bs version found.
Proof.
  intros (s1 & s2 & s3 & s4 & s5 & _ & _ & E3 & _ & E5).
  destruct (package_data_globs _ _ _ E5) as (found & ->).
  exists found. split; [reflexivity|].
  destruct (call_swig_flags h _ _ _ _ _ _ _ _ E3) as [Hc Hl].
  destruct (call_swig_class h _ _ _ _ _ _ _ _ E3) as (_ & _ & Hd).
  pose proof (call_swig_name _ _ _ _ _ _ _ E3) as Hn.
  unfold setup_of, setup_arguments, fai_python_ext. rewrite Hc, Hl, Hd, Hn.
  reflexivity.
Qed.

End Handover.

End HandoverFacts.

(** ** Steps that start no child *)

Module QuietFacts.

Import Basics Outcome Trace TraceFacts IncludeFacts Generated.

Section Quiet.

Variable h : host.

Lemma quiet_ret {A} (a : A) : quiet (mret a : M A).
Proof. intros st. reflexivity. Qed.

Lemma quiet_raise {A} (e : exn) : quiet (raise e : M A).
Proof. intros st. reflexivity. Qed.

Lemma quiet_lift {A} (r : result A) : quiet (lift r).
Proof. intros st. reflexivity. Qed.

Lemma quiet_get_fs : quiet get_fs.
Proof. intros st. reflexivity. Qed.

Lemma quiet_set_fs (t : node) : quiet (set_fs t).
Proof. intros st. reflexivity. Qed.

Lemma quiet_setup (call : setup_call) : quiet (setup h call).
Proof. intros st. unfold setup. destruct (setuptools h call (fs st)). reflexivity. Qed.

Lemma quiet_bind {A B} (m : M A) (k : A -> M B) :
  quiet m -> (forall a, quiet (k a)) -> quiet (x ← m; k x).
Proof.
  intros Hm Hk st. unfold_M. specialize (Hm st).
  destruct (m st) as [[a|e] st1]; simpl in *; [|assumption].
  rewrite Hk. assumption.
Qed.

Lemma quiet_try_except {A} (m : M A) (handles : exn -> bool) (k : M A) :
  quiet m -> quiet k -> quiet (try_except m handles k).
Proof.
  intros Hm Hk st. unfold try_except. specialize (Hm st).
  destruct (m st) as [[a|e] st1]; simpl in *; [assumption|].
  destruct (handles e); simpl; [rewrite Hk|]; assumption.
Qed.

Lemma quiet_for_each {A} (xs : list A) (body : A -> M unit) :
  (forall x, quiet (body x)) -> quiet (for_each xs body).
Proof.
  intros Hb. induction xs as [|x xs IH]; simpl.
  - apply quiet_ret.
  - apply quiet_bind; auto.
Qed.

Lemma quiet_eq {A} (m : M A) (st st' : state) (r : result A) :
  quiet m -> m st = (r, st') -> spawned st' = spawned st.
Proof. intros Hq E. specialize (Hq st). now rewrite E in Hq. Qed.

End Quiet.

Ltac quiet :=
  repeat first
    [ apply quiet_ret | apply quiet_raise | apply quiet_lift | apply quiet_get_fs
    | apply quiet_set_fs | apply quiet_setup
    | apply quiet_bind; [|intros ?]
    | apply quiet_try_except
    | apply quiet_for_each; intros ?
    | match goal with
      | |- quiet (match ?x with _ => _ end) => destruct x
      | |- quiet (if ?x then _ else _) => destruct x
      | |- quiet (let '(_, _) := ?x in _) => destruct x
      end ].

Section QuietSteps.

Variable h : host.

Lemma quiet_rmtree (p : str) : quiet (rmtree h p).
Proof. unfold rmtree. quiet. Qed.

Lemma quiet_makedirs (p : str) : quiet (makedirs h p).
Proof. unfold makedirs. quiet. Qed.

Lemma quiet_exists (p : str) : quiet (exists_ h p).
Proof. unfold exists_. quiet. Qed.

Lemma quiet_copy (src dst : str) : quiet (copy h src dst).
Proof. unfold copy. quiet. Qed.

Lemma quiet_copytree (src dst : str) : quiet (copytree h src dst).
Proof. unfold copytree. quiet; auto using quiet_makedirs. Qed.

Lemma quiet_append_file (p text : str) : quiet (append_file h p text).
Proof. unfold append_file. quiet. Qed.

Lemma quiet_clean (mode : str) (dirs : option (list str)) : quiet (clean h mode dirs).
Proof. unfold clean. quiet; auto using quiet_rmtree, quiet_makedirs. Qed.

Lemma quiet_copy_matching (src dst : str) : quiet (copy_matching h src dst).
Proof. unfold copy_matching. quiet; auto using quiet_exists, quiet_makedirs, quiet_copy. Qed.

Lemma quiet_manifest_of (bs : BuildSupport) (package : str) : quiet (manifest_of bs package).
Proof. unfold manifest_of. quiet. Qed.

Lemma quiet_copy_runtime_base (bs : BuildSupport) : quiet (copy_runtime_base h bs).
Proof.
  unfold copy_runtime_base. quiet;
    auto using quiet_manifest_of, quiet_copy_matching, quiet_rmtree, quiet_copytree.
Qed.

Lemma quiet_copy_runtime (bs : BuildSupport) : quiet (copy_runtime h bs).
Proof.
  unfold copy_runtime, copy_runtime_windows, copy_runtime_linux, environ_item.
  quiet; auto using quiet_copy_runtime_base, quiet_manifest_of, quiet_copy_matching,
    quiet_copy.
Qed.

Lemma quiet_get_package_data_files : quiet (get_package_data_files h).
Proof. unfold get_package_data_files. quiet. Qed.

(** The children of the steps that do start one. *)
Lemma get_version_child (st : state) :
  spawned (get_version h st).2 = spawned st ++ [git_describe].
Proof.
  unfold get_version, spawn. destruct (child h git_describe (fs st)) as [git t].
  reflexivity.
Qed.

Lemma call_child (cmd : str) (st : state) :
  spawned (call h cmd st).2 = spawned st ++ [[cmd]].
Proof.
  unfold call, try_except, spawn. unfold_M.
  destruct (child h [cmd] (fs st)) as [[out|e] t]; [reflexivity|].
  destruct e; reflexivity.
Qed.

Lemma call_swig_child (bs : BuildSupport) (sourcedir source version : str)
    (skip : bool) (st : state) :
  let st' := (call_swig h bs sourcedir source version skip st).2 in
  spawned st' = spawned st
  \/ exists exe, SwigExe bs = Some exe /\ skip = false
       /\ spawned st' = spawned st ++ [swig_command h bs exe source].
Proof.
  unfold call_swig. destruct skip; [now left|].
  cbn [SwigExe SwigOptions with_SwigOptions].
  destruct (SwigExe bs) as [exe|] eqn:E; [|now left].
  right. exists exe. split; [reflexivity|]. split; [reflexivity|].
  unfold_M. unfold swig_command.
  destruct (spawn h _ st) as [[out|e] st1] eqn:E1.
  - assert (H1 : spawned st1 = spawned st ++ [ [exe; "-python" : str; "-outdir" : str; abspath h PackageDir; "-o" : str;
   abspath h (path_join GeneratedDir (splitext_root source ++ "_wrap.c"))]
  ++ (SwigOptions bs ++ map (fun inc => "-I" ++ inc) (get_swig_includes bs))
  ++ [source] ]).
    { revert E1. unfold spawn. destruct (child h _ (fs st)). intros [= _ <-]. reflexivity. }
    destruct (append_file h _ _ st1) as [[[]|e] st2] eqn:E2.
    + destruct (append_file h _ _ st2) as [[[]|e] st3] eqn:E3; cbn [snd];
        try rewrite (quiet_eq _ _ _ _ (quiet_append_file _ _) E3);
        rewrite (quiet_eq _ _ _ _ (quiet_append_file _ _) E2); exact H1.
    + cbn [snd]. rewrite (quiet_eq _ _ _ _ (quiet_append_file _ _) E2). exact H1.
  - cbn [snd]. revert E1. unfold spawn. destruct (child h _ (fs st)). intros [= _ <-]. reflexivity.
Qed.

End QuietSteps.

End QuietFacts.

(** ** The runtime of the compiler on Windows *)

Module RuntimeFacts.

Import Basics Outcome Tree FSFacts EnumerateFacts NameFacts WriteFacts.

(** *** One file written into a directory *)

(** A regular file elsewhere is as it was after an entry of a directory
    was written that was no directory before. *)
Lemma write_keeps_file (x : node) (n : str) (D : list str) :
  forall (t : node) (es : list (str * node)) (q : list str) (d : str),
    lookup t D = Some (Dir es) ->
    (forall es', lookup t (D ++ [n]) <> Some (Dir es')) ->
    lookup t q = Some (File d) ->
    q <> D ++ [n] ->
    lookup (alter_at (fun _ => Dir (set_entry n x es)) t D) q = Some (File d).
Proof.
  induction D as [|k D IH]; intros t es q d HD Hn Hq Hne.
  - cbn [lookup] in HD. injection HD as ->. cbn [alter_at].
    destruct q as [|m r]; [discriminate|].
    cbn [lookup app] in *. rewrite assoc_set_entry.
    destruct (str_eqb n m) eqn:E; [|exact Hq].
    apply str_eqb_eq in E. subst m. exfalso.
    destruct (assoc n es) as [[data|es']|]; [| |discriminate].
    + destruct r; [now apply Hne|discriminate].
    + now apply (Hn es').
  - destruct t as [data|es0]; [discriminate|].
    destruct q as [|m r]; [discriminate|].
    cbn [lookup alter_at app] in *.
    destruct (assoc k es0) as [tk|] eqn:Ek; [|discriminate].
    cbn [lookup]. rewrite assoc_set_entry.
    destruct (str_eqb k m) eqn:E; [|exact Hq].
    apply str_eqb_eq in E. subst m. rewrite Ek in Hq.
    apply (IH tk es r d HD Hn Hq). intros ->. now apply Hne.
Qed.

Lemma lookup_written (x : node) (n : str) (D : list str) (t : node)
    (es : list (str * node)) :
  lookup t D = Some (Dir es) ->
  lookup (alter_at (fun _ => Dir (set_entry n x es)) t D) (D ++ [n]) = Some x.
Proof.
  intros HD. rewrite lookup_alter_at, HD. cbn [lookup].
  rewrite assoc_set_entry, str_eqb_refl. reflexivity.
Qed.

Lemma put_lookup (t t' : node) (p : list str) (x : node) :
  put t p x = Ok t' -> lookup t' p = Some x.
Proof.
  destruct p as [|k p'] using rev_ind; [discriminate|]. clear IHp'.
  unfold put. destruct (p' ++ [k]) eqn:E; [destruct p'; discriminate|]. rewrite <- E.
  rewrite removelast_snoc, last_snoc.
  destruct (lookup t p') as [[data|es]|] eqn:HD; try discriminate.
  intros [= <-].
  match goal with
  | |- lookup (alter_at ?f _ _) _ = _ =>
      rewrite (alter_at_there f (fun _ => Dir (set_entry k x es)) t p' (Dir es) HD eq_refl)
  end.
  now apply lookup_written.
Qed.

Section Runtime.

Variable h : host.

Lemma basename_join (p n : str) :
  plain p -> legal_name n -> basename (path_join p n) = n.
Proof.
  intros [Hne Hend] Hn.
  destruct (legal_name_no_slash n Hn) as [Hs He].
  unfold path_join. rewrite Hs, Hend, str_eqb_false by assumption. cbn [orb].
  unfold basename. change (p ++ "/" ++ n) with (p ++ "/"%char :: n).
  rewrite split_app, (split_no_sep "/" n) by apply Hn. apply last_last.
Qed.

(** Whatever [windir] holds, the directory of the system is a plain
    path. *)
Lemma join_name_plain (p n : str) : legal_name n -> plain (path_join p n).
Proof.
  intros Hn. destruct (legal_name_no_slash n Hn) as [Hs He].
  assert (Hne : n <> []) by apply Hn.
  unfold path_join. rewrite Hs.
  destruct (str_eqb p [] || ends_with_slash p).
  - split; [destruct p, n; try discriminate; congruence|].
    now rewrite ends_with_slash_app.
  - split; [destruct p; discriminate|].
    change (p ++ "/" ++ n) with (p ++ ["/"%char] ++ n).
    rewrite app_assoc. now rewrite ends_with_slash_app.
Qed.

Abbreviation P := (cwd h ++ ["FAI_python" : str]).

(** [shutil.copy] of a file into the package, which is a directory. *)
Lemma copy_into_package (sysdir n : str) (st st' : state) (es : list (str * node)) :
  plain sysdir -> legal_name n ->
  lookup (fs st) P = Some (Dir es) ->
  copy h (path_join sysdir n) PackageDir st = (Ok tt, st') ->
  exists data,
    lookup (fs st) (resolve (cwd h) sysdir ++ [n]) = Some (File data)
    /\ resolve (cwd h) sysdir ++ [n] <> P ++ [n]
    /\ (forall es', lookup (fs st) (P ++ [n]) <> Some (Dir es'))
    /\ fs st' = alter_at (fun _ => Dir (set_entry n (File data) es)) (fs st) P.
Proof.
  intros Hp Hn HP. unfold copy, get_fs. unfold_M.
  assert (Hdir : isdir h (fs st) PackageDir = true)
    by (unfold isdir, node_at; now rewrite resolve_PackageDir, HP).
  rewrite Hdir, (basename_join _ _ Hp Hn).
  unfold node_at.
  destruct (join_plain h sysdir n Hp Hn) as [_ ->].
  assert (HPD : plain PackageDir) by (split; [discriminate|reflexivity]).
  destruct (join_plain h PackageDir n HPD Hn) as [_ ->].
  rewrite resolve_PackageDir.
  destruct (lookup (fs st) (resolve (cwd h) sysdir ++ [n])) as [[data|?]|] eqn:Hs;
    try discriminate.
  destruct (bool_decide _) eqn:Hsame; [discriminate|].
  apply bool_decide_eq_false_1 in Hsame.
  rewrite (put_in_dir _ _ _ _ _ HP).
  destruct (lookup (fs st) (P ++ [n])) as [[?|?]|] eqn:Hd; try discriminate;
    cbn; intros [= <-]; exists data;
    (split; [reflexivity|]); (split; [exact Hsame|]); (split; [discriminate|reflexivity]).
Qed.

Abbreviation copies sysdir names :=
  (for_each names (fun dll => copy h (path_join sysdir dll) PackageDir)).

(** The loop over the libraries, the package being a directory. *)
Lemma copies_into_package (sysdir : str) (names : list str) :
  plain sysdir -> Forall legal_name names -> List.NoDup names ->
  forall st st',
    (exists es, lookup (fs st) P = Some (Dir es)) ->
    copies sysdir names st = (Ok tt, st') ->
    (exists es', lookup (fs st') P = Some (Dir es'))
    /\ (forall q d, lookup (fs st) q = Some (File d) ->
                    (forall n, In n names -> q <> P ++ [n]) ->
                    lookup (fs st') q = Some (File d))
    /\ (forall n, In n names ->
          exists data,
            lookup (fs st') (resolve (cwd h) sysdir ++ [n]) = Some (File data)
            /\ lookup (fs st') (P ++ [n]) = Some (File data)).
Proof.
  intros Hp Hlegal Hnd. induction names as [|n names IH]; intros st st' HP.
  - cbn. unfold_M. intros [= <-]. split; [exact HP|]. split; [auto|]. intros n [].
  - cbn [for_each]. unfold_M.
    destruct (copy h (path_join sysdir n) PackageDir st) as [[[]|e] st1] eqn:E1;
      [|discriminate].
    intros E2. destruct HP as (es & HP).
    apply Forall_cons_iff in Hlegal. destruct Hlegal as [Hn Hlegal].
    apply List.NoDup_cons_iff in Hnd. destruct Hnd as [Hnotin Hnd].
    destruct (copy_into_package _ _ _ _ _ Hp Hn HP E1) as (data & Hs & Hne & Hnd' & Hfs).
    assert (HP1 : exists es1, lookup (fs st1) P = Some (Dir es1))
      by (rewrite Hfs; erewrite lookup_altered by exact HP; eauto).
    destruct (IH Hlegal Hnd st1 st' HP1 E2) as (HP' & Hkeep & Hin).
    split; [exact HP'|]. split.
    + intros q d Hq Hout. apply Hkeep.
      * rewrite Hfs. apply write_keeps_file; auto using in_eq.
      * intros m Hm. apply Hout. now right.
    + intros m [<- |Hm]; [|now apply Hin].
      exists data. split.
      * apply Hkeep.
        -- rewrite Hfs. apply write_keeps_file; auto.
        -- intros m Hm Heq. apply app_inj_tail in Heq. destruct Heq as [_ <-].
           contradiction.
      * apply Hkeep.
        -- rewrite Hfs. now apply lookup_written.
        -- intros m Hm Heq. apply app_inj_tail in Heq. destruct Heq as [_ <-].
           contradiction.
Qed.

(** Where the package is no directory a copy takes its place, as a
    regular file. *)
Lemma copy_onto_file (src : str) (st st' : state) :
  (forall es, lookup (fs st) P <> Some (Dir es)) ->
  copy h src PackageDir st = (Ok tt, st') ->
  exists d, lookup (fs st') P = Some (File d).
Proof.
  intros HP. unfold copy, get_fs, isdir, node_at. unfold_M.
  rewrite !resolve_PackageDir.
  destruct (lookup (fs st) P) as [[d0|es0]|] eqn:E0; [| now destruct (HP es0) |];
    rewrite ?resolve_PackageDir, ?E0;
    (destruct (lookup (fs st) (resolve (cwd h) src)) as [[data|?]|]; try discriminate);
    (destruct (bool_decide (resolve _ _ = _)); [discriminate|]);
    (destruct (put (fs st) P (File data)) as [t'|e] eqn:Eput; [|discriminate]);
    cbn; intros [= <-]; exists data; cbn [fs]; eapply put_lookup; exact Eput.
Qed.

Lemma copies_keep_no_directory (sysdir : str) (names : list str) :
  forall st st',
    (forall es, lookup (fs st) P <> Some (Dir es)) ->
    copies sysdir names st = (Ok tt, st') ->
    forall es, lookup (fs st') P <> Some (Dir es).
Proof.
  induction names as [|n names IH]; intros st st' HP.
  - cbn. unfold_M. intros [= <-]. exact HP.
  - cbn [for_each]. unfold_M.
    destruct (copy h (path_join sysdir n) PackageDir st) as [[[]|e] st1] eqn:E1;
      [|discriminate].
    apply IH. destruct (copy_onto_file _ _ _ HP E1) as (d & Hd).
    intros es. rewrite Hd. discriminate.
Qed.

End Runtime.

End RuntimeFacts.

(** * Further theorems *)

Import Label VersionFacts LabelFacts ShortVersion ShortFacts BannerFacts Cases Trace TraceFacts LocatorFacts Places PlacesFacts Dotted MsvcFacts MsvcBanner ConstructFacts IncludeFacts NameFacts Example Generated WriteFacts CleanFiles Frame FrameFacts Distinct ListedFacts RunFacts ModeFacts Handover HandoverFacts QuietFacts RuntimeFacts.

(** X1.  Whatever [git describe] prints, [get_git_version] returns a
    version and raises nothing; the version is the output without the
    white space around it when that is an exact release tag, or a release
    tag that begins the output, followed by [.dev] and a run of digits,
    when more follows the tag, or else the version built from the date. *)
Theorem X1_version_shapes (out : str) (now : datetime) :
  exists v,
    get_git_version (Ok out) now = Ok v
    /\ ((release_tag v /\ v = strip out)
        \/ (exists base n tail,
              release_tag base /\ digits n /\ strip out = base ++ tail
              /\ tail <> [] /\ v = base ++ ".dev" ++ n)
        \/ v = date_version now).
Proof.
  unfold get_git_version.
  destruct (describe (Ok out)) as [v|e] eqn:E.
  - exists v. split; [reflexivity|].
    apply describe_sound in E. tauto.
  - exists (date_version now).
    assert (e = OSError).
    { revert E. unfold describe. cbn [mbind result_bind Py.bind].
      destruct (re_match rx_release _); [discriminate|].
      destruct (re_match rx_git_ver _); [discriminate|]. congruence. }
    subst e. split; [reflexivity|]. auto.
Qed.

(** X2.  A local version label after the tag (a plus sign, one of
    [a-zA-Z0-9], then any of [a-zA-Z0-9.]) is dropped: the tag with a
    label gives the tag and [.dev0], although nothing was committed
    after the tag; with a commit distance and a hash after the label it
    gives the tag, [.dev] and the distance; with [-dirty] after the label
    the tag and [.dev0].  White space after the output does not matter. *)
Theorem X2_local_label (base l dist hx dsuf pad : str) (now : datetime) :
  release_tag base -> local_label l -> digits dist -> lower_hex_digits hx ->
  dsuf = [] \/ dsuf = "-dirty" -> blanks pad ->
  get_git_version (Ok (base ++ "+" ++ l ++ pad)) now = Ok (base ++ ".dev0")
  /\ get_git_version
       (Ok (base ++ "+" ++ l ++ "-" ++ dist ++ "-g" ++ hx ++ dsuf ++ pad)) now
     = Ok (base ++ ".dev" ++ dist)
  /\ get_git_version (Ok (base ++ "+" ++ l ++ "-dirty" ++ pad)) now
     = Ok (base ++ ".dev0").
Proof.
  intros Hb Hl Hd Hh Hsuf Hpad. unfold get_git_version.
  pose proof (Forall_no_space _ _ alnum_dot_not_space (local_label_chars _ Hl)) as Hlns.
  assert (Hdns : Forall (fun c => is_space c = false) dist)
    by (destruct Hd as [_ Hd]; exact (Forall_no_space _ _ digit_not_space Hd)).
  assert (Hhns : Forall (fun c => is_space c = false) hx)
    by (destruct Hh as [_ Hh]; exact (Forall_no_space _ _ hex_not_space Hh)).
  split; [|split].
  - change (base ++ "+" ++ l ++ pad) with (base ++ ("+" ++ l) ++ pad).
    rewrite (describe_with_tail base ("+" ++ l) pad "0" Hb); [reflexivity|..].
    + discriminate.
    + constructor; [reflexivity|assumption].
    + assumption.
    + simpl. discriminate.
    + eexists. now apply tail_label_only_match.
    + intros c' s' Hm. apply tail_label_only_inv in Hm; [|assumption]. subst c'.
      unfold group. rewrite lookup_insert_ne by discriminate.
      rewrite lookup_empty. reflexivity.
  - set (rest := "-" ++ dist ++ "-g" ++ hx ++ dsuf).
    assert (Heq : base ++ "+" ++ l ++ "-" ++ dist ++ "-g" ++ hx ++ dsuf ++ pad
                  = base ++ ("+" ++ l ++ rest) ++ pad).
    { unfold rest. cbn [app list_ascii_of_string].
      repeat (rewrite <- ?app_assoc, <- ?app_comm_cons). reflexivity. }
    rewrite Heq. clear Heq.
    rewrite (describe_with_tail base ("+" ++ l ++ rest) pad dist Hb); [reflexivity|..].
    + discriminate.
    + constructor; [reflexivity|]. apply Forall_app. split; [assumption|].
      unfold rest. simpl. constructor; [reflexivity|].
      apply Forall_app. split; [assumption|].
      constructor; [reflexivity|]. constructor; [reflexivity|].
      apply Forall_app. split; [assumption|].
      destruct Hsuf as [-> | ->]; simpl; repeat constructor.
    + assumption.
    + simpl. discriminate.
    + destruct (tail_distance_match (length (base ++ "+" ++ l ++ rest)) dist hx dsuf
                  (<[1%nat := base]> ∅) Hd Hh Hsuf) as (c' & Hc').
      exists c'. apply tail_label_match; [assumption| |exact Hc'].
      right. unfold rest. simpl. eauto.
    + intros c' s' Hm. apply tail_after_label in Hm; [|assumption|].
      2:{ right. unfold rest. simpl. eauto. }
      apply tail_distance_inv in Hm; [|assumption|assumption]. subst c'.
      unfold group. rewrite lookup_insert_eq. now apply fmt_s_or_0_digits.
  - assert (Heq : base ++ "+" ++ l ++ "-dirty" ++ pad
                  = base ++ ("+" ++ l ++ "-dirty") ++ pad).
    { cbn [app list_ascii_of_string].
      repeat (rewrite <- ?app_assoc, <- ?app_comm_cons). reflexivity. }
    rewrite Heq. clear Heq.
    rewrite (describe_with_tail base ("+" ++ l ++ "-dirty") pad "0" Hb); [reflexivity|..].
    + discriminate.
    + constructor; [reflexivity|]. apply Forall_app. split; [assumption|].
      simpl. repeat constructor.
    + assumption.
    + simpl. discriminate.
    + eexists. apply tail_label_match; [assumption| |apply tail_dirty_match].
      right. simpl. eauto.
    + intros c' s' Hm. apply tail_after_label in Hm; [|assumption|].
      2:{ right. simpl. eauto. }
      apply tail_dirty_inv in Hm. subst c'. unfold group.
      rewrite lookup_insert_ne by discriminate. rewrite lookup_empty. reflexivity.
Qed.

Lemma X2_local_label_witness :
  get_git_version (Ok ("1.2.3" ++ "+" ++ "build.7" ++ nl)) clock0 = Ok ("1.2.3" ++ ".dev0")
  /\ get_git_version
       (Ok ("1.2.3" ++ "+" ++ "build.7" ++ "-" ++ "14" ++ "-g" ++ "abcdef" ++ "-dirty" ++ nl)) clock0
     = Ok ("1.2.3" ++ ".dev" ++ "14")
  /\ get_git_version (Ok ("1.2.3" ++ "+" ++ "build.7" ++ "-dirty" ++ nl)) clock0
     = Ok ("1.2.3" ++ ".dev0").
Proof.
  apply (X2_local_label "1.2.3" "build.7" "14" "abcdef" "-dirty" nl clock0).
  - apply (release_3 "1" "2" "3" []); try (split; [discriminate|repeat constructor]).
    constructor.
  - split; [reflexivity|repeat constructor].
  - split; [discriminate|repeat constructor].
  - split; [discriminate|repeat constructor].
  - right. reflexivity.
  - repeat constructor.
Defined.

(** X3.  [get_short_version] returns the part of the version before the
    first plus sign: the result has no plus sign, the version is the
    result itself or the result, a plus sign and a rest; a version
    without a plus sign is returned as it is, and applying the function
    twice is the same as applying it once. *)
Theorem X3_short_version (version : str) :
  ~ In "+"%char (get_short_version version)
  /\ (version = get_short_version version
      \/ exists rest, version = get_short_version version ++ "+" ++ rest)
  /\ (~ In "+"%char version -> get_short_version version = version)
  /\ get_short_version (get_short_version version) = get_short_version version.
Proof.
  assert (Hid : forall v, ~ In "+"%char v -> get_short_version v = v).
  { intros v Hv. unfold get_short_version. now rewrite split_no_sep. }
  assert (Hno : ~ In "+"%char (get_short_version version)).
  { unfold get_short_version.
    destruct (split_head "+" version) as (w & ws & -> & Hw & _). exact Hw. }
  split; [exact Hno|]. split; [|split; [apply Hid|now apply Hid]].
  unfold get_short_version.
  destruct (split_head "+" version) as (w & ws & -> & _ & [[-> _]|(rest & ->)]).
  - now left.
  - right. exists rest. reflexivity.
Qed.

(** X4.  No version that [get_git_version] returns has a plus sign, so
    [get_short_version] leaves every one of them as it is: a local label
    of the tag is gone before the short version is asked for. *)
Theorem X4_short_of_computed (git : result str) (now : datetime) (v : str) :
  get_git_version git now = Ok v ->
  ~ In "+"%char v /\ get_short_version v = v.
Proof.
  intros H.
  assert (Hno : ~ In "+"%char v).
  { unfold get_git_version in H.
    destruct (describe git) as [v'|e] eqn:E.
    - injection H as ->. destruct git as [out|e]; [|discriminate].
      apply describe_sound in E.
      destruct E as [[Hv _]|(base & n & tail & Hb & [_ Hn] & _ & _ & ->)].
      + now apply release_tag_no_plus.
      + apply not_in_app; [now apply release_tag_no_plus|].
        apply not_in_app; [simpl; intuition discriminate|].
        now apply core_no_plus, digit_run_core.
    - destruct (caught e); [|discriminate]. injection H as <-.
      apply date_version_no_plus. }
  split; [exact Hno|].
  unfold get_short_version. now rewrite split_no_sep.
Qed.

Lemma X4_short_of_computed_witness :
  ~ In "+"%char ("1.2.3.dev0" : str) /\ get_short_version "1.2.3.dev0" = "1.2.3.dev0".
Proof.
  apply (X4_short_of_computed (Ok ("1.2.3+build.7" ++ nl)) clock0 "1.2.3.dev0").
  vm_compute. reflexivity.
Defined.



(** X6.  Every instance [make] returns has its code generator set:
    [SwigExe] is a path, never [None]; it is one of the install places
    looked at on Windows, or what [shutil.which] gave for [swig4.0] or
    for [swig]; and that very path was started with [-version] during
    the construction.  The table of whole directories to copy is
    empty. *)
Theorem X6_made_with_swig (h : host) (st st' : state) (bs : BuildSupport) :
  make h st = (Ok (Some bs), st') ->
  exists path,
    SwigExe bs = Some path
    /\ ((class_of bs = BuildSupportWindows /\ In path (windows_candidates h))
        \/ which h "swig4.0" = Some path \/ which h "swig" = Some path)
    /\ In [path; "-version" : str] (spawned st')
    /\ RuntimeFolders bs = ∅.
Proof.
  unfold make.
  destruct (str_eqb (get_platform h) "Windows").
  - unfold BuildSupportWindows_init, find_swig_windows. unfold_M.
    destruct (find_swig_windows_in h (windows_candidates h) st) as [[swig|e] st1] eqn:E;
      [|discriminate].
    destruct (environ h !! _) as [[|x root]|]; try discriminate.
    destruct (detect_msvc_ver h st1) as [[ver|e] st2] eqn:E2; [|discriminate].
    intros [= <- <-].
    apply find_swig_windows_in_located in E.
    destruct E as (path & -> & Hin & Hsp). exists path.
    split; [reflexivity|]. split.
    + destruct Hin as [Hin|(c & [<- |[<- |[]]] & Hw)]; auto.
    + split; [|reflexivity].
      destruct (grow_eq _ _ _ _ (grow_detect_msvc_ver h) E2) as (l & ->).
      apply in_or_app. now left.
  - destruct (str_eqb (get_platform h) "Linux"); [|discriminate].
    unfold BuildSupportLinux_init, find_swig. unfold_M.
    destruct (find_swig_in h _ st) as [[swig|e] st1] eqn:E; [|discriminate].
    intros [= <- <-].
    apply find_swig_in_located in E.
    destruct E as (c & path & Hin & Hw & -> & Hsp). exists path.
    split; [reflexivity|]. split; [|split; [exact Hsp|reflexivity]].
    destruct Hin as [<- |[<- |[]]]; auto.
Qed.

Lemma X6_made_with_swig_witness :
  exists path,
    SwigExe (linux_instance swig_host (Some ("/usr/bin/swig" : str))) = Some path
    /\ ((class_of (linux_instance swig_host (Some ("/usr/bin/swig" : str)))
         = BuildSupportWindows /\ In path (windows_candidates swig_host))
        \/ which swig_host "swig4.0" = Some path \/ which swig_host "swig" = Some path)
    /\ In [path; "-version" : str]
         (spawned (spawned_one (state_of tree0)
                     ["/usr/bin/swig" : str; "-version" : str] tree0))
    /\ RuntimeFolders (linux_instance swig_host (Some ("/usr/bin/swig" : str))) = ∅.
Proof.
  apply (X6_made_with_swig swig_host (state_of tree0)).
  vm_compute. reflexivity.
Defined.

(** X7.  [BuildSupportWindows.find_swig] looks at the install places
    before the search path: the places are [swigwin-4.0.0/swig.exe] under
    [PROGRAMFILES], [PROGRAMFILES(X86)] and [PROGRAMW6432], in this
    order, for those of the three variables that are set; the first
    place that is accepted is returned, whatever comes after it; when
    all are turned down the result is that of the search of the base
    class, started in the state the probes left; with none of the
    variables set it is that search and nothing else. *)
Theorem X7_windows_search_order (h : host) (st : state) :
  windows_candidates h
  = map install_place
      (omap (fun n : str => environ h !! n)
         ["PROGRAMFILES" : str; "PROGRAMFILES(X86)" : str; "PROGRAMW6432" : str])
  /\ (forall before place after st',
        windows_candidates h = before ++ place :: after ->
        places_rejected h before st ->
        is_supported_swig_version h (Some place) (after_places h before st)
        = (Ok true, st') ->
        find_swig_windows h st = (Ok (Some place), st'))
  /\ (places_rejected h (windows_candidates h) st ->
      find_swig_windows h st
      = find_swig h (after_places h (windows_candidates h) st))
  /\ (environ h !! ("PROGRAMFILES" : str) = None ->
      environ h !! ("PROGRAMFILES(X86)" : str) = None ->
      environ h !! ("PROGRAMW6432" : str) = None ->
      find_swig_windows h st = find_swig h st).
Proof.
  split; [apply windows_candidates_places|]. split; [|split].
  - intros before place after st' Heq Hrej Hacc.
    unfold find_swig_windows. rewrite Heq.
    now apply find_swig_windows_in_first.
  - intros Hrej. unfold find_swig_windows.
    now apply find_swig_windows_in_fallback.
  - intros H1 H2 H3. unfold find_swig_windows.
    rewrite windows_candidates_places. cbn [omap list_omap]. 
    rewrite H1, H2, H3. reflexivity.
Qed.

Lemma X7_windows_search_order_witness :
  find_swig_windows programfiles_host (state_of windows_tree)
  = (Ok (Some ("/pf/swigwin-4.0.0/swig.exe" : str)),
     spawned_one (state_of windows_tree)
       ["/pf/swigwin-4.0.0/swig.exe" : str; "-version" : str] windows_tree)
  /\ find_swig_windows windows64 (state_of windows_tree)
     = find_swig windows64 (state_of windows_tree).
Proof.
  split.
  - destruct (X7_windows_search_order programfiles_host (state_of windows_tree))
      as (_ & H & _).
    apply (H [] "/pf/swigwin-4.0.0/swig.exe" []); [reflexivity|exact I|reflexivity].
  - destruct (X7_windows_search_order windows64 (state_of windows_tree))
      as (_ & _ & _ & H).
    apply H; reflexivity.
Defined.

(** X8.  [_detect_msvc_ver] comes back with a version of two or more
    numbers, whatever the compiler writes, with one exception: the
    first group of the pattern holds runs of digits with dots between
    them, and [int], which stands after the [try] statement, raises
    [ValueError] when one of the runs has more than 4300 digits; the
    output of the compiler then has such a run.  When the compiler is
    not found, or its start raises any [Exception], the version is
    (16, 0).  In the model the only other exception that gets through
    is a [SystemExit] raised by the start of the child. *)
Theorem X8_msvc_version (h : host) (st : state) :
  ((exists ver st', detect_msvc_ver h st = (Ok ver, st') /\ (2 <= length ver)%nat)
   \/ (exists cc stderr t pre long post,
         msvc_cc h = Some cc
         /\ child h [cc] (fs st) = (Ok stderr, t)
         /\ stderr = pre ++ long ++ post /\ digits long /\ ~ within_limit long
         /\ detect_msvc_ver h st = (Raise ValueError, spawned_one st [cc] t))
   \/ (exists cc status t,
         msvc_cc h = Some cc
         /\ child h [cc] (fs st) = (Raise (SystemExit status), t)
         /\ detect_msvc_ver h st
            = (Raise (SystemExit status), spawned_one st [cc] t)))
  /\ (msvc_cc h = None -> detect_msvc_ver h st = (Ok [16; 0]%N, st))
  /\ (forall cc e t,
        msvc_cc h = Some cc -> child h [cc] (fs st) = (Raise e, t) ->
        is_Exception e = true ->
        detect_msvc_ver h st = (Ok [16; 0]%N, spawned_one st [cc] t)).
Proof.
  split; [|split].
  - unfold detect_msvc_ver. unfold_M.
    destruct (msvc_cc h) as [cc|] eqn:Ecc.
    + unfold try_except, spawn.
      destruct (child h [cc] (fs st)) as [[stderr|e] t] eqn:Ec.
      * destruct (version_of_banner stderr (spawned_one st [cc] t))
          as [(ver & Hv & Hlen)|(Hv & pre & long & post & Hs & Hrun & Hlong)].
        -- left. exists ver, (spawned_one st [cc] t). split; [exact Hv|exact Hlen].
        -- right. left. exists cc, stderr, t, pre, long, post.
           split; [reflexivity|]. split; [exact Ec|]. split; [exact Hs|].
           split; [exact Hrun|]. split; [exact Hlong|exact Hv].
      * destruct (is_Exception e) eqn:Ee.
        -- left. exists [16; 0]%N, (spawned_one st [cc] t). split; [reflexivity|].
           simpl. lia.
        -- right. right. destruct e; try discriminate.
           eexists _, _, _. split; [reflexivity|]. split; [exact Ec|reflexivity].
    + left. exists [16; 0]%N, st. split; [reflexivity|]. simpl. lia.
  - intros Hcc. unfold detect_msvc_ver. rewrite Hcc. reflexivity.
  - intros cc e t Hcc Hc He. unfold detect_msvc_ver, try_except, spawn. unfold_M.
    rewrite Hcc, Hc, He. reflexivity.
Qed.

Lemma X8_msvc_version_witness :
  detect_msvc_ver windows64 (state_of windows_tree)
  = (Ok [16; 0]%N, state_of windows_tree).
Proof.
  destruct (X8_msvc_version windows64 (state_of windows_tree)) as (_ & H & _).
  apply H. reflexivity.
Defined.

(** X9.  When the banner of the compiler is a text without digits that
    does not end with white space, then white space, a number of two or
    more runs of digits with dots between them, none of more than 4300
    digits, and white space again, as in
    [Compiler Version 19.29.30133 for x64], [_detect_msvc_ver] returns
    the runs of digits read as numbers. *)
Theorem X9_msvc_banner (h : host) (st : state) (cc : str) (t : node)
    (pre ws a b : str) (parts : list str) (y : ascii) (post : str) :
  msvc_cc h = Some cc ->
  child h [cc] (fs st)
  = (Ok (pre ++ ws ++ join "." (a :: b :: parts) ++ y :: post), t) ->
  Forall (fun c => is_digit c = false) pre ->
  (forall p x, pre = p ++ [x] -> is_space x = false) ->
  ws <> [] -> Forall (fun c => is_space c = true) ws ->
  digits a -> digits b -> Forall digits parts ->
  Forall within_limit (a :: b :: parts) ->
  is_space y = true ->
  detect_msvc_ver h st
  = (Ok (map int_value (a :: b :: parts)), spawned_one st [cc] t).
Proof.
  intros Hcc Hc Hpre Hlast Hne Hws Ha Hb Hparts Hlen Hy.
  unfold detect_msvc_ver, try_except, spawn. unfold_M. rewrite Hcc, Hc.
  destruct (search_msvc_version pre ws a b parts y post
              Hpre Hlast Hne Hws Ha Hb Hparts Hy) as (m & -> & ->).
  cbn [fmt_s]. rewrite dotted_to_tuple; [reflexivity|discriminate| |exact Hlen].
  repeat (constructor; [assumption|]). assumption.
Qed.

Lemma X9_msvc_banner_witness :
  detect_msvc_ver msvc_host (state_of windows_tree)
  = (Ok (map int_value ["19" : str; "29" : str; "30133" : str]),
     spawned_one (state_of windows_tree) ["cl.exe" : str] windows_tree).
Proof.
  apply (X9_msvc_banner msvc_host (state_of windows_tree) "cl.exe" windows_tree
           "Microsoft (R) C/C++ Optimizing Compiler Version" " "
           "19" "29" ["30133" : str] " "%char ("for x64" ++ nl)).
  - reflexivity.
  - reflexivity.
  - repeat constructor.
  - intros p x H. apply (f_equal (@rev ascii)) in H.
    rewrite rev_app_distr in H. simpl in H. injection H as <- _. reflexivity.
  - discriminate.
  - repeat constructor.
  - split; [discriminate|repeat constructor].
  - split; [discriminate|repeat constructor].
  - repeat constructor; discriminate.
  - repeat constructor; vm_compute; discriminate.
  - reflexivity.
Defined.

(** X10.  Construction on Windows.  The SDK root is asked for after the
    search of the code generator: when the search has succeeded and
    [FAI_SDK_ROOT_PATH] is not set, or is empty, [make] raises [OSError]
    ([EnvironmentError]) in the state the search left.  An instance that
    is returned has the value of the variable as its root, the directory
    [lib/x64] under it as its only library directory and [include] under
    it as its only include directory for the code generator, which is
    also given to the compiler with [/I]; [/permissive-] is among the
    flags of the compiler exactly when the version of the compiler is at
    least (19, 13); [-D_WIN32] is always among the options of the code
    generator, [-D_WIN64] exactly when the pointers are not 32 bits wide,
    [-py3] exactly when the interpreter is Python 3. *)
Theorem X10_windows_instance (h : host) (st : state) :
  get_platform h = "Windows" ->
  (forall swig st1,
     find_swig_windows h st = (Ok swig, st1) ->
     environ h !! ("FAI_SDK_ROOT_PATH" : str) = None
     \/ environ h !! ("FAI_SDK_ROOT_PATH" : str) = Some [] ->
     make h st = (Raise OSError, st1))
  /\ (forall bs st',
        make h st = (Ok (Some bs), st') ->
        exists root,
          environ h !! ("FAI_SDK_ROOT_PATH" : str) = Some root /\ root <> []
          /\ RootDevDir bs = root
          /\ LibraryDirs bs = [path_join root "lib/x64"]
          /\ get_swig_includes bs = [path_join root "include"]
          /\ In ("/I" ++ path_join root "include") (ExtraCompileArgs bs)
          /\ (In ("/permissive-" : str) (ExtraCompileArgs bs)
              <-> tuple_le [19; 13]%N (msvc_ver bs) = true)
          /\ In ("-D_WIN32" : str) (SwigOptions bs)
          /\ (In ("-D_WIN64" : str) (SwigOptions bs) <-> get_machinewidth h <> 32%Z)
          /\ (In ("-py3" : str) (SwigOptions bs) <-> python_major h = 3%N)).
Proof.
  intros Hw. split.
  - intros swig st1 Hs Henv. rewrite make_Windows by assumption.
    unfold BuildSupportWindows_init. unfold_M. rewrite Hs.
    unfold str in *. destruct Henv as [Hn|Hn]; rewrite Hn; reflexivity.
  - intros bs st'. rewrite make_Windows by assumption.
    destruct (BuildSupportWindows_init h st) as [[bs1|e] st1] eqn:E; [|discriminate].
    intros [= <- <-]. apply Windows_init_inv in E.
    destruct E as (swig & root & ver & st0 & _ & Henv & Hne & _ & ->).
    exists root. split; [exact Henv|]. split; [exact Hne|].
    split; [reflexivity|]. split; [reflexivity|]. split; [reflexivity|].
    cbn [ExtraCompileArgs SwigOptions msvc_ver windows_instance].
    split; [|split; [|split; [|split]]].
    + apply in_or_app. left. apply in_or_app. right. now left.
    + unfold tuple_le. rewrite in_app_iff.
      destruct (tuple_lt ver [19; 13]%N); simpl; split;
        try (intros [[H|[H|[H|[H|[]]]]]|H]; try discriminate; try destruct H;
             try discriminate);
        auto; try discriminate.
    + apply in_or_app. right. now left.
    + unfold base_SwigOptions, SwigOptions0.
      destruct (get_machinewidth h =? 32)%Z eqn:Ew;
        [apply Z.eqb_eq in Ew|apply Z.eqb_neq in Ew];
        destruct (python_major h =? 3)%N; simpl; split; auto; try tauto;
        intros H; repeat (destruct H as [H|H]; try discriminate); try contradiction.
    + unfold base_SwigOptions, SwigOptions0.
      destruct (python_major h =? 3)%N eqn:Ep;
        [apply N.eqb_eq in Ep|apply N.eqb_neq in Ep];
        destruct (get_machinewidth h =? 32)%Z; simpl; split; auto; try tauto;
        intros H; repeat (destruct H as [H|H]; try discriminate); try contradiction.
Qed.

Lemma X10_windows_instance_witness :
  let bs := windows_instance msvc_host (Some ("/pf/swigwin-4.0.0/swig.exe" : str))
              "/sdk" [19; 29; 30133]%N in
  exists root,
    environ msvc_host !! ("FAI_SDK_ROOT_PATH" : str) = Some root /\ root <> []
    /\ RootDevDir bs = root
    /\ LibraryDirs bs = [path_join root "lib/x64"]
    /\ get_swig_includes bs = [path_join root "include"]
    /\ In ("/I" ++ path_join root "include") (ExtraCompileArgs bs)
    /\ (In ("/permissive-" : str) (ExtraCompileArgs bs)
        <-> tuple_le [19; 13]%N (msvc_ver bs) = true)
    /\ In ("-D_WIN32" : str) (SwigOptions bs)
    /\ (In ("-D_WIN64" : str) (SwigOptions bs) <-> get_machinewidth msvc_host <> 32%Z)
    /\ (In ("-py3" : str) (SwigOptions bs) <-> python_major msvc_host = 3%N).
Proof.
  intros bs.
  destruct (X10_windows_instance msvc_host (state_of windows_tree) eq_refl) as [_ H].
  apply (H bs {| fs := windows_tree;
                 spawned := [["/pf/swigwin-4.0.0/swig.exe" : str; "-version" : str];
                             ["cl.exe" : str]];
                 setups := [] |}).
  vm_compute. reflexivity.
Defined.

(** X11.  Construction on Linux can fail only in the search of the code
    generator: once that has given a path the instance is there,
    whatever the environment holds.  The SDK root is the value of
    [FAI_SDK_ROOT_PATH], an empty value included, and [..] when the
    variable is not set; the library directories are the root and
    [lib/x64] under it, which is also given to the linker with [-L]; the
    include directories of the code generator are the root and [include]
    under it, read back from the [-I] flags of the compiler; the options
    of the code generator end with [-DSWIGWORDSIZE64] or
    [-DSWIGWORDSIZE32], after the pointer width. *)
Theorem X11_linux_instance (h : host) (st : state) (swig : option str) :
  get_platform h = "Linux" ->
  let bs := linux_instance h swig in
  let root := RootDevDir bs in
  (forall st1, find_swig h st = (Ok swig, st1) -> make h st = (Ok (Some bs), st1))
  /\ (forall e st1, find_swig h st = (Raise e, st1) -> make h st = (Raise e, st1))
  /\ root = default (".." : str) (environ h !! ("FAI_SDK_ROOT_PATH" : str))
  /\ LibraryDirs bs = [root; path_join root "lib/x64"]
  /\ In ("-L" ++ path_join root "lib/x64") (ExtraLinkArgs bs)
  /\ get_swig_includes bs = [root; path_join root "include"]
  /\ SwigOptions bs
     = base_SwigOptions h
       ++ [if (get_machinewidth h =? 64)%Z
           then "-DSWIGWORDSIZE64" : str else "-DSWIGWORDSIZE32"].
Proof.
  intros Hl bs root.
  split; [|split; [|split; [|split; [|split; [|split]]]]].
  - intros st1 H. rewrite make_Linux by assumption.
    unfold BuildSupportLinux_init. unfold_M. rewrite H. reflexivity.
  - intros e st1 H. rewrite make_Linux by assumption.
    unfold BuildSupportLinux_init. unfold_M. rewrite H. reflexivity.
  - reflexivity.
  - reflexivity.
  - cbn [ExtraLinkArgs bs linux_instance]. apply in_or_app. right. now left.
  - reflexivity.
  - cbn [SwigOptions bs linux_instance]. f_equal.
    destruct (machinewidth_cases h) as [-> | ->]; reflexivity.
Qed.

Lemma X11_linux_instance_witness :
  make swig_host (state_of tree0)
  = (Ok (Some (linux_instance swig_host (Some ("/usr/bin/swig" : str)))),
     spawned_one (state_of tree0) ["/usr/bin/swig" : str; "-version" : str] tree0).
Proof.
  destruct (X11_linux_instance swig_host (state_of tree0) (Some ("/usr/bin/swig" : str))
              eq_refl) as (H & _).
  apply H. vm_compute. reflexivity.
Defined.

(** X12.  The debug configuration has no part in the generation of the
    code: the include directories of the code generator are the same
    after [use_debug_configuration] as before, for both classes (on
    Linux they are read from the flags of the compiler, of which only
    [-O3] and [-g0] go and [-O0], [-g3] come), and [call_swig] starts
    the same child, leaves the same state and returns the same file
    name whether it is given the instance before or after the change. *)
Theorem X12_debug_keeps_generation (h : host) (bs : BuildSupport)
    (sourcedir source version : str) (skip : bool) (st : state) :
  let plain := call_swig h bs sourcedir source version skip st in
  let debug := call_swig h (use_debug_configuration bs) sourcedir source version skip st in
  get_swig_includes (use_debug_configuration bs) = get_swig_includes bs
  /\ debug.2 = plain.2
  /\ match plain.1, debug.1 with
     | Ok r, Ok r' => r'.1 = r.1 /\ r'.2 = use_debug_configuration r.2
     | Raise e, Raise e' => e' = e
     | _, _ => False
     end.
Proof.
  intros plain debug. split; [apply debug_keeps_includes|].
  subst plain debug. unfold call_swig.
  destruct skip; [split; [reflexivity|split; reflexivity]|].
  rewrite debug_keeps_includes.
  assert (Hexe : SwigExe (use_debug_configuration bs) = SwigExe bs)
    by (unfold use_debug_configuration; destruct (class_of bs); reflexivity).
  assert (Hopt : SwigOptions (use_debug_configuration bs) = SwigOptions bs)
    by (unfold use_debug_configuration; destruct (class_of bs); reflexivity).
  cbn [SwigExe SwigOptions with_SwigOptions]. rewrite Hexe, Hopt.
  destruct (SwigExe bs) as [exe|]; [|split; [reflexivity|reflexivity]].
  unfold_M.
  destruct (spawn h _ st) as [[out|e] st1]; [|split; reflexivity].
  destruct (append_file h _ _ st1) as [[[]|e] st2]; [|split; reflexivity].
  destruct (append_file h _ _ st2) as [[[]|e] st3]; [|split; reflexivity].
  split; [reflexivity|]. split; [reflexivity|].
  cbn [fst snd]. unfold use_debug_configuration, with_SwigOptions, with_flags.
  cbn [class_of RootDevDir SwigExe SwigOptions LibraryDirs DefineMacros
       ExtraCompileArgs ExtraLinkArgs RuntimeFiles RuntimeFolders msvc_ver].
  destruct (class_of bs); reflexivity.
Qed.

(** X13.  [call_swig] with [skip] set does nothing but name the
    generated source: for a source file [<stem>.<ext>] given without a
    directory (no slash, no further dot, [stem] not empty) it returns the
    absolute path [<working directory>/generated/<stem>_wrap.c] and the
    instance as it was; no child is started, no file is written, the
    options of the code generator are not extended. *)
Theorem X13_call_swig_skip (h : host) (bs : BuildSupport)
    (sourcedir stem ext version : str) (st : state) :
  stem <> [] -> ~ In "/"%char stem -> ~ In "."%char stem ->
  ~ In "/"%char ext -> ~ In "."%char ext ->
  call_swig h bs sourcedir (stem ++ "." ++ ext) version true st
  = (Ok ("/" ++ join "/" (cwd h ++ ["generated" : str; stem ++ "_wrap.c"]), bs), st).
Proof.
  intros Hne Hs1 Hs2 He1 He2. unfold call_swig.
  rewrite splitext_root_stem by assumption.
  rewrite wrapper_path by assumption. reflexivity.
Qed.

Lemma X13_call_swig_skip_witness :
  call_swig linux64 (linux_profile demosaic_first) "." ("FAI_python" ++ "." ++ "i") "1.0"
    true (state_of tree0)
  = (Ok ("/" ++ join "/" (cwd linux64 ++ ["generated" : str; "FAI_python" ++ "_wrap.c"]),
         linux_profile demosaic_first),
     state_of tree0).
Proof.
  apply (X13_call_swig_skip linux64 (linux_profile demosaic_first) "." "FAI_python" "i" "1.0"
           (state_of tree0)).
  - discriminate.
  - simpl. intuition discriminate.
  - simpl. intuition discriminate.
  - simpl. intuition discriminate.
  - simpl. intuition discriminate.
Defined.

(** X14.  [call_swig] without [skip], for a source file [<stem>.<ext>]
    and an instance that has its code generator.  One child is started:
    the code generator with [-python], [-outdir] and the absolute package
    directory, [-o] and the absolute name of the generated source, the
    options of the instance, one [-I] for each include directory, and
    the source.  When that start raises, the exception is passed on and
    no file is written.  When it returns and the package directory is
    there, the line [__version__ = '<version>'], between two line breaks,
    is appended to [<stem>.py] in the package directory (which is
    created when missing), [__init__.py] is created empty when missing
    and left as it is otherwise, nothing else in the file system is
    changed, and the result is the name of the generated source with the
    instance whose options now hold the [-I] options. *)
Theorem X14_call_swig_writes (h : host) (bs : BuildSupport)
    (exe sourcedir stem ext version : str) (st : state) :
  Forall legal_name (cwd h) ->
  stem <> [] -> ~ In "/"%char stem -> ~ In "."%char stem ->
  ~ In "/"%char ext -> ~ In "."%char ext -> stem <> "__init__" ->
  SwigExe bs = Some exe ->
  let source := stem ++ "." ++ ext in
  let package := cwd h ++ ["FAI_python" : str] in
  let command := swig_command h bs exe source in
  match child h command (fs st) with
  | (Raise e, t1) =>
      call_swig h bs sourcedir source version false st
      = (Raise e, spawned_one st command t1)
  | (Ok _, t1) =>
      forall es,
        lookup t1 package = Some (Dir es) ->
        not_a_directory (assoc (stem ++ ".py") es) ->
        not_a_directory (assoc "__init__.py" es) ->
        call_swig h bs sourcedir source version false st
        = (Ok ("/" ++ join "/" (cwd h ++ ["generated" : str; stem ++ "_wrap.c"]),
               with_SwigOptions bs
                 (SwigOptions bs
                  ++ map (fun inc => "-I" ++ inc) (get_swig_includes bs))),
           {| fs :=
                alter_at
                  (fun _ =>
                     Dir (set_entry "__init__.py"
                            (File (contents (assoc "__init__.py" es)))
                            (set_entry (stem ++ ".py")
                               (File (contents (assoc (stem ++ ".py") es)
                                      ++ version_line version))
                               es)))
                  t1 package;
              spawned := spawned st ++ [command];
              setups := setups st |})
  end.
Proof.
  intros Hcwd Hne Hs1 Hs2 He1 He2 Hinit Hexe source package command.
  assert (Hcmd : forall (A : Type) (k : str -> M A),
            (x ← spawn h command; k x) st
            = match child h command (fs st) with
              | (Ok out, t1) => k out (spawned_one st command t1)
              | (Raise e, t1) => (Raise e, spawned_one st command t1)
              end).
  { intros A k. unfold spawn. unfold_M.
    destruct (child h command (fs st)) as [[out|e] t1]; reflexivity. }
  unfold call_swig. cbn [SwigExe with_SwigOptions SwigOptions]. rewrite Hexe.
  change ([exe; "-python" : str; "-outdir" : str; abspath h PackageDir; "-o" : str;
           abspath h (path_join GeneratedDir (splitext_root source ++ "_wrap.c"))]
          ++ (SwigOptions bs ++ map (fun inc => "-I" ++ inc) (get_swig_includes bs))
          ++ [source]) with command.
  rewrite Hcmd.
  destruct (child h command (fs st)) as [[out|e] t1]; [|reflexivity].
  intros es Hpkg Hmod Hini.
  subst source. rewrite splitext_root_stem by assumption.
  rewrite wrapper_path by assumption.
  assert (Hn1 : legal_name (stem ++ ".py"))
    by (apply legal_name_suffixed; [assumption|simpl; intuition discriminate|simpl; lia]).
  unfold_M.
  rewrite (append_in_dir h _ package (stem ++ ".py") _ _ es).
  2:{ rewrite resolve_in_package by assumption. unfold package.
      now rewrite app_assoc. }
  2:{ exact Hpkg. }
  2:{ exact Hmod. }
  set (es1 := set_entry (stem ++ ".py") _ es).
  assert (Hes1 : assoc "__init__.py" es1 = assoc "__init__.py" es).
  { unfold es1. rewrite assoc_set_entry. rewrite str_eqb_false; [reflexivity|].
    intros E. apply Hinit.
    change (list_ascii_of_string "__init__.py") with ("__init__" ++ ".py") in E.
    now apply app_inv_tail in E. }
  rewrite (append_in_dir h _ package "__init__.py" _ _ es1).
  2:{ reflexivity. }
  2:{ cbn [fs with_fs spawned_one]. eapply lookup_altered. exact Hpkg. }
  2:{ now rewrite Hes1. }
  cbn [fs with_fs spawned_one spawned setups]. rewrite alter_at_twice.
  rewrite Hes1, app_nil_r. reflexivity.
Qed.

Lemma X14_call_swig_writes_witness :
  let es := entries (lookup (swig_writes tree0)
                       ["work" : str; "x64" : str; "FAI_python" : str]) in
  let command := swig_command build_host build_profile "/usr/bin/swig"
                   ("FAI_python" ++ "." ++ "i") in
  call_swig build_host build_profile "." ("FAI_python" ++ "." ++ "i") "1.0" false
    (state_of tree0)
  = (Ok ("/" ++ join "/" (cwd build_host
                          ++ ["generated" : str; "FAI_python" ++ "_wrap.c"]),
         with_SwigOptions build_profile
           (SwigOptions build_profile
            ++ map (fun inc => "-I" ++ inc) (get_swig_includes build_profile))),
     {| fs :=
          alter_at
            (fun _ =>
               Dir (set_entry "__init__.py"
                      (File (contents (assoc "__init__.py" es)))
                      (set_entry ("FAI_python" ++ ".py")
                         (File (contents (assoc ("FAI_python" ++ ".py") es)
                                ++ version_line "1.0"))
                         es)))
            (swig_writes tree0) (cwd build_host ++ ["FAI_python" : str]);
        spawned := spawned (state_of tree0) ++ [command];
        setups := setups (state_of tree0) |}).
Proof.
  intros es command.
  pose proof (X14_call_swig_writes build_host build_profile "/usr/bin/swig" "."
                "FAI_python" "i" "1.0" (state_of tree0)) as H.
  cbv zeta in H. fold command in H.
  assert (E : child build_host command (fs (state_of tree0))
              = (Ok [], swig_writes tree0)) by (vm_compute; reflexivity).
  rewrite E in H. apply H.
  - repeat constructor; try discriminate; simpl; intuition discriminate.
  - discriminate.
  - simpl. intuition discriminate.
  - simpl. intuition discriminate.
  - simpl. intuition discriminate.
  - simpl. intuition discriminate.
  - discriminate.
  - reflexivity.
  - vm_compute. reflexivity.
  - vm_compute. exact I.
  - vm_compute. exact I.
Defined.

(** X15.  [clean] and regular files.  [shutil.rmtree] with
    [ignore_errors] does not remove a regular file, so a file that has
    the name of one of the five paths is still there after the [clean]
    command, which ends normally all the same.  In mode [keep] such a
    file makes [os.makedirs] raise [FileExistsError]: when it is
    [generated], right after the package directory has been removed;
    when it is [FAI_python], after [generated] has been made anew and
    empty.  No child is started and [setup] is not called. *)
Theorem X15_clean_regular_file (h : host) (st : state) (data : str) :
  (forall n : str,
     contains n ["generated" : str; "FAI_python" : str; "build" : str;
                 "FAI_python.egg-info" : str; "dist" : str] = true ->
     lookup (fs st) (cwd h ++ [n]) = Some (File data) ->
     exists st',
       clean h "std" (Some ["build" : str; "FAI_python.egg-info" : str; "dist" : str]) st
       = (Ok tt, st')
       /\ lookup (fs st') (cwd h ++ [n]) = Some (File data))
  /\ (lookup (fs st) (cwd h ++ ["generated" : str]) = Some (File data) ->
      exists st',
        clean h "keep" None st = (Raise FileExistsError, st')
        /\ spawned st' = spawned st /\ setups st' = setups st
        /\ lookup (fs st') (cwd h ++ ["generated" : str]) = Some (File data)
        /\ lookup (fs st') (cwd h ++ ["FAI_python" : str])
           = cleared (lookup (fs st) (cwd h ++ ["FAI_python" : str])))
  /\ ((exists es, lookup (fs st) (cwd h) = Some (Dir es)) ->
      ~ plain_file (lookup (fs st) (cwd h ++ ["generated" : str])) ->
      lookup (fs st) (cwd h ++ ["FAI_python" : str]) = Some (File data) ->
      exists st',
        clean h "keep" None st = (Raise FileExistsError, st')
        /\ spawned st' = spawned st /\ setups st' = setups st
        /\ lookup (fs st') (cwd h ++ ["generated" : str]) = Some (Dir [])
        /\ lookup (fs st') (cwd h ++ ["FAI_python" : str]) = Some (File data)).
Proof.
  split; [|split].
  - intros n Hn Hfile. destruct (clean_std h st) as (st' & Hc & _ & _ & Hlook).
    exists st'. split; [exact Hc|]. rewrite Hlook, Hn, Hfile. reflexivity.
  - apply clean_keep_generated_file.
  - apply clean_keep_package_file.
Qed.

Lemma X15_clean_regular_file_witness :
  exists st',
    clean linux64 "keep" None (state_of blocked_tree) = (Raise FileExistsError, st')
    /\ spawned st' = spawned (state_of blocked_tree)
    /\ setups st' = setups (state_of blocked_tree)
    /\ lookup (fs st') (cwd linux64 ++ ["generated" : str]) = Some (File "notes")
    /\ lookup (fs st') (cwd linux64 ++ ["FAI_python" : str])
       = cleared (lookup (fs (state_of blocked_tree))
                    (cwd linux64 ++ ["FAI_python" : str])).
Proof.
  destruct (X15_clean_regular_file linux64 (state_of blocked_tree) "notes") as (_ & H & _).
  apply H. reflexivity.
Defined.

(** X16.  [clean] in a mode other than [skip] and [keep] always ends
    normally, starts no child, calls no [setup], and changes nothing at
    a path that parts from every one of the paths it is to remove (the
    generated directory, the package directory and the additional
    ones): what is next to them, and what is outside the working
    directory, is as it was. *)
Theorem X16_clean_frame (h : host) (mode : str) (additional_dirs : option (list str))
    (st : state) :
  mode <> "skip" -> mode <> "keep" ->
  exists st',
    clean h mode additional_dirs st = (Ok tt, st')
    /\ spawned st' = spawned st /\ setups st' = setups st
    /\ forall q,
         Forall (fun p => diverge (resolve (cwd h) p) q)
           ([GeneratedDir; PackageDir] ++ default [] additional_dirs) ->
         lookup (fs st') q = lookup (fs st) q.
Proof.
  intros Hs Hk. eexists. split; [|split; [|split]].
  - unfold clean. rewrite str_eqb_false by assumption.
    unfold_M. rewrite for_each_rmtree.
    rewrite str_eqb_false by assumption. reflexivity.
  - reflexivity.
  - reflexivity.
  - intros q Hq. cbn [fs with_fs].
    rewrite <- (fold_left_map rmtree_ignore_errors (resolve (cwd h))).
    apply lookup_rmtrees_diverge. apply Forall_map. exact Hq.
Qed.

Lemma X16_clean_frame_witness :
  exists st',
    clean linux64 "std" (Some ["build" : str; "FAI_python.egg-info" : str; "dist" : str])
      (state_of tree0) = (Ok tt, st')
    /\ lookup (fs st') ["work" : str; "x64" : str; "setup.py" : str]
       = Some (File "#!/usr/bin/env python").
Proof.
  destruct (X16_clean_frame linux64 "std"
              (Some ["build" : str; "FAI_python.egg-info" : str; "dist" : str])
              (state_of tree0)) as (st' & Hc & _ & _ & Hf); [discriminate|discriminate|].
  exists st'. split; [exact Hc|]. rewrite Hf; [reflexivity|].
  repeat constructor;
    (eexists ["work" : str; "x64" : str], _, "setup.py", [], [];
     split; [reflexivity|split; [reflexivity|discriminate]]).
Defined.

(** X17.  [get_package_data_files] lists nothing but the four patterns
    and files inside the sub-directories of the package directory: the
    list begins with [*.dll], [*.zip], [*.so], [*.so.*] in this order,
    and every further item is the path, relative to the package
    directory and with at least one directory in it, of a regular file
    that is there.  Names of directories, and files that lie in the
    package directory itself, are not among them.  The state is left as
    it was. *)
Theorem X17_package_data_only (h : host) (st : state) (pkg : list (str * node)) :
  node_at h (fs st) PackageDir = Some (Dir pkg) ->
  legal (Dir pkg) -> distinct (Dir pkg) ->
  exists found,
    get_package_data_files h st
    = (Ok (["*.dll" : str; "*.zip" : str; "*.so" : str; "*.so.*" : str] ++ found), st)
    /\ forall f, In f found ->
         exists d rest data,
           rest <> [] /\ lookup (Dir pkg) (d :: rest) = Some (File data)
           /\ f = join "/" (d :: rest).
Proof.
  intros Hpkg Hlegal Hdist.
  destruct (data_files_of_ok h (fs st) pkg (map fst pkg) Hpkg Hlegal)
    as (found & Hfound & _); [auto|].
  exists found. split.
  - unfold get_package_data_files, get_fs, listdir. unfold_M.
    rewrite Hpkg. simpl. rewrite Hfound. reflexivity.
  - eapply data_files_of_sound; eauto.
Qed.

Lemma X17_package_data_only_witness :
  exists found,
    get_package_data_files linux64 (state_of tree0)
    = (Ok (["*.dll" : str; "*.zip" : str; "*.so" : str; "*.so.*" : str] ++ found),
       state_of tree0)
    /\ forall f, In f found ->
         exists d rest data,
           rest <> []
           /\ lookup package_tree (d :: rest) = Some (File data)
           /\ f = join "/" (d :: rest).
Proof.
  apply (X17_package_data_only linux64 (state_of tree0)
           [("__init__.py" : str, File []);
            ("FAI_python.py" : str, File "import _FAI_python");
            ("genicam" : str,
             Dir [("cache.xml" : str, File "<x/>");
                  ("log" : str,
                   Dir [("config.properties" : str, File "level=3")])])]).
  - reflexivity.
  - tree_is_legal.
  - tree_is_distinct.
Defined.

(** X18.  On Linux the script never gets to [setup] and never ends
    normally, whatever its arguments, the file system and the programs
    at hand: every run ends with an exception ([SystemExit] for the
    [clean] command and for [--swig-only]), and the list of the calls of
    [setup] is as it was.  What stops a full build is the manifest of
    Linux, which has nothing for [libDemosaic], deployed by default. *)
Theorem X18_linux_never_builds (h : host) (a : arguments) (st : state) :
  get_platform h = "Linux" ->
  In ("libDemosaic" : str) (set_order h) ->
  exists e st', main h a st = (Raise e, st') /\ setups st' = setups st.
Proof.
  intros Hl Hin. unfold main. unfold_M. unfold lift.
  destruct (BinPath h) as [dir|e]; [|eauto].
  rewrite make_Linux by assumption.
  destruct (BuildSupportLinux_init h st) as [[bs|e] st1] eqn:E; cbn [made].
  - assert (K : setups st1 = setups st).
    { pose proof (kept_make h st) as K. rewrite make_Linux in K by assumption.
      now rewrite E in K. }
    destruct (Linux_init_class _ _ _ _ E) as [Hc Hm].
    destruct (run_linux_fails h a bs st1) as (e & st2 & E2 & K2);
      [assumption|now rewrite Hm|assumption|].
    exists e, st2. split; [exact E2|congruence].
  - exists e, st1. split; [reflexivity|].
    pose proof (kept_make h st) as K. rewrite make_Linux in K by assumption.
    now rewrite E in K.
Qed.

Lemma X18_linux_never_builds_witness :
  exists e st',
    main build_host no_arguments (state_of tree0) = (Raise e, st')
    /\ setups st' = setups (state_of tree0).
Proof.
  apply (X18_linux_never_builds build_host no_arguments (state_of tree0)).
  - reflexivity.
  - simpl. auto 10.
Defined.

(** X19.  With [-h] or [--help] among the arguments left for [setup],
    and without [clean], the script ends with [NameError]: the name
    [fai_python_src] is used for the extension without having been
    given a value.  This is so for every instance and every other
    option; nothing has happened by then but the query of the version:
    no documentation is rebuilt, nothing is cleaned or generated, and
    [setup], whose help was to be shown, is not called. *)
Theorem X19_help_name_error (h : host) (a : arguments) (bs : BuildSupport)
    (st st1 : state) (v : str) :
  contains "-h" (remainder a) || contains "--help" (remainder a) = true ->
  contains "clean" (remainder a) = false ->
  get_version h st = (Ok v, st1) ->
  run h a bs st = (Raise (NameError "fai_python_src"), st1)
  /\ spawned st1 = spawned st ++ [git_describe]
  /\ setups st1 = setups st.
Proof.
  intros Hhelp Hclean Hver. split; [|now apply (get_version_state h st st1 (Ok v))].
  unfold run. unfold_M. rewrite Hver, Hclean, Hhelp.
  unfold build. unfold_M. reflexivity.
Qed.

Lemma X19_help_name_error_witness :
  run build_host
    {| pp_version := None; pp_debug := false; swig_only := false; skip_swig := false;
       rebuild_doxygen := true; generate_python_doc := true;
       remainder := ["--help" : str] |}
    build_profile (state_of tree0)
  = (Raise (NameError "fai_python_src"),
     spawned_one (state_of tree0) git_describe tree0)
  /\ spawned (spawned_one (state_of tree0) git_describe tree0)
     = spawned (state_of tree0) ++ [git_describe]
  /\ setups (spawned_one (state_of tree0) git_describe tree0)
     = setups (state_of tree0).
Proof.
  apply (X19_help_name_error build_host _ build_profile (state_of tree0) _ "1.2.3.dev4");
    reflexivity.
Defined.

(** X20.  With [--swig-only] the script never ends normally and never
    calls [setup]: it ends with an exception, whatever the other
    arguments.  When the steps up to the code generator go through (no
    [clean], no help, no rebuild of the documentation asked for), it
    exits with status 0 in the very state [call_swig] left: the runtime
    is not copied and the package data is not listed. *)
Theorem X20_swig_only_stops (h : host) (a : arguments) (bs : BuildSupport) (st : state) :
  swig_only a = true ->
  (exists e st', run h a bs st = (Raise e, st') /\ setups st' = setups st)
  /\ (forall dv st1 st2 r st3,
        contains "clean" (remainder a) = false ->
        contains "-h" (remainder a) || contains "--help" (remainder a) = false ->
        rebuild_doxygen a = false ->
        get_version h st = (Ok dv, st1) ->
        clean h (if skip_swig a then "skip" else "keep") None st1 = (Ok tt, st2) ->
        call_swig h (if pp_debug a then use_debug_configuration bs else bs)
          "." "FAI_python.i"
          (default dv (pp_version a) ++ (if pp_debug a then "_dbg" : str else []))
          (skip_swig a) st2 = (Ok r, st3) ->
        run h a bs st = (Raise (SystemExit 0), st3)).
Proof.
  intros Hso. split.
  - unfold run. unfold_M.
    destruct (get_version h st) as [[dv|e] st1] eqn:E1.
    2:{ exists e, st1. split; [reflexivity|].
        eapply kept_eq; [apply kept_get_version|exact E1]. }
    assert (K1 : setups st1 = setups st)
      by (eapply kept_eq; [apply kept_get_version|exact E1]).
    destruct (contains "clean" (remainder a)).
    + destruct (clean h "std" _ st1) as [[[]|e] st2] eqn:E2;
        eexists _, st2; (split; [reflexivity|]); rewrite <- K1;
        (eapply kept_eq; [apply kept_clean|exact E2]).
    + destruct (build_swig_only h a (if pp_debug a then use_debug_configuration bs else bs)
                  (default dv (pp_version a) ++ (if pp_debug a then "_dbg" : str else []))
                  (contains "-h" (remainder a) || contains "--help" (remainder a)) st1 Hso)
        as (e & st2 & E2 & K2).
      exists e, st2. split; [exact E2|congruence].
  - intros dv st1 st2 r st3 Hclean Hhelp Hdoxy Hver Hcl Hsw.
    unfold run. unfold_M. rewrite Hver, Hclean, Hhelp.
    unfold build. unfold_M. rewrite Hdoxy. cbn [negb andb].
    rewrite Hcl, Hsw, Hso. reflexivity.
Qed.

Lemma X20_swig_only_stops_witness :
  exists e st',
    run build_host
      {| pp_version := None; pp_debug := false; swig_only := true; skip_swig := false;
         rebuild_doxygen := false; generate_python_doc := false;
         remainder := ["build_ext" : str] |}
      build_profile (state_of tree0) = (Raise e, st')
    /\ setups st' = setups (state_of tree0).
Proof.
  destruct (X20_swig_only_stops build_host
              {| pp_version := None; pp_debug := false; swig_only := true;
                 skip_swig := false; rebuild_doxygen := false;
                 generate_python_doc := false; remainder := ["build_ext" : str] |}
              build_profile (state_of tree0) eq_refl) as [H _].
  exact H.
Defined.

(** X21.  A run calls [setup] at most once, and a run that ends normally
    has called it exactly once.  The call is given the name
    [FAI_python], the version (the value of [--pp-version] when there is
    one, else what the version query gave, with [_dbg] at its end in a
    debug build), the package [FAI_python] with its data, and one
    extension, [FAI_python._FAI_python], with the one source
    [generated/FAI_python_wrap.c] under the working directory, the
    library [FAI_c], and the library directories and the flags of the
    compiler and the linker of the instance, after the debug switch.
    The data are what [get_package_data_files] returned in the state
    [copy_runtime] left, the steps before having gone through one after
    the other: the four patterns followed by the files found.  And
    whenever these steps go through, without [clean], help and
    [--swig-only], the run does call [setup], with these arguments. *)
Theorem X21_setup_once (h : host) (a : arguments) (bs : BuildSupport) (st : state) :
  let bs' := if pp_debug a then use_debug_configuration bs else bs in
  let patterns := ["*.dll" : str; "*.zip" : str; "*.so" : str; "*.so.*" : str] in
  (exists new,
     setups (run h a bs st).2 = setups st ++ new
     /\ (new = []
         \/ exists dv s0 r found,
              let version :=
                default dv (pp_version a)
                ++ (if pp_debug a then "_dbg" : str else []) in
              get_version h st = (Ok dv, s0)
              /\ steps_to_setup h a bs' version s0 r (patterns ++ found)
              /\ new = [setup_arguments h bs' version found])
     /\ ((run h a bs st).1 = Ok tt -> new <> []))
  /\ (forall dv s0 r files,
        let version :=
          default dv (pp_version a) ++ (if pp_debug a then "_dbg" : str else []) in
        get_version h st = (Ok dv, s0) ->
        contains "clean" (remainder a) = false ->
        help_mode a = false -> swig_only a = false ->
        steps_to_setup h a bs' version s0 r files ->
        exists found,
          files = patterns ++ found
          /\ setups (run h a bs st).2
             = setups st ++ [setup_arguments h bs' version found]).
Proof.
  intros bs' patterns. split.
  - destruct (run_trace h a bs st) as (new & Hnew & Hshape & Hok).
    exists new. split; [exact Hnew|]. split; [|exact Hok].
    destruct Hshape as [-> |(dv & s0 & r & files & E0 & _ & _ & _ & Hsteps & ->)];
      [now left|right].
    fold bs' in Hsteps.
    destruct (setup_of_arguments h _ _ _ _ _ _ Hsteps) as (found & -> & Heq).
    exists dv, s0, r, found. cbv zeta. fold (version_of a dv).
    split; [exact E0|]. split; [exact Hsteps|]. now rewrite Heq.
  - intros dv s0 r files version E0 Ec Hh Hso Hsteps. subst version.
    fold (version_of a dv) in *.
    destruct (setup_of_arguments h _ _ _ _ _ _ Hsteps) as (found & -> & Heq).
    exists found. split; [reflexivity|].
    rewrite <- Heq. now apply (run_reaches_setup h a bs st s0 dv r).
Qed.

Lemma X21_setup_once_witness :
  (run windows64 debug_arguments windows_profile (state_of windows_tree)).1 = Ok tt
  /\ exists new,
       setups (run windows64 debug_arguments windows_profile (state_of windows_tree)).2
       = [] ++ new
       /\ new <> [].
Proof.
  assert (Hok : (run windows64 debug_arguments windows_profile
                   (state_of windows_tree)).1 = Ok tt) by (vm_compute; reflexivity).
  split; [exact Hok|].
  destruct (X21_setup_once windows64 debug_arguments windows_profile
              (state_of windows_tree)) as [(new & Hnew & _ & Hcalled) _].
  exists new. split; [exact Hnew|exact (Hcalled Hok)].
Defined.

(** X22.  The programs a run starts, from the instance on, are at most
    four, in this order: [git describe --tags --dirty], always and
    first, also when [--pp-version] is given or the run only cleans or
    shows the help; the script of the documentation sources, only with
    [--rebuild-doxygen] and not when cleaning or showing the help; the
    code generator, only without [--skip-swig] and when the instance has
    one, with the command line of [call_swig], which the debug
    configuration leaves as it is; the script of the documentation, only
    with [--generate-python-doc] and without [--swig-only], and only
    after [setup] has been called.  Nothing else is started: [clean],
    [copy_runtime] and [get_package_data_files] start no program. *)
Theorem X22_children (h : host) (a : arguments) (bs : BuildSupport) (st : state) :
  let help := contains "-h" (remainder a) || contains "--help" (remainder a) in
  let cleaning := contains "clean" (remainder a) in
  exists dox swig doc,
    spawned (run h a bs st).2 = spawned st ++ [git_describe] ++ dox ++ swig ++ doc
    /\ (dox = []
        \/ (rebuild_doxygen a = true /\ cleaning = false /\ help = false
            /\ dox = [builddoxygen]))
    /\ (swig = []
        \/ exists exe,
             SwigExe bs = Some exe /\ skip_swig a = false
             /\ cleaning = false /\ help = false
             /\ swig = [swig_command h bs exe "FAI_python.i"])
    /\ (doc = []
        \/ (generate_python_doc a = true /\ swig_only a = false
            /\ cleaning = false /\ help = false
            /\ length (setups (run h a bs st).2) = S (length (setups st))
            /\ doc = [generatedoc])).
Proof.
  intros help cleaning. unfold run. unfold_M.
  pose proof (get_version_child h st) as Hg.
  pose proof (kept_get_version h st) as Kg.
  destruct (get_version h st) as [[dv|e] st1]; cbn [snd] in Hg, Kg.
  2:{ exists [], [], []. split; [|split; [|split]; now left]. exact Hg. }
  fold help cleaning.
  assert (Hnone : forall st', spawned st' = spawned st1 ->
            spawned st'
            = spawned st ++ [git_describe] ++ [] ++ [] ++ []) by (intros st' ->; exact Hg).
  destruct cleaning.
  { exists [], [], []. split; [|split; [|split]; now left].
    destruct (clean h "std" _ st1) as [[[]|e] st2] eqn:E2; cbn [snd];
      apply Hnone; eapply quiet_eq; try exact E2; apply quiet_clean. }
  unfold build. unfold_M.
  destruct help.
  { exists [], [], []. split; [|split; [|split]; now left]. apply Hnone. reflexivity. }
  cbn [negb andb].
  destruct ((if rebuild_doxygen a
             then call h "python scripts/builddoxy2swig/builddoxygen.py"
             else fun st => (Ok tt, st)) st1) as [r1 st2] eqn:E1.
  assert (Hdox : exists dox,
            spawned st2 = spawned st ++ [git_describe] ++ dox
            /\ (dox = []
                \/ (rebuild_doxygen a = true /\ false = false /\ false = false
                    /\ dox = [builddoxygen]))).
  { destruct (rebuild_doxygen a).
    - exists [builddoxygen]. split; [|right; auto].
      pose proof (call_child h "python scripts/builddoxy2swig/builddoxygen.py" st1) as Hc.
      rewrite E1 in Hc. cbn [snd] in Hc. rewrite Hc, Hg, <- app_assoc. reflexivity.
    - exists []. split; [|now left]. injection E1 as _ <-. rewrite Hg. reflexivity. }
  assert (K2 : setups st2 = setups st).
  { rewrite <- Kg. eapply kept_eq; [|exact E1].
    destruct (rebuild_doxygen a); [apply kept_call|intros ?; reflexivity]. }
  destruct Hdox as (dox & H2 & Hd).
  assert (Hstop : forall st', spawned st' = spawned st2 ->
            spawned st' = spawned st ++ [git_describe] ++ dox ++ [] ++ [])
    by (intros st' ->; rewrite H2; now rewrite !app_nil_r).
  destruct r1 as [[]|e].
  2:{ exists dox, [], []. split; [|split; [exact Hd|split; now left]]. now apply Hstop. }
  destruct (clean h _ None st2) as [[[]|e] st3] eqn:E3.
  2:{ exists dox, [], []. split; [|split; [exact Hd|split; now left]]. apply Hstop.
      eapply quiet_eq; [apply quiet_clean|exact E3]. }
  assert (H3 : spawned st3 = spawned st2)
    by (eapply quiet_eq; [apply quiet_clean|exact E3]).
  assert (K3 : setups st3 = setups st)
    by (rewrite <- K2; eapply kept_eq; [apply kept_clean|exact E3]).
  set (bs' := if pp_debug a then use_debug_configuration bs else bs).
  set (version := default dv (pp_version a) ++ (if pp_debug a then "_dbg" : str else [])).
  pose proof (call_swig_child h bs' "." "FAI_python.i" version (skip_swig a) st3) as Hs.
  cbv zeta in Hs.
  assert (Hsw : exists swig,
            spawned (call_swig h bs' "." "FAI_python.i" version (skip_swig a) st3).2
            = spawned st ++ [git_describe] ++ dox ++ swig
            /\ (swig = []
                \/ exists exe,
                     SwigExe bs = Some exe /\ skip_swig a = false
                     /\ false = false /\ false = false
                     /\ swig = [swig_command h bs exe "FAI_python.i"])).
  { destruct Hs as [Hs|(exe & Hexe & Hskip & Hs)].
    - exists []. split; [|now left]. rewrite Hs, H3, H2. now rewrite app_nil_r.
    - exists [swig_command h bs exe "FAI_python.i"]. split.
      + rewrite Hs, H3, H2, <- !app_assoc.
        replace (swig_command h bs' exe "FAI_python.i")
          with (swig_command h bs exe "FAI_python.i"); [reflexivity|].
        subst bs'. destruct (pp_debug a); [|reflexivity].
        unfold swig_command. rewrite debug_keeps_includes.
        unfold use_debug_configuration. destruct (class_of bs); reflexivity.
      + right. exists exe. split; [|auto].
        rewrite <- Hexe. subst bs'. destruct (pp_debug a); [|reflexivity].
        unfold use_debug_configuration. destruct (class_of bs); reflexivity. }
  destruct Hsw as (swig & Htr & Hshape).
  pose proof (kept_call_swig h bs' "." "FAI_python.i" version (skip_swig a) st3) as K4.
  destruct (call_swig h bs' "." "FAI_python.i" version (skip_swig a) st3)
    as [[r|e] st4] eqn:E4; cbn [snd] in Htr, K4.
  2:{ exists dox, swig, []. split; [|split; [exact Hd|split; [exact Hshape|now left]]].
      cbn [snd]. rewrite Htr, app_nil_r. reflexivity. }
  assert (Hend : forall st', spawned st' = spawned st4 ->
            spawned st' = spawned st ++ [git_describe] ++ dox ++ swig ++ [])
    by (intros st' ->; rewrite Htr, app_nil_r; reflexivity).
  destruct (swig_only a).
  { exists dox, swig, []. split; [|split; [exact Hd|split; [exact Hshape|now left]]].
    now apply Hend. }
  destruct (copy_runtime h r.2 st4) as [[[]|e] st5] eqn:E5.
  2:{ exists dox, swig, []. split; [|split; [exact Hd|split; [exact Hshape|now left]]].
      apply Hend. eapply quiet_eq; [apply quiet_copy_runtime|exact E5]. }
  assert (H5 : spawned st5 = spawned st4)
    by (eapply quiet_eq; [apply quiet_copy_runtime|exact E5]).
  assert (K5 : setups st5 = setups st)
    by (rewrite <- K3, <- K4; eapply kept_eq; [apply kept_copy_runtime|exact E5]).
  destruct (get_package_data_files h st5) as [[files|e] st6] eqn:E6.
  2:{ exists dox, swig, []. split; [|split; [exact Hd|split; [exact Hshape|now left]]].
      apply Hend.
      rewrite <- H5. eapply quiet_eq; [apply quiet_get_package_data_files|exact E6]. }
  assert (H6 : spawned st6 = spawned st4)
    by (rewrite <- H5; eapply quiet_eq; [apply quiet_get_package_data_files|exact E6]).
  assert (K6 : setups st6 = setups st)
    by (rewrite <- K5; eapply kept_eq; [apply kept_get_package_data_files|exact E6]).
  match goal with
  | |- context [setup h ?c st6] =>
      pose proof (quiet_setup h c st6) as H7;
      assert (K7 : setups (setup h c st6).2 = setups st6 ++ [c])
        by (unfold setup; destruct (setuptools h c (fs st6)); reflexivity);
      destruct (setup h c st6) as [[[]|e] st7] eqn:E7
  end; cbn [snd] in H7, K7.
  2:{ exists dox, swig, []. split; [|split; [exact Hd|split; [exact Hshape|now left]]].
      apply Hend. cbn [snd]. now rewrite H7. }
  destruct (generate_python_doc a).
  - exists dox, swig, [generatedoc].
    split; [|split; [exact Hd|split; [exact Hshape|]]].
    + rewrite call_child, H7, H6, Htr, <- !app_assoc. reflexivity.
    + right. repeat (split; [reflexivity|]). split; [|reflexivity].
      rewrite kept_call, K7, length_app, K6. cbn [length]. lia.
  - exists dox, swig, []. split; [|split; [exact Hd|split; [exact Hshape|now left]]].
    apply Hend. cbn [snd]. now rewrite H7.
Qed.

(** X23.  On Windows, when [copy_runtime] has ended normally and the
    package is a directory, the package holds the runtime of the
    compiler: [vcruntime140.dll] and [msvcp140.dll], and
    [vcruntime140_1.dll] as well for a 64-bit interpreter and a compiler
    of version 19.20 or later, each a regular file with the content of
    the file of that name in the system directory under [windir].  That
    directory is [System32] for a 64-bit interpreter, and for a 32-bit
    one on a 32-bit system ([PROCESSOR_ARCHITECTURE] is [x86] and
    [PROCESSOR_ARCHITEW6432] is not set); it is [SysWOW64] for a 32-bit
    interpreter when [PROCESSOR_ARCHITECTURE] is not [x86].  Both
    [PROCESSOR_ARCHITECTURE] and [windir] are set in the environment,
    or the call would not have ended normally. *)
Theorem X23_windows_runtime (h : host) (bs : BuildSupport) (st st' : state) :
  class_of bs = BuildSupportWindows ->
  copy_runtime h bs st = (Ok tt, st') ->
  isdir h (fs st') PackageDir = true ->
  exists arch windir sysname,
    environ h !! ("PROCESSOR_ARCHITECTURE" : str) = Some arch
    /\ environ h !! ("windir" : str) = Some windir
    /\ (sysname = ("System32" : str) \/ sysname = ("SysWOW64" : str))
    /\ (get_machinewidth h = 64%Z -> sysname = ("System32" : str))
    /\ (arch = ("x86" : str) ->
        environ h !! ("PROCESSOR_ARCHITEW6432" : str) = None ->
        sysname = ("System32" : str))
    /\ (get_machinewidth h <> 64%Z -> arch <> ("x86" : str) ->
        sysname = ("SysWOW64" : str))
    /\ forall dll,
         dll = ("vcruntime140.dll" : str) \/ dll = ("msvcp140.dll" : str)
         \/ (dll = ("vcruntime140_1.dll" : str) /\ get_machinewidth h = 64%Z
             /\ tuple_lt (msvc_ver bs) [19; 20]%N = false) ->
         exists data,
           node_at h (fs st') (path_join (path_join windir sysname) dll)
           = Some (File data)
           /\ node_at h (fs st') (path_join PackageDir dll) = Some (File data).
Proof.
  intros Hw. unfold copy_runtime. rewrite Hw. unfold copy_runtime_windows, environ_item.
  unfold_M. unfold str in *.
  destruct (copy_runtime_base h bs st) as [[[]|e] st1]; cbv beta iota; [|discriminate].
  match goal with
  | |- context [match ?x with Some _ => _ | None => _ end st1] =>
      destruct x as [arch|] eqn:Ea; cbv beta iota; [|discriminate]
  end.
  match goal with
  | |- context [match ?x with Some _ => _ | None => _ end st1] =>
      destruct x as [windir|] eqn:Ew; cbv beta iota; [|discriminate]
  end.
  set (os_bits := if str_eqb arch "x86" then _ else 64%Z).
  set (sysname := if (get_machinewidth h =? 64)%Z || (os_bits =? 32)%Z
                  then "System32" : list ascii else "SysWOW64" : list ascii).
  set (names := _ ++ (if (get_machinewidth h =? 64)%Z && _ then _ else _)).
  intros Hrun Hdir.
  exists arch, windir, sysname.
  split; [reflexivity|]. split; [reflexivity|].
  split; [subst sysname; destruct (_ || _); auto|].
  split.
  { intros H64. subst sysname. rewrite H64. reflexivity. }
  split.
  { intros -> Hnone. subst sysname os_bits. rewrite Hnone. cbn.
    now rewrite orb_true_r. }
  split.
  { intros H64 Hx. subst sysname os_bits.
    rewrite str_eqb_false by exact Hx.
    apply Z.eqb_neq in H64. rewrite H64. reflexivity. }
  assert (Hsys : legal_name sysname).
  { subst sysname. destruct (_ || _); repeat split; try discriminate;
      cbn; intuition discriminate. }
  assert (Hlegal : Forall legal_name names).
  { subst names. apply Forall_app. split.
    - repeat constructor; try discriminate; cbn; intuition discriminate.
    - destruct (_ && _); repeat constructor; try discriminate; cbn; intuition discriminate. }
  assert (Hnd : List.NoDup names).
  { subst names. destruct (_ && _); cbn; repeat constructor; cbn; intuition discriminate. }
  assert (HP : exists es, lookup (fs st1) (cwd h ++ ["FAI_python" : list ascii]) = Some (Dir es)).
  { destruct (lookup (fs st1) (cwd h ++ ["FAI_python" : list ascii])) as [[d|es]|] eqn:E;
      [exfalso| eauto |exfalso].
    - revert Hdir. unfold isdir, node_at. rewrite resolve_PackageDir.
      destruct (lookup (fs st') _) as [[?|es']|] eqn:E'; try discriminate.
      exfalso. eapply (copies_keep_no_directory h _ names st1 st'); [|exact Hrun|exact E'].
      intros es. unfold str in *. rewrite E. discriminate.
    - revert Hdir. unfold isdir, node_at. rewrite resolve_PackageDir.
      destruct (lookup (fs st') _) as [[?|es']|] eqn:E'; try discriminate.
      exfalso. eapply (copies_keep_no_directory h _ names st1 st'); [|exact Hrun|exact E'].
      intros es. unfold str in *. rewrite E. discriminate. }
  pose proof (join_name_plain windir sysname Hsys) as Hplain.
  destruct (copies_into_package h _ names Hplain Hlegal Hnd st1 st' HP Hrun)
    as (_ & _ & Hin).
  intros dll Hdll.
  assert (Hmem : In dll names).
  { subst names. apply in_or_app.
    destruct Hdll as [-> |[-> |(-> & H64 & Hver)]].
    - left. now left.
    - left. right. now left.
    - right. rewrite H64, Hver. now left. }
  destruct (Hin dll Hmem) as (data & Hs & Hd).
  rewrite Forall_forall in Hlegal.
  assert (Hn : legal_name dll) by (apply Hlegal; now apply list_elem_of_In).
  exists data. unfold node_at.
  destruct (join_plain h _ dll Hplain Hn) as [_ ->].
  assert (HPD : plain PackageDir) by (split; [discriminate|reflexivity]).
  destruct (join_plain h PackageDir dll HPD Hn) as [_ ->].
  rewrite resolve_PackageDir. auto.
Qed.

Lemma X23_windows_runtime_witness :
  let st' := (copy_runtime windows64 windows_profile (state_of windows_tree)).2 in
  exists data,
    node_at windows64 (fs st')
      (path_join (path_join "/windows" "System32") "vcruntime140_1.dll")
    = Some (File data)
    /\ node_at windows64 (fs st') (path_join PackageDir "vcruntime140_1.dll")
       = Some (File data).
Proof.
  intros st'.
  assert (Hrun : copy_runtime windows64 windows_profile (state_of windows_tree)
                 = (Ok tt, st')) by (vm_compute; reflexivity).
  assert (Hdir : isdir windows64 (fs st') PackageDir = true) by (vm_compute; reflexivity).
  destruct (X23_windows_runtime windows64 windows_profile (state_of windows_tree) st'
              eq_refl Hrun Hdir)
    as (arch & windir & sysname & _ & Hw & _ & H64 & _ & _ & Hdll).
  assert (windir = ("/windows" : str)) as -> by (vm_compute in Hw; injection Hw as <-; reflexivity).
  rewrite (H64 eq_refl) in Hdll.
  apply Hdll. right. right. split; [reflexivity|]. split; reflexivity.
Defined.
